(** * pyreddit: the pagination-and-aggregation engine of [reddit.py]

    A shallow embedding of the listing client of [src/reddit.py]:
    the record normalizer [transform_df], the paginated fetcher
    [util_get], the time-window aggregator [subreddit_top] and the
    endpoint strategies built on them.

    Conventions of the embedding.
    - Python objects that flow through the code (decoded JSON, query
      parameters) are values of [pyval]; a Python [dict] is an
      association list with the insertion-order semantics of the
      language; JSON numbers are integers (the epoch is an integer in
      the specification's data model).
    - A raised exception is a value of [exn]; code that can raise
      returns a [result].  The built-in exceptions are told apart as
      far as the statements need: [TypeError] also stands for the
      [AttributeError] pandas raises on a record that is no object,
      and [ValueError] for the [OverflowError] and [OSError] raised on
      a number out of the range of a double or of the platform's
      clock.
    - The [while] loop of [util_get] has no bound of its own.  It is
      run with a fuel counting loop iterations; [OutOfFuel] is the
      outcome of a run that would need more iterations than allowed.
    - The HTTP server is a state machine [serve]; the world threads
      its state together with the log of the requests issued so far.
      Every request is answered: failures of the transport itself
      are outside the model.
    - [print] calls write diagnostics only and are not modelled; the
      header look-ups done while formatting them can raise and are
      modelled.
    - pandas is modelled to the extent the code observes it: column
      set, row order, cell contents, row labels.  The typing that
      [pd.DataFrame] gives each column of a list of records is
      modelled (a null next to numbers becomes NaN, an integer next
      to a null or a gap becomes a float); the retyping [pd.concat]
      applies when frames disagree on a column is not: a table of
      several pages holds the cells of its pages.
      The typing is the one of pandas 1 and 2, where text is held
      in columns of objects.
    - [datetime.fromtimestamp] is the one of CPython on a POSIX
      platform, with the platform's zone rule as a parameter. *)

From Stdlib Require Import ZArith List String Ascii Bool Lia DecimalString.
Import ListNotations.

Open Scope string_scope.
Open Scope Z_scope.

(** ** Python values, exceptions *)

Set Warnings "-register-all".

Inductive pyval : Type :=
| PNone
| PBool (b : bool)
| PInt (z : Z)
| PStr (s : string)
| PList (l : list pyval)
| PDict (d : list (string * pyval)).

Inductive exn : Type :=
| KeyError (k : string)
| TypeError
| ValueError
| JSONDecodeError.

Inductive result (A : Type) : Type :=
| Ok (a : A)
| Err (e : exn).
Arguments Ok {A} a.
Arguments Err {A} e.

Definition rbind {A B : Type} (r : result A) (f : A -> result B) : result B :=
  match r with
  | Ok a => f a
  | Err e => Err e
  end.

Notation "x <- r ;; k" := (rbind r (fun x => k))
  (at level 61, r at next level, right associativity).

Fixpoint mapM {A B : Type} (f : A -> result B) (l : list A) : result (list B) :=
  match l with
  | [] => Ok []
  | a :: l' => b <- f a ;; bs <- mapM f l' ;; Ok (b :: bs)
  end.

(** ** Dictionaries (insertion ordered, first binding wins) *)

Definition dict (V : Type) : Type := list (string * V).

Fixpoint dict_get {V : Type} (d : dict V) (k : string) : option V :=
  match d with
  | [] => None
  | (k', v) :: d' => if String.eqb k' k then Some v else dict_get d' k
  end.

(** [d[k] = v]: an existing key keeps its position, a new key goes last. *)
Fixpoint dict_set {V : Type} (d : dict V) (k : string) (v : V) : dict V :=
  match d with
  | [] => [(k, v)]
  | (k', v') :: d' =>
      if String.eqb k' k then (k', v) :: d' else (k', v') :: dict_set d' k v
  end.

Definition dict_keys {V : Type} (d : dict V) : list string := map fst d.

Fixpoint mem (k : string) (l : list string) : bool :=
  match l with
  | [] => false
  | k' :: l' => if String.eqb k' k then true else mem k l'
  end.

(** Python truth value, as tested by [while after:]. *)
Definition truthy (v : pyval) : bool :=
  match v with
  | PNone => false
  | PBool b => b
  | PInt z => negb (z =? 0)
  | PStr s => negb (String.eqb s "")
  | PList l => match l with [] => false | _ => true end
  | PDict d => match d with [] => false | _ => true end
  end.

(** [o[k]] for a string key [k]. *)
Definition getitem (o : pyval) (k : string) : result pyval :=
  match o with
  | PDict d =>
      match dict_get d k with
      | Some v => Ok v
      | None => Err (KeyError k)
      end
  | _ => Err TypeError
  end.

Fixpoint chars (s : string) : list pyval :=
  match s with
  | EmptyString => []
  | String c s' => PStr (String c EmptyString) :: chars s'
  end.

(** The elements a [for] loop draws from [o]. *)
Definition py_iter (o : pyval) : result (list pyval) :=
  match o with
  | PList l => Ok l
  | PDict d => Ok (map (fun kv => PStr (fst kv)) d)
  | PStr s => Ok (chars s)
  | _ => Err TypeError
  end.

(** ** Local time *)

Record datetime : Type := mk_datetime {
  year : Z; month : Z; day : Z; hour : Z; minute : Z; second : Z
}.

(** Civil date of a day count from 1970-01-01 (proleptic Gregorian). *)
Definition civil_from_days (days : Z) : Z * Z * Z :=
  let z := days + 719468 in
  let era := z / 146097 in
  let doe := z - era * 146097 in
  let yoe := (doe - doe / 1460 + doe / 36524 - doe / 146096) / 365 in
  let doy := doe - (365 * yoe + yoe / 4 - yoe / 100) in
  let mp := (5 * doy + 2) / 153 in
  let d := doy - (153 * mp + 2) / 5 + 1 in
  let m := if mp <? 10 then mp + 3 else mp - 9 in
  let y := yoe + era * 400 in
  (if m <=? 2 then y + 1 else y, m, d).

Arguments civil_from_days : simpl never.

(** ** Tables *)

Inductive cell : Type :=
| CVal (v : pyval)
| CNaN
| CTime (t : datetime)
| CFloat (z : Z).

Record DataFrame : Type := mk_frame {
  index : list nat;
  columns : list string;
  rows : list (dict cell)
}.

Definition len (df : DataFrame) : nat := List.length (rows df).

Definition add_key (seen : list string) (k : string) : list string :=
  if mem k seen then seen else (seen ++ [k])%list.

Definition union_keys (seen ks : list string) : list string :=
  fold_left add_key ks seen.

Definition cell_of {V : Type} (inj : V -> cell) (d : dict V) (c : string) : cell :=
  match dict_get d c with
  | Some v => inj v
  | None => CNaN
  end.

(** A row laid out on the columns [cols]; a column the row lacks is
    filled with NaN. *)
Definition reindex (cols : list string) (row : dict cell) : dict cell :=
  map (fun c => (c, cell_of (fun x => x) row c)) cols.

(** [float(z)]: the double nearest to the integer [z], ties going to
    the even mantissa, given as the integer it holds (a cell
    [CFloat f]); none when [z] is beyond the doubles. *)
Definition float_of_int (z : Z) : option Z :=
  let a := Z.abs z in
  let n := Z.log2 a + 1 in
  if n <=? 53 then Some z
  else
    let k := n - 53 in
    let q := Z.shiftr a k in
    let r := a - Z.shiftl q k in
    let half := Z.shiftl 1 (k - 1) in
    let q' := if (half <? r) || ((r =? half) && Z.odd q) then q + 1 else q in
    let m := Z.shiftl q' k in
    if 2 ^ 1024 <=? m then None else Some (Z.sgn z * m).

Arguments float_of_int : simpl never.

Definition INT64_MIN : Z := - 2 ^ 63.
Definition INT64_MAX : Z := 2 ^ 63 - 1.
Definition UINT64_MAX : Z := 2 ^ 64 - 1.

(** What pandas has seen while typing a column of objects
    ([maybe_convert_objects]). *)
Record Seen : Type := mk_seen {
  null_ : bool;
  nan_ : bool;
  bool_ : bool;
  int_ : bool;
  uint_ : bool;
  sint_ : bool;
  object_ : bool
}.

Definition seen0 : Seen := mk_seen false false false false false false false.

Definition saw_null (s : Seen) : Seen :=
  mk_seen true (nan_ s) (bool_ s) (int_ s) (uint_ s) (sint_ s) (object_ s).
Definition saw_nan (s : Seen) : Seen :=
  mk_seen (null_ s) true (bool_ s) (int_ s) (uint_ s) (sint_ s) (object_ s).
Definition saw_bool (s : Seen) : Seen :=
  mk_seen (null_ s) (nan_ s) true (int_ s) (uint_ s) (sint_ s) (object_ s).
Definition saw_object (s : Seen) : Seen :=
  mk_seen (null_ s) (nan_ s) (bool_ s) (int_ s) (uint_ s) (sint_ s) true.
Definition saw_int (s : Seen) (z : Z) : Seen :=
  mk_seen (null_ s) (nan_ s) (bool_ s) true
          (uint_ s || ((INT64_MAX <? z) && (z <=? UINT64_MAX)))
          (sint_ s || ((INT64_MIN <=? z) && (z <? 0)))
          (object_ s).
Definition set_int (s : Seen) : Seen :=
  mk_seen (null_ s) (nan_ s) (bool_ s) true (uint_ s) (sint_ s) (object_ s).

(** The pass over the cells of a column, in row order.  A string, a
    list or an object ends it: the column stays a column of objects.
    So does an integer out of the 64-bit ranges, or a negative
    integer meeting one above [INT64_MAX], unless a null came before
    it.  Every integer passed is converted to a float on the way,
    which fails beyond the doubles.  (The cells of a column of
    decoded JSON are values and gaps; a date or a float, which no
    such column holds, is counted with the objects.) *)
Fixpoint scan (s : Seen) (col : list cell) : result Seen :=
  match col with
  | [] => Ok s
  | c :: col' =>
      match c with
      | CVal PNone => scan (saw_null s) col'
      | CNaN => scan (saw_nan s) col'
      | CVal (PBool _) => scan (saw_bool s) col'
      | CVal (PInt z) =>
          match float_of_int z with
          | None => Err ValueError
          | Some _ =>
              if null_ s then scan (set_int s) col'
              else
                let s := saw_int s z in
                if (uint_ s && sint_ s) || (UINT64_MAX <? z) || (z <? INT64_MIN)
                then Ok (saw_object s)
                else scan s col'
          end
      | _ => Ok (saw_object s)
      end
  end.

(** The column becomes a column of floats: nothing but numbers, nulls
    and gaps were seen, with a null or a gap, and not nulls alone. *)
Definition as_floats (s : Seen) : bool :=
  negb (object_ s) && negb (bool_ s) && (null_ s || nan_ s) && (int_ s || nan_ s).

Definition as_float (c : cell) : cell :=
  match c with
  | CVal PNone => CNaN
  | CVal (PInt z) =>
      match float_of_int z with
      | Some f => CFloat f
      | None => c
      end
  | _ => c
  end.

(** The cells of the records under the key [c], a gap where a record
    lacks it. *)
Definition raw_column (recs : list (dict pyval)) (c : string) : list cell :=
  map (fun d => cell_of CVal d c) recs.

Definition floats_column (recs : list (dict pyval)) (c : string) : bool :=
  match scan seen0 (raw_column recs c) with
  | Ok s => as_floats s
  | Err _ => false
  end.

(** The columns of a frame of records: their keys, in order of first
    appearance. *)
Definition frame_columns (recs : list (dict pyval)) : list string :=
  fold_left (fun acc d => union_keys acc (dict_keys d)) recs [].

Definition typed (floats : bool) (c : cell) : cell :=
  if floats then as_float c else c.

(** The row of a record in the frame of [recs], laid out on [cols];
    how each column is typed is settled once for all rows. *)
Definition row_of_record (recs : list (dict pyval)) (cols : list string)
  : dict pyval -> dict cell :=
  let floats := map (floats_column recs) cols in
  fun d => map (fun cf => (fst cf, typed (snd cf) (cell_of CVal d (fst cf))))
               (combine cols floats).

Definition as_record (v : pyval) : result (dict pyval) :=
  match v with
  | PDict d => Ok d
  | _ => Err TypeError
  end.

(** A frame whose columns pandas names by position: it has no named
    column, which is all the code observes of it. *)
Definition positional (n : nat) : DataFrame :=
  {| index := seq 0 n; columns := []; rows := repeat [] n |}.

(** [pd.DataFrame(data)] for a list.
    - When the first element is an object the list is read as
      records: every element must be an object; the columns are the
      keys in order of first appearance, each typed by [scan]; the
      rows are labelled 0..n-1.
    - When it is a list, every element is laid out as a row, short
      rows padded with nulls, and the columns are named by position.
    - Otherwise the list is one column, named by position. *)
Definition pd_DataFrame (data : list pyval) : result DataFrame :=
  match data with
  | [] | PDict _ :: _ =>
      recs <- mapM as_record data ;;
      _ <- mapM (fun c => scan seen0 (raw_column recs c)) (frame_columns recs) ;;
      Ok {| index := seq 0 (List.length recs);
            columns := frame_columns recs;
            rows := map (row_of_record recs (frame_columns recs)) recs |}
  | PList _ :: _ =>
      rs <- mapM py_iter data ;;
      let k := fold_right Nat.max O (map (@List.length pyval) rs) in
      _ <- mapM (fun j => scan seen0 (map (fun r => CVal (nth j r PNone)) rs)) (seq 0 k) ;;
      Ok (positional (List.length data))
  | _ :: _ =>
      _ <- scan seen0 (map CVal data) ;;
      Ok (positional (List.length data))
  end.

(** [df[c]] *)
Definition df_getitem (df : DataFrame) (c : string) : result (list cell) :=
  if mem c (columns df)
  then Ok (map (fun r => cell_of (fun x => x) r c) (rows df))
  else Err (KeyError c).

(** [series.apply(f)] *)
Definition series_apply (f : cell -> result cell) (s : list cell) : result (list cell) :=
  mapM f s.

Fixpoint set_column (c : string) (rs : list (dict cell)) (vs : list cell) : list (dict cell) :=
  match rs, vs with
  | r :: rs', v :: vs' => dict_set r c v :: set_column c rs' vs'
  | _, _ => rs
  end.

(** [df[c] = series] for a series carrying the row labels of [df]. *)
Definition df_setitem (df : DataFrame) (c : string) (vs : list cell) : DataFrame :=
  {| index := index df;
     columns := add_key (columns df) c;
     rows := set_column c (rows df) vs |}.

(** [pd.concat(frames)]: rows in order, columns united in order of
    first appearance, row labels kept. *)
Definition pd_concat (frames : list DataFrame) : result DataFrame :=
  match frames with
  | [] => Err ValueError
  | _ =>
      let cols := fold_left (fun acc df => union_keys acc (columns df)) frames [] in
      Ok {| index := flat_map index frames;
            columns := cols;
            rows := flat_map (fun df => map (reindex cols) (rows df)) frames |}
  end.

(** [df.reset_index(drop=True, inplace=True)] *)
Definition reset_index (df : DataFrame) : DataFrame :=
  {| index := seq 0 (len df); columns := columns df; rows := rows df |}.

(** Cell of row number [i] (by position) in column [c]. *)
Definition cell_at (df : DataFrame) (i : nat) (c : string) : option cell :=
  match nth_error (rows df) i with
  | Some r => dict_get r c
  | None => None
  end.

(** ** HTTP *)

Record request : Type := mk_request {
  req_url : string;
  req_headers : dict string;
  req_params : dict pyval
}.

(** A response: status, headers (names in lower case), and the body as
    [r.json()] decodes it ([None] when the body is not JSON). *)
Record response : Type := mk_response {
  status_code : Z;
  resp_headers : dict string;
  body : option pyval
}.

(** [r.ok] *)
Definition ok (r : response) : bool :=
  negb ((400 <=? status_code r) && (status_code r <? 600)).

(** [r.json()] *)
Definition r_json (r : response) : result pyval :=
  match body r with
  | Some j => Ok j
  | None => Err JSONDecodeError
  end.

(** [r.headers[name]] *)
Definition header (r : response) (name : string) : result string :=
  match dict_get (resp_headers r) name with
  | Some v => Ok v
  | None => Err (KeyError name)
  end.

(** The query pairs [requests] sends for a parameter mapping: a list
    value contributes one pair per element, and a [None] is left out. *)
Definition encode_params (params : dict pyval) : list (string * pyval) :=
  flat_map (fun kv =>
              let vs := match snd kv with
                        | PList l => l
                        | PDict d => map (fun e => PStr (fst e)) d
                        | v => [v]
                        end in
              flat_map (fun v => match v with
                                 | PNone => []
                                 | _ => [(fst kv, v)]
                                 end) vs)
           params.

(** ** The client object *)

Record Reddit : Type := mk_reddit {
  headers : dict string
}.

Definition url_base : string := "https://oauth.reddit.com".
Definition limit : Z := 100.
Definition top_list : list string := ["all"; "year"; "month"; "week"; "day"; "hour"].

Inductive outcome (A : Type) : Type :=
| Return (a : A)
| Raise (e : exn)
| OutOfFuel.
Arguments Return {A} a.
Arguments Raise {A} e.
Arguments OutOfFuel {A}.

Definition of_result {A : Type} (r : result A) : outcome A :=
  match r with
  | Ok a => Return a
  | Err e => Raise e
  end.

Fixpoint list_index (x : string) (l : list string) : option nat :=
  match l with
  | [] => None
  | y :: l' =>
      if String.eqb y x then Some O
      else match list_index x l' with
           | Some i => Some (S i)
           | None => None
           end
  end.

Section Client.

(** The platform's local-time rule: offset from UTC, in seconds, in
    force at an instant. *)
Variable utcoffset : Z -> Z.

(** The year of the local date at an instant. *)
Definition local_year (t : Z) : Z :=
  let '(y, _, _) := civil_from_days ((t + utcoffset t) / 86400) in y.

Definition year_in_range (y : Z) : bool := (1 <=? y) && (y <=? 9999).

(** [datetime.fromtimestamp] on an integer epoch.  The year of the
    local date must lie in 1..9999, and so must the year of each
    instant the function looks at to tell a repeated hour: the one a
    day earlier, and, when the zone offset fell during that day, the
    one earlier by the fall. *)
Definition local_of_epoch (t : Z) : result datetime :=
  let s := t + utcoffset t in
  let '(y, m, d) := civil_from_days (s / 86400) in
  let r := s mod 86400 in
  let transition := utcoffset t - utcoffset (t - 86400) in
  if year_in_range y
     && year_in_range (local_year (t - 86400))
     && ((0 <=? transition) || year_in_range (local_year (t + transition)))
  then Ok {| year := y; month := m; day := d;
             hour := r / 3600; minute := (r mod 3600) / 60; second := r mod 60 |}
  else Err ValueError.

(** [lambda x: dt.datetime.fromtimestamp(x)] applied to a cell. *)
Definition fromtimestamp (x : cell) : result cell :=
  match x with
  | CVal (PInt z) => t <- local_of_epoch z ;; Ok (CTime t)
  | CVal (PBool b) => t <- local_of_epoch (if b then 1 else 0) ;; Ok (CTime t)
  | CFloat z => t <- local_of_epoch z ;; Ok (CTime t)
  | CNaN => Err ValueError
  | _ => Err TypeError
  end.

(** The payloads of the children of a listing:
    [[item["data"] for item in r_json["data"]["children"]]]. *)
Definition payloads (r_json : pyval) : result (list pyval) :=
  data <- getitem r_json "data" ;;
  children <- getitem data "children" ;;
  items <- py_iter children ;;
  mapM (fun item => getitem item "data") items.

Definition transform_df (r_json : pyval) : result DataFrame :=
  data <- payloads r_json ;;
  df <- pd_DataFrame data ;;
  created <- df_getitem df "created_utc" ;;
  ts <- series_apply fromtimestamp created ;;
  Ok (df_setitem df "timestamp" ts).

(** The server: a state machine answering one request at a time. *)
Variable S : Type.
Variable serve : S -> request -> response * S.

Record world : Type := mk_world {
  srv : S;
  log : list request
}.

(** [requests.get(url, headers=..., params=...)]: the request is
    logged and answered; the parameters are read at call time. *)
Definition requests_get (req : request) (w : world) : response * world :=
  let (r, s') := serve (srv w) req in
  (r, {| srv := s'; log := (log w ++ [req])%list |}).

Variable self : Reddit.

(** What one turn of the loop of [util_get] takes from a response:
    the normalized page, the next cursor, and the two rate-limit
    headers read for the progress line. *)
Definition read_page (r : response) : result (DataFrame * pyval) :=
  j <- r_json r ;;
  df <- transform_df j ;;
  j' <- r_json r ;;
  data <- getitem j' "data" ;;
  after <- getitem data "after" ;;
  _ <- header r "x-ratelimit-remaining" ;;
  _ <- header r "x-ratelimit-reset" ;;
  Ok (df, after).

(** [while after: ...] of [util_get]; [params] is the caller's
    mapping, updated in place, and is handed back with the outcome.
    The counter [count] only feeds the progress line and is left out. *)
Fixpoint util_get_loop (fuel : nat) (get_url : string) (after : pyval)
         (result : list DataFrame) (params : dict pyval) (w : world)
  : outcome (list DataFrame) * dict pyval * world :=
  if truthy after then
    match fuel with
    | O => (OutOfFuel, params, w)
    | Datatypes.S fuel' =>
        let params := dict_set params "after" after in
        let (r, w) := requests_get {| req_url := get_url;
                                      req_headers := headers self;
                                      req_params := params |} w in
        match read_page r with
        | Err e => (Raise e, params, w)
        | Ok (df, after) =>
            util_get_loop fuel' get_url after (result ++ [df])%list params w
        end
    end
  else (Return result, params, w).

Definition util_get (fuel : nat) (url : string) (params : dict pyval) (w : world)
  : outcome DataFrame * dict pyval * world :=
  let get_url := url_base ++ url in
  match util_get_loop fuel get_url (PBool true) [] params w with
  | (Return result, params, w) => (of_result (pd_concat result), params, w)
  | (Raise e, params, w) => (Raise e, params, w)
  | (OutOfFuel, params, w) => (OutOfFuel, params, w)
  end.

(** Callers drop their parameter mapping once the fetch is over. *)
Definition fetch (fuel : nat) (url : string) (params : dict pyval) (w : world)
  : outcome DataFrame * world :=
  let '(o, _, w') := util_get fuel url params w in (o, w').

Definition subreddit (fuel : nat) (name sort : string) (w : world)
  : outcome DataFrame * world :=
  let url := "/r/" ++ name ++ "/" ++ sort in
  let params := [("limit", PInt limit); ("show", PStr "all"); ("after", PNone)] in
  fetch fuel url params w.

Definition top_params (top : string) : dict pyval :=
  [("t", PStr top); ("limit", PInt limit); ("show", PStr "all")].

(** [for top in self.top_list[slicer:]: ...] of [subreddit_top]. *)
Fixpoint top_loop (fuel : nat) (url : string) (tops : list string)
         (result : list DataFrame) (w : world)
  : outcome (list DataFrame) * world :=
  match tops with
  | [] => (Return result, w)
  | top :: tops' =>
      match fetch fuel url (top_params top) w with
      | (Return df, w) =>
          let result := (result ++ [df])%list in
          if (len df <? 900)%nat then (Return result, w)
          else top_loop fuel url tops' result w
      | (Raise e, w) => (Raise e, w)
      | (OutOfFuel, w) => (OutOfFuel, w)
      end
  end.

Definition subreddit_top (fuel : nat) (name sort upto : string) (w : world)
  : outcome DataFrame * world :=
  let url := "/r/" ++ name ++ "/" ++ sort in
  match list_index upto top_list with
  | None => (Raise ValueError, w)
  | Some slicer =>
      match top_loop fuel url (skipn slicer top_list) [] w with
      | (Return result, w) =>
          (of_result (df <- pd_concat result ;; Ok (reset_index df)), w)
      | (Raise e, w) => (Raise e, w)
      | (OutOfFuel, w) => (OutOfFuel, w)
      end
  end.

(** A list comprehension whose element expression talks to the server. *)
Fixpoint collect {A : Type} (f : A -> world -> outcome DataFrame * world)
         (l : list A) (w : world) : outcome (list DataFrame) * world :=
  match l with
  | [] => (Return [], w)
  | a :: l' =>
      match f a w with
      | (Return df, w) =>
          match collect f l' w with
          | (Return dfs, w) => (Return (df :: dfs), w)
          | other => other
          end
      | (Raise e, w) => (Raise e, w)
      | (OutOfFuel, w) => (OutOfFuel, w)
      end
  end.

Definition aggregate (fuel : nat) (name : string) (w : world)
  : outcome DataFrame * world :=
  match collect (fun sort => subreddit fuel name sort) ["rising"; "new"; "hot"] w with
  | (Return l1, w) =>
      match collect (fun sort => subreddit_top fuel name sort "month")
                    ["top"; "controversial"] w with
      | (Return l2, w) => (of_result (pd_concat (l1 ++ l2)%list), w)
      | (Raise e, w) => (Raise e, w)
      | (OutOfFuel, w) => (OutOfFuel, w)
      end
  | (Raise e, w) => (Raise e, w)
  | (OutOfFuel, w) => (OutOfFuel, w)
  end.

End Client.

Arguments mk_world {S} srv log.
Arguments srv {S} w.
Arguments log {S} w.

(** ** A scripted server

    The test double of the specification's scenarios: it answers the
    n-th request with the n-th response of a script, whatever the
    request, and with an empty 404 once the script is used up. *)

Definition not_found : response :=
  {| status_code := 404; resp_headers := []; body := None |}.

Definition scripted (s : list response) (_ : request) : response * list response :=
  match s with
  | [] => (not_found, [])
  | r :: s' => (r, s')
  end.

Definition rate_headers : dict string :=
  [("x-ratelimit-remaining", "99"); ("x-ratelimit-reset", "60")].

(** A listing body [{data: {children: [{data: payload}...], after: cursor}}]. *)
Definition listing (items : list pyval) (cursor : pyval) : pyval :=
  PDict [("data", PDict [("children", PList (map (fun p => PDict [("data", p)]) items));
                         ("after", cursor)])].

Definition page_response (status : Z) (items : list pyval) (cursor : pyval) : response :=
  {| status_code := status; resp_headers := rate_headers;
     body := Some (listing items cursor) |}.

(** A post carrying an identifier and an epoch. *)
Definition post (id : string) (epoch : Z) : pyval :=
  PDict [("id", PStr id); ("created_utc", PInt epoch)].

Definition posts (n : nat) : list pyval :=
  map (fun i => post "t3" (1700000000 + Z.of_nat i)) (seq 0 n).

Definition utc (_ : Z) : Z := 0.

Definition client : Reddit :=
  {| headers := [("User-Agent", "Python script:Trends v0.2 by u/molivo10")] |}.

Definition fresh (s : list response) : world (list response) :=
  {| srv := s; log := [] |}.

(** ** Further endpoint strategies *)

Section Endpoints.

Variable utcoffset : Z -> Z.
Variable S : Type.
Variable serve : S -> request -> response * S.
Variable self : Reddit.

(** [search]: [subreddit] is [None] or a name; the test [if subreddit:]
    takes the scoped branch for a non-empty name only. *)
Definition search (fuel : nat) (query : string) (subreddit : option string)
           (sort top : string) (w : world S) : outcome DataFrame * world S :=
  let params := [("q", PStr query); ("limit", PInt limit);
                 ("restric_sr", PBool false); ("show", PStr "all");
                 ("sort", PStr sort); ("t", PStr top)] in
  match subreddit with
  | Some name =>
      if negb (String.eqb name "") then
        let url := "/r/" ++ name ++ "/search" in
        let params := dict_set (dict_set params "restrict_sr" (PBool true))
                               "type" (PStr "link ") in
        fetch utcoffset S serve self fuel url params w
      else fetch utcoffset S serve self fuel "/search" params w
  | None => fetch utcoffset S serve self fuel "/search" params w
  end.

(** [user_profile] called with its default flags ([get_pics] and
    [get_vids] both false): the listing is fetched and [created_utc]
    is converted in place; the media branches are not entered. *)
Definition user_profile (fuel : nat) (username : string) (w : world S)
  : outcome DataFrame * world S :=
  let url := "/user/" ++ username ++ "/submitted" in
  let params := [("limit", PInt limit); ("context", PInt 2); ("show", PStr "given");
                 ("sort", PStr "new"); ("t", PStr "all"); ("type", PStr "all");
                 ("raw_json", PInt 1); ("after", PNone)] in
  match fetch utcoffset S serve self fuel url params w with
  | (Return df, w) =>
      (of_result (created <- df_getitem df "created_utc" ;;
                  ts <- series_apply (fromtimestamp utcoffset) created ;;
                  Ok (df_setitem df "created_utc" ts)), w)
  | (Raise e, w) => (Raise e, w)
  | (OutOfFuel, w) => (OutOfFuel, w)
  end.

End Endpoints.

(** A server that answers every request with the same response. *)
Definition constant_server (r : response) (_ : unit) (_ : request) : response * unit :=
  (r, tt).

(** A page that always names a next page. *)
Definition endless_page : response := page_response 200 (posts 1) (PStr "t3_next").

(** A page complete but for its rate-limit headers. *)
Definition headerless_page : response :=
  {| status_code := 200; resp_headers := []; body := Some (listing (posts 2) PNone) |}.

(** ** The access token

    A naive date-time is an instant on the calendar line, counted in
    microseconds from 0001-01-01 00:00; a [timedelta] is a difference
    of instants.  A reading of [dt.datetime.now()] is an argument of
    the function that takes it. *)

Definition max_instant : Z := 315537897599999999.

Definition decimal (z : Z) : string := NilZero.string_of_int (Z.to_int z).

(** [timedelta.seconds]: the seconds within the day of a normalized
    difference, between 0 and 86399 whatever its sign. *)
Definition timedelta_seconds (d : Z) : Z := (d mod 86400000000) / 1000000.

(** [int(token_time_left.seconds / 60)] *)
Definition minutes_left (d : Z) : Z := timedelta_seconds d / 60.

Definition two_digits (n : Z) : string :=
  if n <? 10 then "0" ++ decimal n else decimal n.

(** [t.strftime("%H:%M")] *)
Definition strftime_HM (t : Z) : string :=
  two_digits ((t / 3600000000) mod 24) ++ ":" ++ two_digits ((t / 60000000) mod 60).

Record Token : Type := mk_token {
  expired : bool;
  expire_time : option Z
}.

(** [Token(expire_time)], with the line it prints. *)
Definition Token_init (expire : Z) (now : Z) : Token * string :=
  ({| expired := false; expire_time := Some expire |},
   "Token valid for " ++ decimal (minutes_left (expire - now))
   ++ " min and expires at " ++ strftime_HM expire).

(** [token.check_expiration(show)]: the result, the token after the
    call, and what is printed.  The clock is read only when an expiry
    time is set. *)
Definition check_expiration (self : Token) (show : bool) (now : Z)
  : bool * Token * list string :=
  match expire_time self with
  | None => (false, self, [])
  | Some expire =>
      if expire <? now then
        (false, {| expired := true; expire_time := Some expire |},
         if show then ["Token Expired"] else [])
      else
        (true, self,
         if show
         then ["Token valid for " ++ decimal (minutes_left (expire - now)) ++ " min"]
         else [])
  end.

(** Calls of [check_expiration] one after the other, each with its
    [show] flag and its reading of the clock. *)
Fixpoint check_all (self : Token) (calls : list (bool * Z)) : list bool * Token :=
  match calls with
  | [] => ([], self)
  | (show, now) :: calls' =>
      let '(b, self', _) := check_expiration self show now in
      let (bs, self'') := check_all self' calls' in
      (b :: bs, self'')
  end.

(** ** Authorization *)

Record post_request : Type := mk_post {
  post_url : string;
  post_auth : string * string;
  post_data : dict string;
  post_headers : dict string
}.

Inductive auth_exn : Type :=
| RedditException (msg : string)
| PlainException (msg : string)
| AttributeError
| OverflowError
| Builtin (e : exn).

(** [o.get(k)]: a dictionary answers with the value or [None]; other
    values have no such method. *)
Definition py_get (o : pyval) (k : string) : auth_exn + pyval :=
  match o with
  | PDict d => inr (match dict_get d k with Some v => v | None => PNone end)
  | _ => inl AttributeError
  end.

(** Truth value of what [os.environ.get] returns. *)
Definition env_truthy (v : option string) : bool :=
  match v with
  | Some s => negb (String.eqb s "")
  | None => false
  end.

Definition or_empty (v : option string) : string :=
  match v with Some s => s | None => "" end.

Section Authorization.

(** [repr] of a list or a dictionary, which [str] falls back on. *)
Variable py_repr : pyval -> string.

(** [str(v)], as the f-string formats the token. *)
Definition py_str (v : pyval) : string :=
  match v with
  | PNone => "None"
  | PBool true => "True"
  | PBool false => "False"
  | PInt z => decimal z
  | PStr s => s
  | _ => py_repr v
  end.

(** [authorize]: [env] is the process environment, [post] the token
    endpoint, [now1] and [now2] the two readings of the clock (the
    second is taken by [Token]).  Handed back: the exception raised
    if any, the client after the call, the token it holds if one was
    set, and the requests posted.  What is printed is left out. *)
Definition authorize (env : dict string) (post : post_request -> response)
           (now1 now2 : Z) (self : Reddit)
  : option auth_exn * Reddit * option Token * list post_request :=
  let CLIENT_ID := dict_get env "REDDIT_CLIENT_ID" in
  let CLIENT_SECRET := dict_get env "REDDIT_CLIENT_SECRET" in
  let REDDIT_USERNAME := dict_get env "REDDIT_USERNAME" in
  let REDDIT_PASSWORD := dict_get env "REDDIT_PASSWORD" in
  if negb (forallb env_truthy [CLIENT_ID; CLIENT_SECRET; REDDIT_USERNAME; REDDIT_PASSWORD])
  then (Some (RedditException
                ("Could not read environment variables:" ++ "REDDIT_CLIENT "
                 ++ "REDDIT_CLIENT_SECRET " ++ "REDDIT_USERNAME " ++ "REDDIT_PASSWORD ")),
        self, None, [])
  else
    let req := {| post_url := "https://www.reddit.com/api/v1/access_token";
                  post_auth := (or_empty CLIENT_ID, or_empty CLIENT_SECRET);
                  post_data := [("grant_type", "password");
                                ("username", or_empty REDDIT_USERNAME);
                                ("password", or_empty REDDIT_PASSWORD)];
                  post_headers := headers self |} in
    let r := post req in
    if negb (ok r) then (Some (PlainException "Could not get token"), self, None, [req])
    else
      match r_json r with
      | Err e => (Some (Builtin e), self, None, [req])
      | Ok j =>
          match (if truthy j then py_get j "access_token" else inr PNone) with
          | inl e => (Some e, self, None, [req])
          | inr PNone =>
              (Some (RedditException
                       "Could not obtain access token, check that credentials are OK"),
               self, None, [req])
          | inr token =>
              let self' := {| headers := dict_set (headers self) "Authorization"
                                                  ("bearer " ++ py_str token) |} in
              if max_instant <? now1 + 3600000000
              then (Some OverflowError, self', None, [req])
              else (None, self', Some (fst (Token_init (now1 + 3600000000) now2)), [req])
          end
      end.

End Authorization.

(** A token endpoint that grants the token ["abc"]. *)
Definition granting (_ : post_request) : response :=
  {| status_code := 200; resp_headers := [];
     body := Some (PDict [("access_token", PStr "abc"); ("token_type", PStr "bearer");
                          ("expires_in", PInt 3600)]) |}.

Definition full_env : dict string :=
  [("REDDIT_CLIENT_ID", "id"); ("REDDIT_CLIENT_SECRET", "secret");
   ("REDDIT_USERNAME", "user"); ("REDDIT_PASSWORD", "pass")].

Definition no_repr (_ : pyval) : string := "".

(** Noon of 2024-01-01, as an instant. *)
Definition noon : Z := 63839707200000000.

(** The scenarios used below. *)

Definition empty_frame : DataFrame := {| index := []; columns := []; rows := [] |}.

Definition page_of (r : response) : DataFrame * pyval :=
  match read_page utc r with
  | Ok pc => pc
  | Err _ => (empty_frame, PNone)
  end.

Definition table_of (o : outcome DataFrame) : DataFrame :=
  match o with
  | Return df => df
  | _ => empty_frame
  end.

Definition new_params : dict pyval :=
  [("limit", PInt limit); ("show", PStr "all"); ("after", PNone)].

(** Three pages, cursors "c1", "c2", then none. *)
Definition three_pages_head : list response :=
  [page_response 200 (posts 2) (PStr "c1"); page_response 200 (posts 3) (PStr "c2")].
Definition three_pages_last : response := page_response 200 (posts 1) PNone.

(** Two pages of 100 and 40 posts, cursor "x", then none. *)
Definition two_pages_head : list response := [page_response 200 (posts 100) (PStr "x")].
Definition two_pages_last : response := page_response 200 (posts 40) PNone.

(** An empty listing. *)
Definition empty_page : response := page_response 200 [] PNone.

(** A page whose cursor is the empty string, and the page after it. *)
Definition blank_cursor_page : response := page_response 200 (posts 100) (PStr "").

(** A page whose listing has no [after] key. *)
Definition no_cursor_page : response :=
  {| status_code := 200; resp_headers := rate_headers;
     body := Some (PDict [("data",
                           PDict [("children", PList [PDict [("data", post "t3" 1700000000)]])])]) |}.

(** An error answer with a JSON body, and a listing answered with an
    error status. *)
Definition forbidden (status : Z) : response :=
  {| status_code := status; resp_headers := rate_headers;
     body := Some (PDict [("message", PStr "Forbidden"); ("error", PInt 403)]) |}.
Definition listing_500 : response := page_response 500 (posts 1) PNone.

(** A month window that is short, and one that is full, each followed
    by a page for the next window. *)
Definition short_month : list response :=
  [page_response 200 (posts 3) PNone; page_response 200 (posts 1) PNone].
Definition full_month : list response :=
  [page_response 200 (posts 900) PNone; page_response 200 (posts 2) PNone].

(** Four windows, each of them full. *)
Definition full_windows : list response :=
  repeat (page_response 200 (posts 900) PNone) 4.

Definition short_month_fetch : outcome DataFrame * world (list response) :=
  fetch utc (list response) scripted client 5 "/r/test/top" (top_params "month")
        (fresh short_month).

Definition full_month_run : outcome DataFrame * world (list response) :=
  subreddit_top utc (list response) scripted client 5 "test" "top" "month"
                (fresh full_month).

Definition two_posts : list (dict pyval) :=
  [[("id", PStr "a"); ("created_utc", PInt 1700000000)];
   [("id", PStr "b"); ("created_utc", PInt 5); ("preview", PNone)]].


(** Further scenarios. *)

Definition frame_of (j : pyval) : DataFrame :=
  match transform_df utc j with
  | Ok df => df
  | Err _ => empty_frame
  end.

Definition three_pages_run
  : outcome DataFrame * dict pyval * world (list response) :=
  util_get utc (list response) scripted client 5 "/r/test/new" new_params
           (fresh (three_pages_head ++ [three_pages_last])%list).

Definition profile_run : outcome DataFrame * world (list response) :=
  user_profile utc (list response) scripted client 5 "someone"
               (fresh (three_pages_head ++ [three_pages_last])%list).

Definition refused_aggregate : outcome DataFrame * world (list response) :=
  aggregate utc (list response) scripted client 5 "test" (fresh [forbidden 403]).

Definition short_aggregate : outcome DataFrame * world (list response) :=
  aggregate utc (list response) scripted client 5 "test" (fresh short_month).

Definition scoped_search : outcome DataFrame * world (list response) :=
  search utc (list response) scripted client 5 "cats" (Some "pics") "comments" "month"
         (fresh (three_pages_head ++ [three_pages_last])%list).

(** A token endpoint that refuses. *)
Definition refusing (_ : post_request) : response :=
  {| status_code := 401; resp_headers := [];
     body := Some (PDict [("message", PStr "Unauthorized"); ("error", PInt 401)]) |}.

Definition granted_run : option auth_exn * Reddit * option Token * list post_request :=
  authorize no_repr full_env granting noon (noon + 3) client.

Definition refused_run : option auth_exn * Reddit * option Token * list post_request :=
  authorize no_repr full_env refusing noon (noon + 3) client.

Definition authorized_client : Reddit := snd (fst (fst granted_run)).

Definition authorized_fetch
  : outcome DataFrame * dict pyval * world (list response) :=
  util_get utc (list response) scripted authorized_client 5 "/r/test/new" new_params
           (fresh (three_pages_head ++ [three_pages_last])%list).

(** ** Vocabulary of the statements *)

(** The request [util_get] issues when its cursor is [c]. *)
Definition page_request (self : Reddit) (get_url : string) (params : dict pyval)
           (c : pyval) : request :=
  {| req_url := get_url;
     req_headers := headers self;
     req_params := dict_set params "after" c |}.

(** The continuation parameter and the window a request carries. *)
Definition after_sent (req : request) : option pyval :=
  dict_get (req_params req) "after".

Definition window_sent (req : request) : option pyval :=
  dict_get (req_params req) "t".

(** [n] requests for window [top] in a row. *)
Definition block (b : string * nat) : list (option pyval) :=
  repeat (Some (PStr (fst b))) (snd b).

(** A server that answers as [serve] does, with every status code
    replaced by [f] of the response. *)
Definition restatus {S : Type} (f : response -> Z)
           (serve : S -> request -> response * S) (s : S) (req : request)
  : response * S :=
  let (r, s') := serve s req in
  ({| status_code := f r; resp_headers := resp_headers r; body := body r |}, s').

(** Two parameter mappings with the same keys in the same order and
    the same values, but for the value bound to [after]. *)
Fixpoint same_but_after (p1 p2 : dict pyval) : Prop :=
  match p1, p2 with
  | [], [] => True
  | (k1, v1) :: r1, (k2, v2) :: r2 =>
      k1 = k2 /\
      if String.eqb k1 "after" then r1 = r2 else v1 = v2 /\ same_but_after r1 r2
  | _, _ => False
  end.

(** The cursor of a response, as the loop reads it. *)
Definition cursor_of (r : response) : result pyval :=
  j <- r_json r ;; data <- getitem j "data" ;; getitem data "after".

(** The payloads a response carries, and how many. *)
Definition records_of (r : response) : result (list pyval) :=
  j <- r_json r ;; payloads j.

Definition page_count (r : response) : nat :=
  match records_of r with
  | Ok data => List.length data
  | Err _ => O
  end.

(** A response the loop reads as the page [fst pc] with a cursor
    [snd pc] that keeps the loop going. *)
Definition turns (utcoffset : Z -> Z) (r : response) (pc : DataFrame * pyval) : Prop :=
  read_page utcoffset r = Ok pc /\ truthy (snd pc) = true.

(** A row holds, under [timestamp], the conversion of what it holds
    under [created_utc]. *)
Definition stamped (utcoffset : Z -> Z) (row : dict cell) : Prop :=
  exists c t, dict_get row "created_utc" = Some c /\
              dict_get row "timestamp" = Some t /\
              fromtimestamp utcoffset c = Ok t.

(** A frame a response was read as. *)
Definition page_frame (utcoffset : Z -> Z) (df : DataFrame) : Prop :=
  exists r c, read_page utcoffset r = Ok (df, c).

(** The requests issued between two worlds all satisfy [P]. *)
Definition extends (S : Type) (P : request -> Prop) (w w' : world S) : Prop :=
  exists new, log w' = (log w ++ new)%list /\ Forall P new.

(** The test of the window loop on what a fetch gave: a table of at
    least 900 rows sends the loop on to the next window. *)
Definition full_window (o : outcome DataFrame) : bool :=
  match o with
  | Return df => negb (len df <? 900)%nat
  | _ => false
  end.

(** The tables among the outcomes of fetches. *)
Definition tables_of (vs : list (string * outcome DataFrame)) : list DataFrame :=
  flat_map (fun v => match snd v with
                     | Return df => [df]
                     | _ => []
                     end) vs.

(** [visits ... fuel url w vs w']: fetching the windows of [vs] one
    after the other, the first from the world [w] and each of the
    others from the world the fetch before it left, gives the
    outcomes of [vs] and leaves the world [w']. *)
Inductive visits (utcoffset : Z -> Z) (S : Type) (serve : S -> request -> response * S)
          (self : Reddit) (fuel : nat) (url : string)
  : world S -> list (string * outcome DataFrame) -> world S -> Prop :=
| visits_nil (w : world S) : visits utcoffset S serve self fuel url w [] w
| visits_cons (w w1 w2 : world S) (top : string) (o : outcome DataFrame)
              (vs : list (string * outcome DataFrame)) :
    fetch utcoffset S serve self fuel url (top_params top) w = (o, w1) ->
    visits utcoffset S serve self fuel url w1 vs w2 ->
    visits utcoffset S serve self fuel url w ((top, o) :: vs) w2.

(** * Properties *)

(** ** Dictionaries and key lists *)

Lemma dict_get_set_same {V : Type} (d : dict V) (k : string) (v : V) :
  dict_get (dict_set d k v) k = Some v.
Proof.
  induction d as [|[k' v'] d IH]; simpl.
  - now rewrite String.eqb_refl.
  - destruct (String.eqb k' k) eqn:E; simpl; rewrite E; auto.
Qed.

Lemma dict_get_set_other {V : Type} (d : dict V) (k k' : string) (v : V) :
  k' <> k -> dict_get (dict_set d k v) k' = dict_get d k'.
Proof.
  intros Hk. induction d as [|[k0 v0] d IH]; simpl.
  - destruct (String.eqb_spec k k'); congruence.
  - destruct (String.eqb_spec k0 k) as [->|Hne]; simpl.
    + destruct (String.eqb_spec k k'); congruence.
    + now rewrite IH.
Qed.

Lemma dict_set_set {V : Type} (d : dict V) (k : string) (v v' : V) :
  dict_set (dict_set d k v) k v' = dict_set d k v'.
Proof.
  induction d as [|[k0 v0] d IH]; simpl.
  - now rewrite String.eqb_refl.
  - destruct (String.eqb k0 k) eqn:E; simpl; rewrite E; congruence.
Qed.

Lemma dict_set_binds {V : Type} (d : dict V) (k : string) (v : V) :
  In (k, v) (dict_set d k v).
Proof.
  induction d as [|[k0 v0] d IH]; simpl; auto.
  destruct (String.eqb_spec k0 k) as [->|Hne]; simpl; auto.
Qed.

Lemma mem_In (k : string) (l : list string) : mem k l = true <-> In k l.
Proof.
  induction l as [|a l IH]; simpl.
  - split; [discriminate | tauto].
  - destruct (String.eqb_spec a k) as [->|Hne].
    + tauto.
    + rewrite IH. split; [tauto | intros [H|H]; congruence].
Qed.

Lemma mem_add_key (seen : list string) (k x : string) :
  mem x (add_key seen k) = true <-> mem x seen = true \/ x = k.
Proof.
  unfold add_key. destruct (mem k seen) eqn:E.
  - split; [tauto | intros [H| ->]; auto].
  - rewrite !mem_In, in_app_iff. simpl. intuition congruence.
Qed.

Lemma mem_union_keys (ks seen : list string) (x : string) :
  mem x (union_keys seen ks) = true <-> mem x seen = true \/ In x ks.
Proof.
  unfold union_keys. revert seen.
  induction ks as [|k ks IH]; intros seen; simpl.
  - tauto.
  - rewrite IH, mem_add_key. intuition congruence.
Qed.



(** Looking a key up in a row laid out on [cols]. *)
Lemma dict_get_layout (f : string -> cell) (cols : list string) (k : string) :
  dict_get (map (fun c => (c, f c)) cols) k = if mem k cols then Some (f k) else None.
Proof.
  induction cols as [|c cols IH]; simpl; auto.
  destruct (String.eqb_spec c k) as [->|Hne]; auto.
Qed.

(** ** Sequencing *)

Lemma mapM_length {A B : Type} (f : A -> result B) (l : list A) (bs : list B) :
  mapM f l = Ok bs -> List.length bs = List.length l.
Proof.
  revert bs. induction l as [|a l IH]; simpl; intros bs H.
  - now inversion H.
  - destruct (f a); simpl in H; [|discriminate].
    destruct (mapM f l); simpl in H; [|discriminate].
    inversion H; subst; simpl. f_equal. now apply IH.
Qed.

Lemma mapM_nth {A B : Type} (f : A -> result B) (l : list A) (bs : list B) (i : nat) (a : A) :
  mapM f l = Ok bs -> nth_error l i = Some a ->
  exists b, f a = Ok b /\ nth_error bs i = Some b.
Proof.
  revert bs i. induction l as [|a0 l IH]; simpl; intros bs i H Hn.
  - destruct i; discriminate.
  - destruct (f a0) eqn:Ea; simpl in H; [|discriminate].
    destruct (mapM f l) eqn:El; simpl in H; [|discriminate].
    inversion H; subst. destruct i as [|i]; simpl in *.
    + inversion Hn; subst. eauto.
    + eapply IH; eauto.
Qed.


(** When one element is refused, the traversal raises what some
    element raised. *)
Lemma mapM_some_err {A B : Type} (f : A -> result B) (l : list A) (a : A) (e : exn) :
  In a l -> f a = Err e -> exists a' e', In a' l /\ f a' = Err e' /\ mapM f l = Err e'.
Proof.
  induction l as [|a0 l IH]; simpl; intros Hin Hf; [contradiction|].
  destruct (f a0) eqn:Ea; simpl.
  - destruct Hin as [->|Hin]; [congruence|].
    destruct (IH Hin Hf) as (a' & e' & H1 & H2 & H3).
    exists a', e'. rewrite H3. simpl. auto.
  - exists a0, e0. auto.
Qed.

Lemma mapM_as_record (data : list pyval) (recs : list (dict pyval)) :
  mapM as_record data = Ok recs -> data = map PDict recs.
Proof.
  revert recs. induction data as [|v data IH]; simpl; intros recs H.
  - now inversion H.
  - destruct v; simpl in H; try discriminate.
    destruct (mapM as_record data); simpl in H; [|discriminate].
    inversion H; subst. simpl. f_equal. now apply IH.
Qed.

Lemma mapM_as_record_err (data : list pyval) (e : exn) :
  mapM as_record data = Err e -> e = TypeError.
Proof.
  revert e. induction data as [|v data IH]; simpl; intros e H; [discriminate|].
  destruct v; simpl in H; try (now inversion H).
  destruct (mapM as_record data); simpl in H; [discriminate|].
  inversion H; subst. now apply IH.
Qed.


Lemma set_column_length (c : string) (rs : list (dict cell)) (vs : list cell) :
  List.length (set_column c rs vs) = List.length rs.
Proof.
  revert vs. induction rs as [|r rs IH]; intros [|v vs]; simpl; auto.
Qed.

Lemma list_index_None (x : string) (l : list string) :
  ~ In x l -> list_index x l = None.
Proof.
  induction l as [|y l IH]; simpl; intros H; auto.
  destruct (String.eqb_spec y x) as [->|Hne]; [tauto|].
  rewrite IH; tauto.
Qed.

Lemma mapM_as_record_map (recs : list (dict pyval)) :
  mapM as_record (map PDict recs) = Ok recs.
Proof.
  induction recs as [|d recs IH]; simpl; auto. now rewrite IH.
Qed.

Lemma row_of_record_layout (recs : list (dict pyval)) (cols : list string)
      (d : dict pyval) :
  row_of_record recs cols d
  = map (fun c => (c, typed (floats_column recs c) (cell_of CVal d c))) cols.
Proof.
  unfold row_of_record. induction cols as [|c cols IH]; simpl; auto. now rewrite IH.
Qed.

Lemma row_of_record_get (recs : list (dict pyval)) (cols : list string)
      (d : dict pyval) (k : string) :
  mem k cols = true ->
  dict_get (row_of_record recs cols d) k
  = Some (typed (floats_column recs k) (cell_of CVal d k)).
Proof.
  intros Hk. rewrite row_of_record_layout.
  now rewrite (dict_get_layout
                 (fun c => typed (floats_column recs c) (cell_of CVal d c))), Hk.
Qed.

Lemma row_of_record_cell (recs : list (dict pyval)) (cols : list string)
      (d : dict pyval) (k : string) :
  mem k cols = true ->
  cell_of (fun x => x) (row_of_record recs cols d) k
  = typed (floats_column recs k) (cell_of CVal d k).
Proof.
  intros Hk. unfold cell_of at 1. now rewrite row_of_record_get.
Qed.

(** ** Typing a column *)

(** The values that make a column a column of objects or of
    booleans, and are kept as they are whatever their column. *)
Definition kept (v : pyval) : bool :=
  match v with
  | PBool _ | PStr _ | PList _ | PDict _ => true
  | _ => false
  end.

Lemma typed_gap (b : bool) : typed b CNaN = CNaN.
Proof. now destruct b. Qed.


Ltac seen_step H1 H2 H3 H4 H5 :=
  repeat split; simpl;
  first
    [ exact H1
    | exact H2
    | solve [auto]
    | let E := fresh in
      intros E;
      solve [ right; left; reflexivity
            | destruct (H3 E) as [?|?];
              [left; first [assumption | reflexivity | congruence] | right; right; assumption]
            | destruct (H4 E) as [?|?];
              [left; first [assumption | reflexivity | congruence] | right; right; assumption]
            | left; assumption
            | congruence ]
    | let v := fresh "v" in
      let E := fresh in
      let Hk := fresh in
      intros v [E|E] Hk;
      [ solve [ discriminate
              | inversion E; subst; discriminate
              | right; apply H2; reflexivity
              | left; reflexivity ]
      | solve [ eapply H5; eassumption | left; reflexivity ] ] ].

(** What the pass over a column has seen at its end. *)
Lemma scan_seen (col : list cell) :
  forall s s', scan s col = Ok s' ->
    (object_ s = true -> object_ s' = true) /\
    (bool_ s = true -> bool_ s' = true) /\
    (null_ s' = true -> null_ s = true \/ In (CVal PNone) col) /\
    (nan_ s' = true -> nan_ s = true \/ In CNaN col) /\
    (forall v, In (CVal v) col -> kept v = true ->
               object_ s' = true \/ bool_ s' = true).
Proof.
  induction col as [|c col IH]; intros s s' H; simpl in H.
  - inversion H; subst. repeat split; auto; intros v [].
  - destruct c as [[ | b | z | x | l | d] | | t | f].
    + apply IH in H. simpl in H. destruct H as (H1 & H2 & H3 & H4 & H5).
      seen_step H1 H2 H3 H4 H5.
    + apply IH in H. simpl in H. destruct H as (H1 & H2 & H3 & H4 & H5).
      seen_step H1 H2 H3 H4 H5.
    + destruct (float_of_int z) as [f|]; [|discriminate].
      destruct (null_ s) eqn:En; [|destruct (_ || _)].
      * apply IH in H. simpl in H. destruct H as (H1 & H2 & H3 & H4 & H5).
        seen_step H1 H2 H3 H4 H5.
      * inversion H; subst. simpl. seen_step I I I I I.
      * apply IH in H. simpl in H. destruct H as (H1 & H2 & H3 & H4 & H5).
        rewrite En in H3. seen_step H1 H2 H3 H4 H5.
    + inversion H; subst. seen_step I I I I I.
    + inversion H; subst. seen_step I I I I I.
    + inversion H; subst. seen_step I I I I I.
    + apply IH in H. simpl in H. destruct H as (H1 & H2 & H3 & H4 & H5).
      seen_step H1 H2 H3 H4 H5.
    + inversion H; subst. seen_step I I I I I.
    + inversion H; subst. seen_step I I I I I.
Qed.


Lemma scan_err (col : list cell) :
  forall s e, scan s col = Err e -> e = ValueError.
Proof.
  induction col as [|c col IH]; intros s e H; simpl in H; [discriminate|].
  destruct c as [[ | b | z | x | l | d] | | t | f]; try discriminate; eauto.
  destruct (float_of_int z); [|now inversion H].
  destruct (null_ s); eauto. destruct (_ || _); [discriminate | eauto].
Qed.

Lemma as_floats_seen (s : Seen) :
  as_floats s = true ->
  object_ s = false /\ bool_ s = false /\ (null_ s = true \/ nan_ s = true).
Proof.
  unfold as_floats. destruct (object_ s), (bool_ s), (null_ s), (nan_ s); simpl; auto;
    discriminate.
Qed.

(** A column typed as floats has a null or a gap. *)
Lemma floats_column_gap (recs : list (dict pyval)) (k : string) :
  floats_column recs k = true ->
  exists d, In d recs /\ (dict_get d k = None \/ dict_get d k = Some PNone).
Proof.
  unfold floats_column. destruct (scan seen0 (raw_column recs k)) as [s|e] eqn:E;
    [|discriminate].
  intros Hf. apply as_floats_seen in Hf. destruct Hf as (_ & _ & Hf).
  destruct (scan_seen _ _ _ E) as (_ & _ & H3 & H4 & _).
  unfold raw_column in H3, H4.
  destruct Hf as [Hf|Hf].
  - destruct (H3 Hf) as [?|Hin]; [discriminate|].
    apply in_map_iff in Hin. destruct Hin as (d & Hd & Hin). exists d. split; auto.
    unfold cell_of in Hd. destruct (dict_get d k); [|discriminate].
    inversion Hd; auto.
  - destruct (H4 Hf) as [?|Hin]; [discriminate|].
    apply in_map_iff in Hin. destruct Hin as (d & Hd & Hin). exists d. split; auto.
    unfold cell_of in Hd. destruct (dict_get d k); [discriminate|]. auto.
Qed.


Section Properties.

Variable utcoffset : Z -> Z.
Variable S : Type.
Variable serve : S -> request -> response * S.
Variable self : Reddit.

(** ** The record normalizer *)

Lemma local_of_epoch_err (t : Z) (e : exn) :
  local_of_epoch utcoffset t = Err e -> e = ValueError.
Proof.
  unfold local_of_epoch.
  destruct (civil_from_days _) as [[y m] d].
  destruct (_ && _); intros H; now inversion H.
Qed.

Lemma fromtimestamp_err (x : cell) (e : exn) :
  fromtimestamp utcoffset x = Err e -> e = ValueError \/ e = TypeError.
Proof.
  unfold fromtimestamp. intros H.
  destruct x as [[ | b | z | s | l | d] | | t | f];
    try (inversion H; auto; fail).
  - destruct (local_of_epoch utcoffset (if b then 1 else 0)) eqn:E;
      [discriminate|]. inversion H; subst. left. eapply local_of_epoch_err; eauto.
  - destruct (local_of_epoch utcoffset z) eqn:E;
      [discriminate|]. inversion H; subst. left. eapply local_of_epoch_err; eauto.
  - destruct (local_of_epoch utcoffset f) eqn:E;
      [discriminate|]. inversion H; subst. left. eapply local_of_epoch_err; eauto.
Qed.

(** The frame of a list of records. *)
Lemma pd_DataFrame_records (recs : list (dict pyval)) :
  pd_DataFrame (map PDict recs)
  = (_ <- mapM (fun c => scan seen0 (raw_column recs c)) (frame_columns recs) ;;
     Ok {| index := seq 0 (List.length recs);
           columns := frame_columns recs;
           rows := map (row_of_record recs (frame_columns recs)) recs |}).
Proof.
  destruct recs as [|d recs]; [reflexivity|].
  change (map PDict (d :: recs)) with (PDict d :: map PDict recs).
  unfold pd_DataFrame.
  change (PDict d :: map PDict recs) with (map PDict (d :: recs)).
  now rewrite mapM_as_record_map.
Qed.

(** A frame is built from records, or has no named column. *)
Lemma pd_DataFrame_cases (data : list pyval) (df : DataFrame) :
  pd_DataFrame data = Ok df ->
  (exists recs,
     data = map PDict recs /\
     df = {| index := seq 0 (List.length recs);
             columns := frame_columns recs;
             rows := map (row_of_record recs (frame_columns recs)) recs |}) \/
  columns df = [].
Proof.
  intros H.
  assert (Hrec : forall recs, data = map PDict recs ->
                   (exists recs,
                      data = map PDict recs /\
                      df = {| index := seq 0 (List.length recs);
                              columns := frame_columns recs;
                              rows := map (row_of_record recs (frame_columns recs)) recs |}) \/
                   columns df = []).
  { intros recs ->. rewrite pd_DataFrame_records in H.
    destruct (mapM _ (frame_columns recs)); simpl in H; [|discriminate].
    inversion H; subst. left. eauto. }
  destruct data as [|v data'].
  - apply (Hrec []). reflexivity.
  - destruct v.
    6: { unfold pd_DataFrame in H.
         destruct (mapM as_record (PDict d :: data')) as [recs|e] eqn:Erec;
           [|discriminate].
         apply mapM_as_record in Erec. now apply (Hrec recs). }
    5: { unfold pd_DataFrame in H.
         destruct (mapM py_iter (PList l :: data')) as [rs|e]; [|discriminate].
         simpl in H. right. destruct (mapM _ (seq 0 _)); simpl in H; [|discriminate].
         now inversion H. }
    all: right; unfold pd_DataFrame in H;
      destruct (scan seen0 _); simpl in H; [|discriminate]; now inversion H.
Qed.

Lemma pd_DataFrame_err (data : list pyval) (e : exn) :
  pd_DataFrame data = Err e -> e = TypeError \/ e = ValueError.
Proof.
  assert (Hscan : forall (A : Type) (f : A -> list cell) (l : list A) e,
             mapM (fun a => scan seen0 (f a)) l = Err e -> e = ValueError).
  { intros A f l. induction l as [|a l IH]; simpl; intros e0 H; [discriminate|].
    destruct (scan seen0 (f a)) eqn:Ea; simpl in H.
    - destruct (mapM _ l); simpl in H; [discriminate|]. inversion H; subst. now apply IH.
    - inversion H; subst. now apply scan_err in Ea. }
  assert (Hiter : forall l e, mapM py_iter l = Err e -> e = TypeError).
  { induction l as [|v l IH]; simpl; intros e0 H; [discriminate|].
    destruct v; simpl in H; try (now inversion H);
      (destruct (mapM py_iter l); simpl in H; [discriminate|]; inversion H; subst; now apply IH). }
  intros H.
  destruct data as [|v data'].
  - discriminate.
  - destruct v.
    6: { unfold pd_DataFrame in H.
         destruct (mapM as_record (PDict d :: data')) as [recs|e0] eqn:Erec.
         + simpl in H. destruct (mapM _ (frame_columns recs)) eqn:Es; simpl in H;
             [discriminate|].
           inversion H; subst. right. exact (Hscan _ (raw_column recs) _ _ Es).
         + simpl in H. inversion H; subst. left. eapply mapM_as_record_err; eauto. }
    5: { unfold pd_DataFrame in H.
         destruct (mapM py_iter (PList l :: data')) as [rs|e0] eqn:Ei.
         + simpl in H. destruct (mapM _ (seq 0 _)) eqn:Es; simpl in H; [discriminate|].
           inversion H; subst. right.
           exact (Hscan _ (fun j => map (fun r => CVal (nth j r PNone)) rs) _ _ Es).
         + simpl in H. inversion H; subst. left. eapply Hiter; eauto. }
    all: unfold pd_DataFrame in H;
      destruct (scan seen0 _) eqn:Es; simpl in H; [discriminate|];
      inversion H; subst; right; eapply scan_err; eauto.
Qed.

(** What a frame returned by [transform_df] is made of: the children
    are objects, [created_utc] is a column, it is kept as it came
    (a null or a gap in it would have stopped the conversion), and
    every cell of it is converted. *)
Lemma transform_df_inv (j : pyval) (df : DataFrame) :
  transform_df utcoffset j = Ok df ->
  exists recs ts,
    payloads j = Ok (map PDict recs) /\
    mem "created_utc" (frame_columns recs) = true /\
    floats_column recs "created_utc" = false /\
    mapM (fromtimestamp utcoffset) (raw_column recs "created_utc") = Ok ts /\
    df = df_setitem
           {| index := seq 0 (List.length recs);
              columns := frame_columns recs;
              rows := map (row_of_record recs (frame_columns recs)) recs |}
           "timestamp" ts.
Proof.
  unfold transform_df. intros H.
  destruct (payloads j) as [data|e]; simpl in H; [|discriminate].
  destruct (pd_DataFrame data) as [df0|e] eqn:Edf; simpl in H; [|discriminate].
  destruct (pd_DataFrame_cases data df0 Edf) as [(recs & -> & ->)|Hcols].
  - unfold df_getitem in H. cbn [columns rows] in H.
    destruct (mem "created_utc" (frame_columns recs)) eqn:Ecol; simpl in H; [|discriminate].
    unfold series_apply in H. rewrite map_map in H.
    rewrite (map_ext _ (fun d => typed (floats_column recs "created_utc")
                                       (cell_of CVal d "created_utc"))) in H
      by (intros d; now apply row_of_record_cell).
    destruct (floats_column recs "created_utc") eqn:Ef.
    + exfalso. destruct (floats_column_gap _ _ Ef) as (d & Hd & Hgap).
      destruct (mapM_some_err (fromtimestamp utcoffset)
                  (map (fun d => typed true (cell_of CVal d "created_utc")) recs)
                  CNaN ValueError) as (c & e & _ & _ & Hm).
      * apply in_map_iff. exists d. split; auto.
        unfold cell_of. destruct Hgap as [-> | ->]; reflexivity.
      * reflexivity.
      * rewrite Hm in H. discriminate.
    + simpl in H. change (map (fun d => cell_of CVal d "created_utc") recs)
        with (raw_column recs "created_utc") in H.
      destruct (mapM _ _) as [ts|e] eqn:Ets; simpl in H; [|discriminate].
      inversion H; subst. exists recs, ts. auto.
  - unfold df_getitem in H. rewrite Hcols in H. discriminate.
Qed.

(** C5.  When the children of a page are extracted and one of them
    has no [created_utc], [transform_df] raises: [KeyError] when no
    child has the field (the frame has no such column), and
    otherwise what the conversion raises on a cell, the missing one
    being NaN ([ValueError]).  These built-in exceptions are what the
    specification calls MalformedResponseError. *)
Theorem transform_df_missing_epoch
        (r_json : pyval) (data : list pyval) (d : dict pyval) :
  payloads r_json = Ok data ->
  In (PDict d) data ->
  dict_get d "created_utc" = None ->
  exists e, transform_df utcoffset r_json = Err e /\
            (e = KeyError "created_utc" \/ e = ValueError \/ e = TypeError).
Proof.
  intros Hpay Hin Hnone. unfold transform_df. rewrite Hpay. simpl.
  destruct (pd_DataFrame data) as [df0|e] eqn:Edf; simpl.
  - destruct (pd_DataFrame_cases data df0 Edf) as [(recs & -> & ->)|Hcols].
    + apply in_map_iff in Hin. destruct Hin as (d' & Heq & Hin).
      inversion Heq; subst d'. clear Heq.
      unfold df_getitem. cbn [columns rows].
      destruct (mem "created_utc" (frame_columns recs)) eqn:Ecol; simpl.
      * unfold series_apply. rewrite map_map.
        destruct (mapM_some_err (fromtimestamp utcoffset)
                    (map (fun r => cell_of (fun x => x)
                                     (row_of_record recs (frame_columns recs) r)
                                     "created_utc") recs)
                    CNaN ValueError) as (c & e & _ & Hc & Hm).
        -- apply in_map_iff. exists d. split; auto.
           rewrite row_of_record_cell by exact Ecol.
           unfold cell_of. rewrite Hnone. apply typed_gap.
        -- reflexivity.
        -- rewrite Hm. simpl. exists e. split; auto.
           right. now apply fromtimestamp_err with c.
      * eauto.
    + unfold df_getitem. rewrite Hcols. simpl. eauto.
  - exists e. split; auto. right.
    destruct (pd_DataFrame_err data e Edf); auto.
Qed.


(** The conversion itself: an integer epoch is shifted by the zone
    offset in force and read as a civil date and time of day. *)
Lemma fromtimestamp_int (z : Z) :
  fromtimestamp utcoffset (CVal (PInt z)) =
  (t <- local_of_epoch utcoffset z ;; Ok (CTime t)).
Proof. reflexivity. Qed.

(** ** The time-window aggregator: the starting window *)

(** C8.  A starting window that is not one of [top_list] makes
    [subreddit_top] raise at the look-up of its position
    ([list.index] raises [ValueError], the specification's
    InvalidWindowError), before any request is issued. *)
Theorem subreddit_top_invalid_window
        (fuel : nat) (name sort upto : string) (w : world S) :
  ~ In upto top_list ->
  subreddit_top utcoffset S serve self fuel name sort upto w = (Raise ValueError, w).
Proof.
  intros H. unfold subreddit_top. now rewrite (list_index_None _ _ H).
Qed.

End Properties.

Example epoch_1700000000_utc :
  fromtimestamp utc (CVal (PInt 1700000000)) =
  Ok (CTime {| year := 2023; month := 11; day := 14;
               hour := 22; minute := 13; second := 20 |}).
Proof. reflexivity. Qed.

(** ** The paginated fetcher *)

Lemma last_cons_default {A : Type} (l : list A) (a d : A) :
  last (a :: l) d = last l a.
Proof.
  revert a d. induction l as [|b l IH]; intros a d; auto.
  change (last (a :: b :: l) d) with (last (b :: l) d).
  now rewrite (IH b d), (IH b a).
Qed.

Lemma page_request_set (self : Reddit) (url : string) (params : dict pyval) (a c : pyval) :
  page_request self url (dict_set params "after" a) c = page_request self url params c.
Proof. unfold page_request. now rewrite dict_set_set. Qed.

Lemma after_sent_page_request (self : Reddit) (url : string) (params : dict pyval) (c : pyval) :
  after_sent (page_request self url params c) = Some c.
Proof. apply dict_get_set_same. Qed.

Section Fetcher.

Variable utcoffset : Z -> Z.
Variable S : Type.
Variable serve : S -> request -> response * S.
Variable self : Reddit.

Lemma requests_get_log (req : request) (w : world S) :
  log (snd (requests_get S serve req w)) = (log w ++ [req])%list.
Proof. unfold requests_get. now destruct (serve (srv w) req). Qed.

(** A falsy cursor ends the loop on the spot. *)
Lemma util_get_loop_stop (fuel : nat) (url : string) (after : pyval)
      (result : list DataFrame) (params : dict pyval) (w : world S) :
  truthy after = false ->
  util_get_loop utcoffset S serve self fuel url after result params w
  = (Return result, params, w).
Proof. intros H. destruct fuel; simpl; now rewrite H. Qed.

(** The requests of a run of the loop: one per cursor, the first
    cursor being the one the loop is entered with; every cursor
    sent is truthy; the mapping handed back is the caller's with
    [after] bound to the last cursor sent. *)
Lemma util_get_loop_log (fuel : nat) :
  forall (url : string) (after : pyval) (result : list DataFrame)
         (params : dict pyval) (w : world S) o p' w',
    util_get_loop utcoffset S serve self fuel url after result params w = (o, p', w') ->
    exists cs,
      log w' = (log w ++ map (page_request self url params) cs)%list /\
      Forall (fun c => truthy c = true) cs /\
      p' = match cs with
           | [] => params
           | _ => dict_set params "after" (last cs PNone)
           end /\
      (fuel = O \/ truthy after = false -> cs = []) /\
      (fuel <> O -> truthy after = true -> exists cs', cs = after :: cs').
Proof.
  induction fuel as [|n IH]; intros url after result params w o p' w' H.
  - exists []. simpl in H.
    destruct (truthy after) eqn:Et; inversion H; subst; simpl;
      rewrite app_nil_r; repeat split; auto; congruence.
  - simpl in H. destruct (truthy after) eqn:Et.
    + pose proof (requests_get_log (page_request self url params after) w) as Hlog.
      unfold page_request in Hlog.
      destruct (requests_get S serve _ w) as [r w1] eqn:Eg. simpl in Hlog.
      destruct (read_page utcoffset r) as [[df c]|e] eqn:Er.
      * apply IH in H. destruct H as (cs & Hl & Hall & Hp & Hnil & Hcons).
        exists (after :: cs). rewrite Hl, Hlog. simpl.
        rewrite <- app_assoc. simpl.
        rewrite (map_ext _ _ (page_request_set self url params after)).
        repeat split; eauto.
        -- rewrite Hp. destruct cs as [|c0 cs]; auto.
           now rewrite dict_set_set.
        -- intros [?|?]; congruence.
      * inversion H; subst. exists [after]. simpl. rewrite Hlog.
        repeat split; eauto. intros [?|?]; congruence.
    + inversion H; subst. exists []. simpl. rewrite app_nil_r.
      repeat split; auto. congruence.
Qed.

(** [util_get] always enters its loop with the sentinel [True]. *)
Lemma util_get_log (fuel : nat) (url : string) (params : dict pyval) (w : world S) o p' w' :
  util_get utcoffset S serve self fuel url params w = (o, p', w') ->
  exists cs,
    log w' = (log w ++ map (page_request self (url_base ++ url) params) cs)%list /\
    Forall (fun c => truthy c = true) cs /\
    p' = match cs with
         | [] => params
         | _ => dict_set params "after" (last cs PNone)
         end /\
    (fuel <> O -> exists cs', cs = PBool true :: cs').
Proof.
  unfold util_get. intros H.
  destruct (util_get_loop utcoffset S serve self fuel (url_base ++ url) (PBool true) [] params w)
    as [[o1 p1] w1] eqn:El.
  apply util_get_loop_log in El. destruct El as (cs & Hl & Hall & Hp & _ & Hcons).
  exists cs. destruct o1; inversion H; subst; repeat split; auto.
Qed.

(** The status code of a response plays no part in reading it. *)
Lemma read_page_status (z : Z) (r : response) :
  read_page utcoffset
    {| status_code := z; resp_headers := resp_headers r; body := body r |}
  = read_page utcoffset r.
Proof. reflexivity. Qed.

Lemma util_get_loop_restatus (f : response -> Z) (fuel : nat) :
  forall (url : string) (after : pyval) (result : list DataFrame)
         (params : dict pyval) (w : world S),
    util_get_loop utcoffset S (restatus f serve) self fuel url after result params w
    = util_get_loop utcoffset S serve self fuel url after result params w.
Proof.
  induction fuel as [|n IH]; intros url after result params w; simpl; auto.
  destruct (truthy after); auto.
  unfold requests_get, restatus.
  destruct (serve (srv w) _) as [r s']. rewrite read_page_status.
  destruct (read_page utcoffset r) as [[df c]|e]; auto.
Qed.

End Fetcher.

(** ** The paginated fetcher against a scripted server *)

Section Scripted.

Variable utcoffset : Z -> Z.
Variable self : Reddit.

(** A script of pages with truthy cursors, then a response that
    either cannot be read or carries a falsy cursor: the loop
    consumes exactly these, one request each, sending the cursor
    of each page with the request for the next. *)
Lemma util_get_loop_scripted (pre : list response) (pcs : list (DataFrame * pyval)) :
  Forall2 (turns utcoffset) pre pcs ->
  forall (final : response) (rest : list response) (fuel : nat) (url : string)
         (after : pyval) (result : list DataFrame) (params : dict pyval)
         (lg : list request),
    (forall dfl cl, read_page utcoffset final = Ok (dfl, cl) -> truthy cl = false) ->
    truthy after = true ->
    (List.length pre < fuel)%nat ->
    util_get_loop utcoffset (list response) scripted self fuel url after result params {| srv := (pre ++ final :: rest)%list; log := lg |}
    = (match read_page utcoffset final with
       | Ok (dfl, _) => Return (result ++ map fst pcs ++ [dfl])%list
       | Err e => Raise e
       end,
       dict_set params "after" (last (map snd pcs) after),
       {| srv := rest;
          log := (lg ++ map (page_request self url params) (after :: map snd pcs))%list |}).
Proof.
  induction 1 as [|r [df c] pre pcs [Hr Hc] Hrest IH];
    intros final rest fuel url after result params lg Hfinal Hafter Hfuel.
  - destruct fuel as [|n]; [simpl in Hfuel; lia|].
    simpl. rewrite Hafter. unfold requests_get. simpl.
    destruct (read_page utcoffset final) as [[dfl cl]|e] eqn:Ef; auto.
    rewrite util_get_loop_stop by (eapply Hfinal; eauto). reflexivity.
  - destruct fuel as [|n]; [simpl in Hfuel; lia|].
    simpl in Hfuel. simpl in Hc.
    change (util_get_loop utcoffset (list response) scripted self (Datatypes.S n) url after result params
              {| srv := ((r :: pre) ++ final :: rest)%list; log := lg |})
      with (if truthy after then
              match read_page utcoffset r with
              | Ok (df, after') =>
                  util_get_loop utcoffset (list response) scripted self n url after'
                    (result ++ [df])%list (dict_set params "after" after)
                    {| srv := (pre ++ final :: rest)%list;
                       log := (lg ++ [page_request self url params after])%list |}
              | Err e => (Raise e, dict_set params "after" after,
                          {| srv := (pre ++ final :: rest)%list;
                             log := (lg ++ [page_request self url params after])%list |})
              end
            else (Return result, params, {| srv := ((r :: pre) ++ final :: rest)%list; log := lg |})).
    rewrite Hafter, Hr.
    rewrite (IH final rest n url c (result ++ [df])%list _ _ Hfinal Hc) by lia.
    rewrite dict_set_set.
    rewrite (map_ext _ _ (page_request_set self url params after)).
    change (map snd ((df, c) :: pcs)) with (c :: map snd pcs).
    rewrite last_cons_default.
    change (map fst ((df, c) :: pcs)) with (df :: map fst pcs).
    f_equal; [f_equal|].
    + destruct (read_page utcoffset final) as [[dfl cl]|e]; auto.
      now rewrite <- app_assoc.
    + f_equal. now rewrite <- app_assoc.
Qed.

Lemma util_get_scripted (pre : list response) (pcs : list (DataFrame * pyval))
      (final : response) (rest : list response) (fuel : nat) (url : string)
      (params : dict pyval) (lg : list request) :
  Forall2 (turns utcoffset) pre pcs ->
  (forall dfl cl, read_page utcoffset final = Ok (dfl, cl) -> truthy cl = false) ->
  (List.length pre < fuel)%nat ->
  util_get utcoffset (list response) scripted self fuel url params {| srv := (pre ++ final :: rest)%list; log := lg |}
  = (match read_page utcoffset final with
     | Ok (dfl, _) => of_result (pd_concat (map fst pcs ++ [dfl])%list)
     | Err e => Raise e
     end,
     dict_set params "after" (last (map snd pcs) (PBool true)),
     {| srv := rest;
        log := (lg ++ map (page_request self (url_base ++ url) params)
                          (PBool true :: map snd pcs))%list |}).
Proof.
  intros Hpre Hfinal Hfuel. unfold util_get.
  rewrite (util_get_loop_scripted pre pcs Hpre final rest fuel _ (PBool true) [] params lg
             Hfinal eq_refl Hfuel).
  destruct (read_page utcoffset final) as [[dfl cl]|e]; reflexivity.
Qed.

End Scripted.

(** ** Reading a page, concatenating frames *)

Lemma len_flat_map_rows (cols : list string) (frames : list DataFrame) :
  List.length (flat_map (fun df => map (reindex cols) (rows df)) frames)
  = list_sum (map len frames).
Proof.
  induction frames as [|df frames IH]; simpl; auto.
  now rewrite length_app, length_map, IH.
Qed.

(** Concatenating at least one frame succeeds; the rows are those of
    the frames, in the order of the frames, laid out on the united
    columns. *)
Lemma pd_concat_rows (frames : list DataFrame) :
  frames <> [] ->
  exists table,
    pd_concat frames = Ok table /\
    len table = list_sum (map len frames) /\
    rows table = flat_map (fun df => map (reindex (columns table)) (rows df)) frames.
Proof.
  intros Hne. destruct frames as [|df frames]; [congruence|].
  eexists. split; [reflexivity|]. split.
  - unfold len at 1. cbn [rows]. apply len_flat_map_rows.
  - reflexivity.
Qed.

Section Reading.

Variable utcoffset : Z -> Z.

Lemma transform_df_len (j : pyval) (df : DataFrame) :
  transform_df utcoffset j = Ok df ->
  exists data, payloads j = Ok data /\ len df = List.length data.
Proof.
  intros H.
  destruct (transform_df_inv utcoffset j df H) as (recs & ts & Hp & _ & _ & _ & ->).
  exists (map PDict recs). split; [exact Hp|].
  unfold len. simpl. now rewrite set_column_length, !length_map.
Qed.

(** The frame of a page has one row per child of the listing. *)
Lemma read_page_count (r : response) (df : DataFrame) (c : pyval) :
  read_page utcoffset r = Ok (df, c) -> len df = page_count r.
Proof.
  unfold read_page, page_count, records_of. intros H.
  destruct (r_json r) as [j|e]; simpl in H; [|discriminate]. simpl.
  destruct (transform_df utcoffset j) as [df'|e] eqn:Et; simpl in H; [|discriminate].
  destruct (getitem j "data") as [data|e]; simpl in H; [|discriminate].
  destruct (getitem data "after") as [a|e]; simpl in H; [|discriminate].
  destruct (header r _) as [h1|e]; simpl in H; [|discriminate].
  destruct (header r _) as [h2|e]; simpl in H; [|discriminate].
  inversion H; subst.
  destruct (transform_df_len _ _ Et) as (items & Hp & Hl). now rewrite Hp.
Qed.

Lemma read_page_cursor (r : response) (df : DataFrame) (c : pyval) :
  read_page utcoffset r = Ok (df, c) -> cursor_of r = Ok c.
Proof.
  unfold read_page, cursor_of. intros H.
  destruct (r_json r) as [j|e]; simpl in H; [|discriminate]. simpl.
  destruct (transform_df utcoffset j) as [df'|e]; simpl in H; [|discriminate].
  destruct (getitem j "data") as [data|e]; simpl in H; [|discriminate]. simpl.
  destruct (getitem data "after") as [a|e]; simpl in H; [|discriminate].
  destruct (header r _) as [h1|e]; simpl in H; [|discriminate].
  destruct (header r _) as [h2|e]; simpl in H; [|discriminate].
  now inversion H.
Qed.

(** A page that normalizes but whose listing has no [after] key. *)
Lemma read_page_no_cursor (r : response) (j : pyval) (df : DataFrame)
      (d : dict pyval) :
  r_json r = Ok j -> transform_df utcoffset j = Ok df ->
  getitem j "data" = Ok (PDict d) -> dict_get d "after" = None ->
  read_page utcoffset r = Err (KeyError "after").
Proof.
  intros Hj Ht Hd Ha. unfold read_page. rewrite Hj. simpl.
  rewrite Ht. simpl. rewrite Hd. simpl. now rewrite Ha.
Qed.

End Reading.

Lemma Forall2_turns_count (utcoffset : Z -> Z) (pre : list response)
      (pcs : list (DataFrame * pyval)) :
  Forall2 (turns utcoffset) pre pcs ->
  map len (map fst pcs) = map page_count pre /\ List.length pcs = List.length pre.
Proof.
  induction 1 as [|r [df c] pre pcs [Hr _] _ [IH1 IH2]]; simpl; auto.
  rewrite IH1, IH2. now rewrite (read_page_count _ _ _ _ Hr).
Qed.

Lemma encode_params_bool (p : dict pyval) (k : string) (b : bool) :
  In (k, PBool b) p -> In (k, PBool b) (encode_params p).
Proof.
  intros H. unfold encode_params. apply in_flat_map.
  exists (k, PBool b). split; auto. simpl. auto.
Qed.

Lemma same_but_after_set (p1 p2 : dict pyval) (v : pyval) :
  same_but_after p1 p2 -> dict_set p1 "after" v = dict_set p2 "after" v.
Proof.
  revert p2. induction p1 as [|[k1 v1] p1 IH]; intros [|[k2 v2] p2] H;
    simpl in H; try contradiction; auto.
  destruct H as [<- H]. simpl.
  destruct (String.eqb k1 "after").
  - now subst.
  - destruct H as [<- H]. now rewrite (IH p2 H).
Qed.

(** ** The paginated fetcher: cursor, table, first request, parameters *)

Lemma truthy_not_None (c : pyval) : truthy c = true -> c <> PNone.
Proof. intros H ->. discriminate. Qed.

(** C1, as amended.  The script holds pages with truthy cursors and
    then a response [final] that cannot be read or whose cursor is
    falsy ([None], [False], 0, or an empty string, list or object).
    [util_get] issues one request per response up to [final] and none
    after it; the first request carries the sentinel [True] and each
    later one the cursor of the page before; no cursor sent is
    [None].  If [final] is read, the outcome is the table of the
    pages accumulated so far, [final] included; if it is not, the
    outcome is the exception of the read, which is [KeyError] when
    the listing has no [after] key.  Against any server whatever,
    every request issued carries a truthy, hence non-null, cursor. *)
Theorem util_get_cursor
        (utcoffset : Z -> Z) (self : Reddit)
        (pre : list response) (pcs : list (DataFrame * pyval))
        (final : response) (rest : list response)
        (fuel : nat) (url : string) (params : dict pyval) :
  Forall2 (turns utcoffset) pre pcs ->
  (forall dfl cl, read_page utcoffset final = Ok (dfl, cl) -> truthy cl = false) ->
  (List.length pre < fuel)%nat ->
  (exists o p' w',
     util_get utcoffset (list response) scripted self fuel url params
              (fresh (pre ++ final :: rest)%list) = (o, p', w') /\
     srv w' = rest /\
     map after_sent (log w') = map Some (PBool true :: map snd pcs) /\
     Forall (fun c => truthy c = true /\ c <> PNone) (PBool true :: map snd pcs) /\
     (forall dfl cl, read_page utcoffset final = Ok (dfl, cl) ->
        exists table, o = Return table /\
                      pd_concat (map fst pcs ++ [dfl])%list = Ok table) /\
     (forall e, read_page utcoffset final = Err e -> o = Raise e) /\
     (forall j df d, r_json final = Ok j -> transform_df utcoffset j = Ok df ->
        getitem j "data" = Ok (PDict d) -> dict_get d "after" = None ->
        o = Raise (KeyError "after"))) /\
  (forall (S : Type) (serve : S -> request -> response * S) (n : nat) (w : world S)
          o p' w',
     util_get utcoffset S serve self n url params w = (o, p', w') ->
     exists new,
       log w' = (log w ++ new)%list /\
       Forall (fun req => exists c, after_sent req = Some c /\
                                    truthy c = true /\ c <> PNone) new).
Proof.
  intros Hpre Hfinal Hfuel. split.
  - unfold fresh.
    rewrite (util_get_scripted utcoffset self pre pcs final rest fuel url params []
               Hpre Hfinal Hfuel).
    do 3 eexists. split; [reflexivity|]. cbn [srv log app].
    split; [reflexivity|]. split.
    { rewrite map_map. apply map_ext. intros c. apply after_sent_page_request. }
    split.
    { constructor; [split; [reflexivity | discriminate]|].
      clear Hfinal Hfuel. induction Hpre as [|r [df c] pre pcs [_ Hc] _ IH]; simpl.
      - constructor.
      - constructor; auto. split; auto. now apply truthy_not_None. }
    split; [|split].
    + intros dfl cl Hr. rewrite Hr.
      destruct (pd_concat_rows (map fst pcs ++ [dfl])%list) as (table & Ht & _).
      { destruct (map fst pcs); discriminate. }
      exists table. now rewrite Ht.
    + intros e Hr. now rewrite Hr.
    + intros j df d Hj Ht Hd Ha.
      now rewrite (read_page_no_cursor utcoffset final j df d Hj Ht Hd Ha).
  - intros S serve n w o p' w' H.
    apply util_get_log in H. destruct H as (cs & Hl & Hall & _).
    exists (map (page_request self (url_base ++ url) params) cs). split; auto.
    apply Forall_map. eapply Forall_impl; [|exact Hall].
    intros c Hc. exists c. repeat split; auto.
    + apply after_sent_page_request.
    + now apply truthy_not_None.
Qed.

(** C7, as amended.  For a script of pages that are each read (so
    each has at least one child, every child an epoch, and the two
    rate-limit headers), with truthy cursors on all pages but the
    last and a falsy one ([None]) on the last, [util_get] returns a
    table: it has as many rows as the pages have children
    altogether, its rows are the rows of the page frames in fetch
    order, and one request was issued per page. *)
Theorem util_get_table_of_pages
        (utcoffset : Z -> Z) (self : Reddit)
        (pre : list response) (pcs : list (DataFrame * pyval))
        (final : response) (dfl : DataFrame) (cl : pyval) (rest : list response)
        (fuel : nat) (url : string) (params : dict pyval) :
  Forall2 (turns utcoffset) pre pcs ->
  read_page utcoffset final = Ok (dfl, cl) ->
  truthy cl = false ->
  (List.length pre < fuel)%nat ->
  exists table p' w',
    util_get utcoffset (list response) scripted self fuel url params
             (fresh (pre ++ final :: rest)%list) = (Return table, p', w') /\
    len table = list_sum (map page_count (pre ++ [final])%list) /\
    rows table = flat_map (fun df => map (reindex (columns table)) (rows df))
                          (map fst pcs ++ [dfl])%list /\
    List.length (log w') = Datatypes.S (List.length pre) /\
    srv w' = rest.
Proof.
  intros Hpre Hfinal Hcl Hfuel. unfold fresh.
  rewrite (util_get_scripted utcoffset self pre pcs final rest fuel url params [] Hpre)
    by (auto; intros ? ? E; rewrite Hfinal in E; now inversion E; subst).
  rewrite Hfinal.
  destruct (pd_concat_rows (map fst pcs ++ [dfl])%list) as (table & Ht & Hlen & Hrows).
  { destruct (map fst pcs); discriminate. }
  rewrite Ht. exists table. do 2 eexists. split; [reflexivity|].
  destruct (Forall2_turns_count utcoffset pre pcs Hpre) as [Hc Hl].
  repeat split; auto.
  - rewrite Hlen, !map_app, Hc. simpl.
    now rewrite (read_page_count utcoffset final dfl cl Hfinal).
  - cbn [log app]. simpl. now rewrite !length_map, Hl.
Qed.

(** C9.  Given leave for at least one turn of the loop, [util_get]
    issues a first request whatever the server and whatever the
    listing holds, and that request binds [after] to the sentinel
    [True], which the encoding of the query keeps. *)
Theorem util_get_first_request
        (utcoffset : Z -> Z) (S : Type) (serve : S -> request -> response * S)
        (self : Reddit) (fuel : nat) (url : string) (params : dict pyval)
        (w : world S) :
  let first := page_request self (url_base ++ url) params (PBool true) in
  exists rest,
    log (snd (util_get utcoffset S serve self (Datatypes.S fuel) url params w))
    = (log w ++ first :: rest)%list /\
    after_sent first = Some (PBool true) /\
    In ("after", PBool true) (encode_params (req_params first)).
Proof.
  intros first.
  destruct (util_get utcoffset S serve self (Datatypes.S fuel) url params w)
    as [[o p'] w'] eqn:E.
  apply util_get_log in E. destruct E as (cs & Hl & _ & _ & Hcons).
  destruct Hcons as [cs' ->]; [discriminate|].
  exists (map (page_request self (url_base ++ url) params) cs'). split; [exact Hl|].
  split.
  - apply after_sent_page_request.
  - apply encode_params_bool. apply dict_set_binds.
Qed.

(** C10.  [util_get] rebinds [after] in the caller's mapping before
    each request and touches no other key.  Two calls that differ
    only in the value [after] is bound to beforehand therefore have
    the same outcome, leave the same mapping behind and the same
    world, log of requests included. *)
Theorem util_get_overwrites_after
        (utcoffset : Z -> Z) (S : Type) (serve : S -> request -> response * S)
        (self : Reddit) (fuel : nat) (url : string) (p1 p2 : dict pyval)
        (w : world S) o p' w' :
  same_but_after p1 p2 ->
  util_get utcoffset S serve self (Datatypes.S fuel) url p1 w = (o, p', w') ->
  util_get utcoffset S serve self (Datatypes.S fuel) url p2 w = (o, p', w') /\
  (exists c cs,
     log w' = (log w ++ map (page_request self (url_base ++ url) p1) (c :: cs))%list /\
     p' = dict_set p1 "after" (last cs c)) /\
  (forall k, k <> "after" -> dict_get p' k = dict_get p1 k).
Proof.
  intros Hsame H. split; [|split].
  - rewrite <- H. unfold util_get.
    cbn [util_get_loop truthy].
    now rewrite (same_but_after_set p1 p2 (PBool true) Hsame).
  - apply util_get_log in H. destruct H as (cs & Hl & _ & Hp & Hcons).
    destruct Hcons as [cs' ->]; [discriminate|].
    exists (PBool true), cs'. split; auto.
    now rewrite Hp, last_cons_default.
  - intros k Hk. apply util_get_log in H. destruct H as (cs & _ & _ & Hp & Hcons).
    destruct Hcons as [cs' ->]; [discriminate|].
    rewrite Hp. now apply dict_get_set_other.
Qed.

(** ** The time-window aggregator *)

Lemma window_sent_page_request (self : Reddit) (url top : string) (c : pyval) :
  window_sent (page_request self url (top_params top) c) = Some (PStr top).
Proof. reflexivity. Qed.

Lemma in_flat_map_block (blocks : list (string * nat)) (x : option pyval) :
  In x (flat_map block blocks) ->
  exists top, In top (map fst blocks) /\ x = Some (PStr top).
Proof.
  intros H. apply in_flat_map in H. destruct H as ([top n] & Hb & Hx).
  unfold block in Hx. simpl in Hx. apply repeat_spec in Hx.
  exists top. split; auto. apply in_map_iff. now exists (top, n).
Qed.

Lemma list_index_top_list (upto : string) (slicer : nat) :
  list_index upto top_list = Some slicer ->
  (upto = "all" /\ slicer = 0%nat) \/ (upto = "year" /\ slicer = 1%nat) \/
  (upto = "month" /\ slicer = 2%nat) \/ (upto = "week" /\ slicer = 3%nat) \/
  (upto = "day" /\ slicer = 4%nat) \/ (upto = "hour" /\ slicer = 5%nat).
Proof.
  unfold top_list. cbn [list_index].
  repeat match goal with
         | |- context [String.eqb ?a upto] =>
             destruct (String.eqb_spec a upto) as [<-|?]
         end;
    intros H; inversion H; intuition auto.
Qed.

Section Aggregator.

Variable utcoffset : Z -> Z.
Variable S : Type.
Variable serve : S -> request -> response * S.
Variable self : Reddit.

Lemma fetch_log (fuel : nat) (url : string) (params : dict pyval) (w : world S) o w' :
  fetch utcoffset S serve self fuel url params w = (o, w') ->
  exists cs,
    log w' = (log w ++ map (page_request self (url_base ++ url) params) cs)%list /\
    (fuel <> O -> cs <> []).
Proof.
  unfold fetch. intros H.
  destruct (util_get utcoffset S serve self fuel url params w) as [[o1 p1] w1] eqn:E.
  inversion H; subst. apply util_get_log in E.
  destruct E as (cs & Hl & _ & _ & Hcons). exists cs. split; auto.
  intros Hf. destruct (Hcons Hf) as [cs' ->]. discriminate.
Qed.

Lemma fetch_windows (fuel : nat) (url top : string) (w : world S) o w' :
  fetch utcoffset S serve self fuel url (top_params top) w = (o, w') ->
  exists new n,
    log w' = (log w ++ new)%list /\ map window_sent new = block (top, n) /\
    (fuel <> O -> (1 <= n)%nat).
Proof.
  intros H. apply fetch_log in H. destruct H as (cs & Hl & Hne).
  exists (map (page_request self (url_base ++ url) (top_params top)) cs), (List.length cs).
  split; auto. split.
  - rewrite map_map. unfold block. simpl. clear Hl Hne.
    induction cs as [|c cs IH]; simpl; auto.
    now rewrite window_sent_page_request, IH.
  - intros Hf. specialize (Hne Hf). destruct cs; [congruence | simpl; lia].
Qed.

(** With an iteration to spend, a fetch opens with the sentinel. *)
Lemma fetch_first (fuel : nat) (url : string) (params : dict pyval) (w : world S) o w' :
  fetch utcoffset S serve self fuel url params w = (o, w') ->
  fuel <> O ->
  exists more,
    log w' = (log w ++ page_request self (url_base ++ url) params (PBool true) :: more)%list.
Proof.
  unfold fetch. intros H Hf.
  destruct (util_get utcoffset S serve self fuel url params w) as [[o1 p1] w1] eqn:E.
  inversion H; subst. apply util_get_log in E.
  destruct E as (cs & Hl & _ & _ & Hcons). destruct (Hcons Hf) as [cs' ->].
  simpl in Hl. eauto.
Qed.

(** A run of the window loop as a chain of visits: the windows
    visited are a prefix of the windows handed to the loop; each
    visit but the last gave a full table; on any window but the
    last of those handed over the loop stops only on an outcome
    that is not a full table; the loop gives the failure of its last
    visit, or the tables of all its visits. *)
Lemma top_loop_visits (tops : list string) :
  forall (top : string) (fuel : nat) (url : string) (acc : list DataFrame) (w : world S) o w',
    top_loop utcoffset S serve self fuel url (top :: tops) acc w = (o, w') ->
    exists (init : list (string * outcome DataFrame)) (lastv : string * outcome DataFrame)
           (rest : list string),
      top :: tops = (map fst init ++ fst lastv :: rest)%list /\
      visits utcoffset S serve self fuel url w (init ++ [lastv])%list w' /\
      Forall (fun v => full_window (snd v) = true) init /\
      (rest <> [] -> full_window (snd lastv) = false) /\
      o = match snd lastv with
          | Return df => Return (acc ++ tables_of init ++ [df])%list
          | Raise e => Raise e
          | OutOfFuel => OutOfFuel
          end.
Proof.
  induction tops as [|top2 tops IH]; intros top fuel url acc w o w' H;
    cbn [top_loop] in H;
    destruct (fetch utcoffset S serve self fuel url (top_params top) w) as [o1 w1] eqn:Ef.
  - destruct o1 as [df|e|].
    + exists [], (top, Return df), []. simpl.
      assert (Ho : (o, w') = (Return (acc ++ [df])%list, w1))
        by (destruct (len df <? 900)%nat; now inversion H).
      inversion Ho; subst. repeat split; auto.
      * econstructor; [exact Ef | constructor].
      * congruence.
    + inversion H; subst. exists [], (top, Raise e), []. simpl. repeat split; auto.
      econstructor; [exact Ef | constructor].
    + inversion H; subst. exists [], (top, OutOfFuel), []. simpl. repeat split; auto.
      econstructor; [exact Ef | constructor].
  - destruct o1 as [df|e|].
    + destruct (len df <? 900)%nat eqn:Elen.
      * inversion H; subst. exists [], (top, Return df), (top2 :: tops). simpl.
        repeat split; auto.
        -- econstructor; [exact Ef | constructor].
        -- intros _. now rewrite Elen.
      * apply IH in H. destruct H as (init & lastv & rest & Ht & Hv & Hfull & Hstop & Ho).
        exists ((top, Return df) :: init), lastv, rest. simpl.
        split; [now rewrite Ht|]. split; [econstructor; [exact Ef | exact Hv]|].
        split; [constructor; [simpl; now rewrite Elen | exact Hfull]|].
        split; [exact Hstop|].
        rewrite Ho. destruct (snd lastv); auto. now rewrite <- app_assoc.
    + inversion H; subst. exists [], (top, Raise e), (top2 :: tops). simpl.
      repeat split; auto. econstructor; [exact Ef | constructor].
    + inversion H; subst. exists [], (top, OutOfFuel), (top2 :: tops). simpl.
      repeat split; auto. econstructor; [exact Ef | constructor].
Qed.

(** The requests of a chain of visits: a block for each visit. *)
Lemma visits_requests (fuel : nat) (url : string) (w w' : world S)
      (vs : list (string * outcome DataFrame)) :
  visits utcoffset S serve self fuel url w vs w' ->
  exists (blocks : list (string * nat)) (new : list request),
    map fst blocks = map fst vs /\
    log w' = (log w ++ new)%list /\
    map window_sent new = flat_map block blocks /\
    (fuel <> O -> Forall (fun b => (1 <= snd b)%nat) blocks).
Proof.
  induction 1 as [w|w w1 w2 top o vs Hf _ (blocks & new & Hb & Hl & Hw & Hn)].
  - exists [], []. simpl. rewrite app_nil_r. repeat split; auto.
  - destruct (fetch_windows _ _ _ _ _ _ Hf) as (new1 & n & Hl1 & Hw1 & Hn1).
    exists ((top, n) :: blocks), (new1 ++ new)%list. simpl.
    rewrite Hb, Hl, Hl1, map_app, Hw1, Hw, <- app_assoc.
    repeat split; auto.
Qed.

(** Status codes play no part anywhere in the aggregation. *)
Lemma util_get_restatus (f : response -> Z) (fuel : nat) (url : string)
      (params : dict pyval) (w : world S) :
  util_get utcoffset S (restatus f serve) self fuel url params w
  = util_get utcoffset S serve self fuel url params w.
Proof. unfold util_get. now rewrite util_get_loop_restatus. Qed.

Lemma fetch_restatus (f : response -> Z) (fuel : nat) (url : string)
      (params : dict pyval) (w : world S) :
  fetch utcoffset S (restatus f serve) self fuel url params w
  = fetch utcoffset S serve self fuel url params w.
Proof. unfold fetch. now rewrite util_get_restatus. Qed.

Lemma top_loop_restatus (f : response -> Z) (fuel : nat) (url : string)
      (tops : list string) :
  forall (acc : list DataFrame) (w : world S),
    top_loop utcoffset S (restatus f serve) self fuel url tops acc w
    = top_loop utcoffset S serve self fuel url tops acc w.
Proof.
  induction tops as [|top tops IH]; intros acc w; simpl; auto.
  rewrite fetch_restatus.
  destruct (fetch utcoffset S serve self fuel url (top_params top) w) as [[df|e|] w1]; auto.
  destruct (len df <? 900)%nat; auto.
Qed.

Lemma subreddit_top_restatus (f : response -> Z) (fuel : nat)
      (name sort upto : string) (w : world S) :
  subreddit_top utcoffset S (restatus f serve) self fuel name sort upto w
  = subreddit_top utcoffset S serve self fuel name sort upto w.
Proof.
  unfold subreddit_top. destruct (list_index upto top_list); auto.
  now rewrite top_loop_restatus.
Qed.

Lemma subreddit_restatus (f : response -> Z) (fuel : nat) (name sort : string)
      (w : world S) :
  subreddit utcoffset S (restatus f serve) self fuel name sort w
  = subreddit utcoffset S serve self fuel name sort w.
Proof. unfold subreddit. now rewrite fetch_restatus. Qed.

Lemma collect_ext {A : Type} (f g : A -> world S -> outcome DataFrame * world S)
      (l : list A) :
  (forall a w, f a w = g a w) -> forall w, collect S f l w = collect S g l w.
Proof.
  intros Hfg. induction l as [|a l IH]; intros w; simpl; auto.
  rewrite Hfg. destruct (g a w) as [[df|e|] w1]; auto. now rewrite IH.
Qed.

Lemma aggregate_restatus (f : response -> Z) (fuel : nat) (name : string) (w : world S) :
  aggregate utcoffset S (restatus f serve) self fuel name w
  = aggregate utcoffset S serve self fuel name w.
Proof.
  unfold aggregate.
  rewrite (collect_ext _ _ _ (fun sort w => subreddit_restatus f fuel name sort w)).
  destruct (collect S _ ["rising"; "new"; "hot"] w) as [[l1|e|] w1]; auto.
  now rewrite (collect_ext _ _ _ (fun sort w => subreddit_top_restatus f fuel name sort "month" w)).
Qed.

End Aggregator.

(** C3.  Wherever the window loop stands, if the fetch for the window
    at hand returns a table of fewer than 900 rows, the loop returns
    at once: the world it leaves is the one that fetch left, the
    requests since the loop stood there are all for that window, and
    the rows of that table close the concatenated result.  Started
    at that window, [subreddit_top] returns that table and nothing
    else. *)
Theorem subreddit_top_early_stop
        (utcoffset : Z -> Z) (S : Type) (serve : S -> request -> response * S)
        (self : Reddit) (fuel : nat) (url top : string) (finer : list string)
        (acc : list DataFrame) (w w1 : world S) (df : DataFrame) :
  fetch utcoffset S serve self fuel url (top_params top) w = (Return df, w1) ->
  (len df < 900)%nat ->
  top_loop utcoffset S serve self fuel url (top :: finer) acc w
  = (Return (acc ++ [df])%list, w1) /\
  (exists new, log w1 = (log w ++ new)%list /\
               Forall (fun req => window_sent req = Some (PStr top)) new) /\
  (exists table before,
     pd_concat (acc ++ [df])%list = Ok table /\
     rows table = (before ++ map (reindex (columns table)) (rows df))%list) /\
  (forall name sort slicer,
     url = "/r/" ++ name ++ "/" ++ sort ->
     list_index top top_list = Some slicer ->
     skipn slicer top_list = top :: finer ->
     exists table,
       subreddit_top utcoffset S serve self fuel name sort top w = (Return table, w1) /\
       rows table = map (reindex (columns table)) (rows df)).
Proof.
  intros Hf Hlen.
  assert (Hloop : forall acc', top_loop utcoffset S serve self fuel url (top :: finer) acc' w
                               = (Return (acc' ++ [df])%list, w1)).
  { intros acc'. simpl. rewrite Hf.
    apply Nat.ltb_lt in Hlen. now rewrite Hlen. }
  split; [apply Hloop|]. split; [|split].
  - apply fetch_log in Hf. destruct Hf as (cs & Hl & _).
    eexists. split; [exact Hl|].
    apply Forall_map. apply Forall_forall. intros c _.
    apply window_sent_page_request.
  - destruct (pd_concat_rows (acc ++ [df])%list) as (table & Ht & _ & Hrows).
    { destruct acc; discriminate. }
    exists table, (flat_map (fun d => map (reindex (columns table)) (rows d)) acc).
    split; auto. rewrite Hrows, flat_map_app. simpl. now rewrite app_nil_r.
  - intros name sort slicer -> Hi Hs.
    unfold subreddit_top. rewrite Hi, Hs, (Hloop []). simpl.
    eexists. split; [reflexivity|]. simpl. now rewrite app_nil_r.
Qed.

(** C4.  The windows [subreddit_top] goes through are [top_list] from
    the position of the starting window on, ["hour"] being the last;
    from ["month"] these are month, week, day, hour.  Every run
    visits a prefix of these windows, the starting window first:
    each visit is a fetch for its window, begun in the world the
    visit before it left, and the run ends in the world the last
    visit left.  Every visit but the last returned a table of at
    least 900 rows; the run stops short of ["hour"] only on a visit
    that did not, and a run whose visits all did went through every
    window, ["hour"] included.  What the run gives is the failure
    of its last visit, or the tables of its visits concatenated.
    The requests issued are those of the visits, window after window
    in that order and at least one request each, the first of all
    for the starting window with the sentinel cursor; so none is for
    a window coarser than the starting one. *)
Theorem subreddit_top_windows
        (utcoffset : Z -> Z) (S : Type) (serve : S -> request -> response * S)
        (self : Reddit) (fuel : nat) (name sort upto : string) (slicer : nat)
        (w : world S) o w' :
  list_index upto top_list = Some slicer ->
  subreddit_top utcoffset S serve self fuel name sort upto w = (o, w') ->
  (exists finer, skipn slicer top_list = upto :: finer /\
                 last (upto :: finer) upto = "hour") /\
  (upto = "month" -> skipn slicer top_list = ["month"; "week"; "day"; "hour"]) /\
  exists (init : list (string * outcome DataFrame)) (lastv : string * outcome DataFrame)
         (blocks : list (string * nat)) (rest : list string) (new : list request),
    skipn slicer top_list = (map fst blocks ++ rest)%list /\
    log w' = (log w ++ new)%list /\
    map window_sent new = flat_map block blocks /\
    (fuel <> O -> Forall (fun b => (1 <= snd b)%nat) blocks) /\
    (upto = "month" ->
     Forall (fun req => window_sent req <> Some (PStr "all") /\
                        window_sent req <> Some (PStr "year")) new) /\
    (forall table, o = Return table ->
       rest = [] \/
       exists df before,
         snd lastv = Return df /\
         (len df < 900)%nat /\
         rows table = (before ++ map (reindex (columns table)) (rows df))%list) /\
    map fst blocks = map fst (init ++ [lastv])%list /\
    (exists v more, (init ++ [lastv])%list = (upto, v) :: more) /\
    visits utcoffset S serve self fuel ("/r/" ++ name ++ "/" ++ sort) w
           (init ++ [lastv])%list w' /\
    Forall (fun v => full_window (snd v) = true) init /\
    (rest <> [] -> full_window (snd lastv) = false) /\
    (full_window (snd lastv) = true ->
     fst lastv = "hour" /\ map fst (init ++ [lastv])%list = skipn slicer top_list) /\
    o = match snd lastv with
        | Return df =>
            of_result (t <- pd_concat (tables_of init ++ [df])%list ;; Ok (reset_index t))
        | Raise e => Raise e
        | OutOfFuel => OutOfFuel
        end /\
    (fuel <> O ->
     exists more,
       new = page_request self (url_base ++ "/r/" ++ name ++ "/" ++ sort)
                          (top_params upto) (PBool true) :: more).
Proof.
  intros Hi H.
  assert (Hsched : exists finer, skipn slicer top_list = upto :: finer /\
                                 last (upto :: finer) upto = "hour").
  { destruct (list_index_top_list _ _ Hi)
      as [[-> ->]|[[-> ->]|[[-> ->]|[[-> ->]|[[-> ->]|[-> ->]]]]]];
      eexists; split; reflexivity. }
  split; [exact Hsched|]. split.
  { intros ->. inversion Hi; subst. reflexivity. }
  destruct Hsched as (finer & Hs & Hlast).
  unfold subreddit_top in H. rewrite Hi, Hs in H.
  destruct (top_loop utcoffset S serve self fuel _ (upto :: finer) [] w)
    as [o1 w1] eqn:El.
  assert (Hw' : w' = w1) by (destruct o1; now inversion H). subst w1.
  destruct (top_loop_visits utcoffset S serve self _ _ _ _ _ _ _ _ El)
    as (init & lastv & rest & Ht & Hv & Hfull & Hstop & Ho).
  destruct (visits_requests utcoffset S serve self _ _ _ _ _ Hv)
    as (blocks & new & Hb & Hl & Hw & Hn).
  assert (Hpre : skipn slicer top_list = (map fst blocks ++ rest)%list).
  { rewrite Hs, Ht, Hb, map_app. simpl. now rewrite <- app_assoc. }
  assert (Hfirst : exists v more, (init ++ [lastv])%list = (upto, v) :: more).
  { destruct init as [|[t0 v0] init']; simpl in Ht |- *.
    - destruct lastv as [t0 v0]. simpl in Ht. inversion Ht; subst. eauto.
    - inversion Ht; subst. eauto. }
  assert (Hout : o = match snd lastv with
                     | Return df =>
                         of_result (t <- pd_concat (tables_of init ++ [df])%list ;;
                                    Ok (reset_index t))
                     | Raise e => Raise e
                     | OutOfFuel => OutOfFuel
                     end).
  { subst o1. destruct (snd lastv); inversion H; reflexivity. }
  exists init, lastv, blocks, rest, new.
  split; [exact Hpre|]. split; [exact Hl|]. split; [exact Hw|]. split; [exact Hn|].
  split; [|split; [|split; [exact Hb|split; [exact Hfirst|split; [exact Hv|
    split; [exact Hfull|split; [exact Hstop|split; [|split; [exact Hout|]]]]]]]]].
  - intros ->. inversion Hi; subst slicer.
    apply Forall_forall. intros req Hreq.
    assert (Hin : In (window_sent req) (flat_map block blocks)).
    { rewrite <- Hw. now apply in_map. }
    apply in_flat_map_block in Hin. destruct Hin as (top & Htop & ->).
    assert (Hin : In top ["month"; "week"; "day"; "hour"]).
    { change ["month"; "week"; "day"; "hour"] with (skipn 2 top_list).
      rewrite Hpre. apply in_or_app. now left. }
    simpl in Hin. split; intros E; inversion E; subst; intuition discriminate.
  - intros table E. destruct rest as [|r rest']; [now left|]. right.
    assert (Hshort : full_window (snd lastv) = false) by (apply Hstop; discriminate).
    rewrite Hout in E. destruct (snd lastv) as [df|e|] eqn:Elast; try discriminate.
    destruct (pd_concat_rows (tables_of init ++ [df])%list) as (t0 & Ht0 & _ & Hrows).
    { destruct (tables_of init); discriminate. }
    rewrite Ht0 in E. simpl in E. inversion E; subst table.
    exists df, (flat_map (fun d => map (reindex (columns t0)) (rows d)) (tables_of init)).
    split; [reflexivity|]. split.
    + simpl in Hshort. apply Nat.ltb_lt.
      destruct (len df <? 900)%nat; [reflexivity | discriminate].
    + simpl. rewrite Hrows, flat_map_app. simpl. now rewrite app_nil_r.
  - intros Hf.
    assert (Hrest : rest = []).
    { destruct rest; auto. rewrite Hstop in Hf; discriminate. }
    subst rest. split.
    + rewrite Ht in Hlast.
      replace (map fst init ++ [fst lastv])%list with (map fst init ++ [fst lastv])%list
        in Hlast by reflexivity.
      rewrite last_last in Hlast. exact Hlast.
    + rewrite Hs, Ht, map_app. reflexivity.
  - intros Hfuel. destruct Hfirst as (v & more & Hvs). rewrite Hvs in Hv.
    inversion Hv; subst.
    match goal with
    | Hf : fetch _ _ _ _ _ _ _ w = _, Hrest : visits _ _ _ _ _ _ _ more w' |- _ =>
        destruct (fetch_first utcoffset S serve self _ _ _ _ _ _ Hf Hfuel) as (m1 & Hl1);
        destruct (visits_requests utcoffset S serve self _ _ _ _ _ Hrest)
          as (_ & new2 & _ & Hl2 & _)
    end.
    exists (m1 ++ new2)%list.
    rewrite Hl2, Hl1, <- app_assoc in Hl. simpl in Hl.
    now apply app_inv_head in Hl.
Qed.

(** ** The statements at work *)

Lemma three_pages_turn : Forall2 (turns utc) three_pages_head (map page_of three_pages_head).
Proof. repeat constructor. Qed.

Lemma two_pages_turn : Forall2 (turns utc) two_pages_head (map page_of two_pages_head).
Proof. repeat constructor; vm_compute; reflexivity. Qed.

(** Witness of C1: the three-page script. *)
Lemma util_get_cursor_witness :
  exists o p' w',
    util_get utc (list response) scripted client 5 "/r/test/new" new_params
             (fresh (three_pages_head ++ three_pages_last :: [])%list) = (o, p', w') /\
    srv w' = [] /\
    map after_sent (log w') = [Some (PBool true); Some (PStr "c1"); Some (PStr "c2")] /\
    o = Return (table_of o).
Proof.
  destruct (util_get_cursor utc client three_pages_head (map page_of three_pages_head)
              three_pages_last [] 5 "/r/test/new" new_params) as [H _].
  - exact three_pages_turn.
  - intros dfl cl E. vm_compute in E. inversion E. reflexivity.
  - simpl. lia.
  - destruct H as (o & p' & w' & Hrun & Hsrv & Hsent & _ & Hret & _).
    exists o, p', w'. repeat split; auto.
    destruct (Hret (fst (page_of three_pages_last)) (snd (page_of three_pages_last)))
      as (table & -> & _); reflexivity.
Defined.

(** C1 as first stated fails in two ways.  An empty string is a cursor
    other than [None]; the loop ends on it, leaving the next page
    unrequested.  And a listing with no [after] key does not end the
    loop with a table but with [KeyError]. *)
Lemma util_get_cursor_counterexample :
  (cursor_of blank_cursor_page = Ok (PStr "") /\
   PStr "" <> PNone /\
   exists table p',
     util_get utc (list response) scripted client 5 "/r/test/new" new_params
              (fresh [blank_cursor_page; two_pages_last])
     = (Return table, p',
        {| srv := [two_pages_last];
           log := [page_request client (url_base ++ "/r/test/new") new_params (PBool true)] |}))
  /\
  (cursor_of no_cursor_page = Err (KeyError "after") /\
   fst (fst (util_get utc (list response) scripted client 5 "/r/test/new" new_params
                      (fresh [no_cursor_page])))
   = Raise (KeyError "after")).
Proof.
  split; [split; [reflexivity | split; [discriminate|]] | split].
  - do 2 eexists. vm_compute. reflexivity.
  - reflexivity.
  - vm_compute. reflexivity.
Qed.

(** Witness of C3: a month window of three posts. *)
Lemma subreddit_top_early_stop_witness :
  (len (table_of (fst short_month_fetch)) < 900)%nat /\
  top_loop utc (list response) scripted client 5 "/r/test/top"
           ("month" :: ["week"; "day"; "hour"]) [] (fresh short_month)
  = (Return ([] ++ [table_of (fst short_month_fetch)])%list, snd short_month_fetch).
Proof.
  split.
  - vm_compute. lia.
  - apply (subreddit_top_early_stop utc (list response) scripted client 5 "/r/test/top"
             "month" ["week"; "day"; "hour"] [] (fresh short_month)
             (snd short_month_fetch) (table_of (fst short_month_fetch))).
    + vm_compute. reflexivity.
    + vm_compute. lia.
Defined.

(** The specification's example: a short month leaves week, day and
    hour unfetched. *)
Example short_month_stops :
  let '(o, w') := subreddit_top utc (list response) scripted client 5 "test" "top" "month"
                                (fresh short_month) in
  len (table_of o) = 3%nat /\
  map window_sent (log w') = [Some (PStr "month")] /\
  List.length (srv w') = 1%nat.
Proof. vm_compute. repeat split. Qed.

(** Witness of C4: a full month, then a short week. *)
Lemma subreddit_top_windows_witness :
  exists (init : list (string * outcome DataFrame)) (lastv : string * outcome DataFrame)
         (rest : list string),
    skipn 2 top_list = (map fst (init ++ [lastv]) ++ rest)%list /\
    visits utc (list response) scripted client 5 "/r/test/top" (fresh full_month)
           (init ++ [lastv])%list (snd full_month_run) /\
    Forall (fun v => full_window (snd v) = true) init /\
    (rest <> [] -> full_window (snd lastv) = false).
Proof.
  destruct (subreddit_top_windows utc (list response) scripted client 5 "test" "top" "month"
              2%nat (fresh full_month) (fst full_month_run) (snd full_month_run))
    as (_ & _ & init & lastv & blocks & rest & new & H1 & _ & _ & _ & _ & _ & Hb & _
        & Hv & Hfull & Hstop & _).
  - reflexivity.
  - vm_compute. reflexivity.
  - exists init, lastv, rest. rewrite <- Hb. auto.
Defined.

(** Four full windows. *)
Example month_to_hour :
  let '(o, w') := subreddit_top utc (list response) scripted client 5 "test" "top" "month"
                                (fresh full_windows) in
  map window_sent (log w')
  = [Some (PStr "month"); Some (PStr "week"); Some (PStr "day"); Some (PStr "hour")] /\
  map after_sent (log w')
  = [Some (PBool true); Some (PBool true); Some (PBool true); Some (PBool true)] /\
  len (table_of o) = 3600%nat /\
  srv w' = [].
Proof. vm_compute. repeat split. Qed.

Example full_month_goes_on :
  map window_sent (log (snd full_month_run)) = [Some (PStr "month"); Some (PStr "week")] /\
  len (table_of (fst full_month_run)) = 902%nat.
Proof. vm_compute. split; reflexivity. Qed.

(** Witness of C5: the second child has no epoch. *)
Lemma transform_df_missing_epoch_witness :
  exists e,
    transform_df utc (listing [post "a" 1700000000; PDict [("id", PStr "b")]] PNone) = Err e /\
    (e = KeyError "created_utc" \/ e = ValueError \/ e = TypeError).
Proof.
  apply (transform_df_missing_epoch utc
           (listing [post "a" 1700000000; PDict [("id", PStr "b")]] PNone)
           [post "a" 1700000000; PDict [("id", PStr "b")]]
           [("id", PStr "b")]).
  - reflexivity.
  - simpl. auto.
  - reflexivity.
Defined.

Example missing_epoch_everywhere :
  transform_df utc (listing [PDict [("id", PStr "b")]] PNone) = Err (KeyError "created_utc").
Proof. reflexivity. Qed.

Example missing_epoch_somewhere :
  transform_df utc (listing [post "a" 1700000000; PDict [("id", PStr "b")]] PNone)
  = Err ValueError.
Proof. reflexivity. Qed.



(** Witness of C7: the two-page scenario, 100 and 40 posts. *)
Lemma util_get_table_of_pages_witness :
  exists table p' w',
    util_get utc (list response) scripted client 5 "/r/test/new" new_params
             (fresh (two_pages_head ++ two_pages_last :: [])%list) = (Return table, p', w') /\
    len table = 140%nat /\
    List.length (log w') = 2%nat.
Proof.
  destruct (util_get_table_of_pages utc client two_pages_head (map page_of two_pages_head)
              two_pages_last (fst (page_of two_pages_last)) (snd (page_of two_pages_last))
              [] 5 "/r/test/new" new_params)
    as (table & p' & w' & Hrun & Hlen & _ & Hlog & _).
  - exact two_pages_turn.
  - vm_compute. reflexivity.
  - reflexivity.
  - simpl. lia.
  - exists table, p', w'. split; [exact Hrun|]. split; [|exact Hlog].
    rewrite Hlen. vm_compute. reflexivity.
Defined.

(** C7 as first stated fails.  An empty listing is a page sequence
    ending in a null cursor, and no table comes back for it: the
    frame of no records has no [created_utc] column.  And of two
    pages of 100 and 40 posts the second is never fetched when the
    first carries the empty string as cursor. *)
Lemma util_get_table_of_pages_counterexample :
  (cursor_of empty_page = Ok PNone /\
   fst (fst (util_get utc (list response) scripted client 5 "/r/test/new" new_params
                      (fresh [empty_page]))) = Raise (KeyError "created_utc")) /\
  (cursor_of two_pages_last = Ok PNone /\
   list_sum (map page_count [blank_cursor_page; two_pages_last]) = 140%nat /\
   exists table p' w',
     util_get utc (list response) scripted client 5 "/r/test/new" new_params
              (fresh [blank_cursor_page; two_pages_last]) = (Return table, p', w') /\
     len table = 100%nat /\ List.length (log w') = 1%nat).
Proof.
  split; [split; [reflexivity | vm_compute; reflexivity]|].
  split; [reflexivity|]. split; [vm_compute; reflexivity|].
  do 3 eexists. split; [vm_compute; reflexivity|]. split; vm_compute; reflexivity.
Qed.

(** Witness of C8. *)
Lemma subreddit_top_invalid_window_witness :
  subreddit_top utc (list response) scripted client 5 "test" "top" "fortnight" (fresh [])
  = (Raise ValueError, fresh []).
Proof.
  apply (subreddit_top_invalid_window utc (list response) scripted client 5
           "test" "top" "fortnight" (fresh [])).
  simpl. intuition discriminate.
Defined.

(** C9 on an empty listing: the request is issued all the same. *)
Example empty_listing_is_requested :
  map after_sent
      (log (snd (util_get utc (list response) scripted client 5 "/r/test/new" new_params
                          (fresh [empty_page]))))
  = [Some (PBool true)].
Proof. reflexivity. Qed.

(** Witness of C10: [after] bound beforehand to [None] and to a string. *)
Lemma util_get_overwrites_after_witness :
  util_get utc (list response) scripted client 5 "/r/test/new"
           [("limit", PInt limit); ("show", PStr "all"); ("after", PStr "t3_zzz")]
           (fresh (three_pages_head ++ [three_pages_last])%list)
  = util_get utc (list response) scripted client 5 "/r/test/new" new_params
             (fresh (three_pages_head ++ [three_pages_last])%list).
Proof.
  set (run := util_get utc (list response) scripted client 5 "/r/test/new" new_params
                       (fresh (three_pages_head ++ [three_pages_last])%list)).
  destruct (util_get_overwrites_after utc (list response) scripted client 4 "/r/test/new"
              new_params
              [("limit", PInt limit); ("show", PStr "all"); ("after", PStr "t3_zzz")]
              (fresh (three_pages_head ++ [three_pages_last])%list)
              (fst (fst run)) (snd (fst run)) (snd run)) as [H _].
  - vm_compute. repeat split.
  - vm_compute. reflexivity.
  - rewrite H. vm_compute. reflexivity.
Defined.

(** * Further properties *)

(** ** Frames of pages *)

Lemma dict_keys_set {V : Type} (d : dict V) (k : string) (v : V) :
  dict_keys (dict_set d k v) = add_key (dict_keys d) k.
Proof.
  unfold add_key. induction d as [|[k0 v0] d IH]; simpl; auto.
  destruct (String.eqb k0 k) eqn:E; simpl; auto.
  rewrite IH. destruct (mem k (dict_keys d)); auto.
Qed.

Lemma dict_keys_layout (f : string -> cell) (cols : list string) :
  dict_keys (map (fun c => (c, f c)) cols) = cols.
Proof.
  unfold dict_keys. rewrite map_map. simpl. apply map_id.
Qed.

Lemma mapM_Forall2 {A B : Type} (f : A -> result B) (l : list A) (bs : list B) :
  mapM f l = Ok bs -> Forall2 (fun a b => f a = Ok b) l bs.
Proof.
  revert bs. induction l as [|a l IH]; simpl; intros bs H.
  - inversion H. constructor.
  - destruct (f a) eqn:Ea; simpl in H; [|discriminate].
    destruct (mapM f l) eqn:El; simpl in H; [|discriminate].
    inversion H; subst. constructor; auto.
Qed.

Lemma Forall2_of_map {A B C : Type} (R : B -> C -> Prop) (f : A -> B)
      (l : list A) (cs : list C) :
  Forall2 R (map f l) cs -> Forall2 (fun a c => R (f a) c) l cs.
Proof.
  revert cs. induction l as [|a l IH]; intros cs H; inversion H; subst;
    constructor; auto.
Qed.

Lemma set_column_Forall2 {A : Type} (R : A -> cell -> Prop) (Q : dict cell -> Prop)
      (g : A -> dict cell) (c : string) (recs : list A) (ts : list cell) :
  Forall2 R recs ts ->
  (forall d t, R d t -> Q (dict_set (g d) c t)) ->
  Forall Q (set_column c (map g recs) ts).
Proof.
  intros H HQ. induction H as [|d t recs ts Hdt _ IH]; simpl; constructor; auto.
Qed.

Lemma mem_concat_columns (frames : list DataFrame) (acc : list string) (x : string) :
  mem x (fold_left (fun a df => union_keys a (columns df)) frames acc) = true <->
  mem x acc = true \/ exists df, In df frames /\ mem x (columns df) = true.
Proof.
  revert acc. induction frames as [|df frames IH]; intros acc; simpl.
  - split; [tauto | intros [H|[d [[] _]]]; exact H].
  - rewrite IH, mem_union_keys. split.
    + intros [[H|H]|[d' [H1 H2]]]; eauto.
      right. exists df. split; auto. now apply mem_In.
    + intros [H|[d' [[->|H1] H2]]]; eauto.
      left. right. now apply mem_In.
Qed.

Lemma dict_get_reindex (cols : list string) (row : dict cell) (k : string) (c : cell) :
  mem k cols = true -> dict_get row k = Some c -> dict_get (reindex cols row) k = Some c.
Proof.
  intros Hk Hc. unfold reindex.
  rewrite (dict_get_layout (cell_of (fun x => x) row)), Hk.
  unfold cell_of. now rewrite Hc.
Qed.

Section Frames.

Variable utcoffset : Z -> Z.

(** X1.  [transform_df] returns a frame only for a page with at least
    one child, all children objects, each with a [created_utc] the
    conversion accepts. *)
Theorem transform_df_accepts_only (j : pyval) (df : DataFrame) :
  transform_df utcoffset j = Ok df ->
  exists recs,
    payloads j = Ok (map PDict recs) /\
    recs <> [] /\
    len df = List.length recs /\
    forall d, In d recs ->
      exists x t, dict_get d "created_utc" = Some x /\
                  fromtimestamp utcoffset (CVal x) = Ok t.
Proof.
  intros H.
  destruct (transform_df_inv utcoffset j df H) as (recs & ts & Hp & Hmem & _ & Hts & ->).
  exists recs. split; [exact Hp|]. split; [|split].
  - intros ->. discriminate.
  - unfold len. simpl. now rewrite set_column_length, length_map.
  - intros d Hd. apply In_nth_error in Hd. destruct Hd as [i Hi].
    assert (Hc : nth_error (raw_column recs "created_utc") i
                 = Some (cell_of CVal d "created_utc"))
      by (exact (map_nth_error (fun d => cell_of CVal d "created_utc") i recs Hi)).
    destruct (mapM_nth _ _ _ _ _ Hts Hc) as (t & Ht & _).
    unfold cell_of in Ht. destruct (dict_get d "created_utc") as [x|]; [eauto|].
    discriminate.
Qed.

Lemma transform_df_nonempty (j : pyval) (df : DataFrame) :
  transform_df utcoffset j = Ok df -> (0 < len df)%nat.
Proof.
  intros H.
  destruct (transform_df_inv utcoffset j df H) as (recs & ts & _ & Hmem & _ & _ & ->).
  unfold len. simpl. rewrite set_column_length, length_map.
  destruct recs; [discriminate | simpl; lia].
Qed.

(** The shape of a frame [transform_df] returns. *)
Lemma transform_df_shape (j : pyval) (df : DataFrame) :
  transform_df utcoffset j = Ok df ->
  index df = seq 0 (len df) /\
  Forall (fun r => dict_keys r = columns df) (rows df) /\
  mem "created_utc" (columns df) = true /\
  mem "timestamp" (columns df) = true /\
  Forall (stamped utcoffset) (rows df).
Proof.
  intros H.
  destruct (transform_df_inv utcoffset j df H) as (recs & ts & Hp & Hmem & Hkeep & Hts & ->).
  set (cols := frame_columns recs) in *.
  apply mapM_Forall2 in Hts.
  assert (HF : Forall2 (fun d t => fromtimestamp utcoffset (cell_of CVal d "created_utc") = Ok t)
                       recs ts).
  { exact (Forall2_of_map (fun a b => fromtimestamp utcoffset a = Ok b)
                          (fun d => cell_of CVal d "created_utc") recs ts Hts). }
  unfold len, df_setitem. cbn [index columns rows].
  split; [now rewrite set_column_length, length_map|]. split; [|split; [|split]].
  - apply (set_column_Forall2 _ _ _ _ _ _ HF). intros d t _.
    rewrite dict_keys_set, row_of_record_layout.
    now rewrite (dict_keys_layout
                   (fun c => typed (floats_column recs c) (cell_of CVal d c))).
  - apply mem_add_key. now left.
  - apply mem_add_key. now right.
  - apply (set_column_Forall2 _ _ _ _ _ _ HF). intros d t Hdt.
    exists (cell_of CVal d "created_utc"), t. split; [|split; auto].
    + rewrite dict_get_set_other by discriminate.
      rewrite row_of_record_get by exact Hmem. now rewrite Hkeep.
    + apply dict_get_set_same.
Qed.

Lemma read_page_inv (r : response) (df : DataFrame) (c : pyval) :
  read_page utcoffset r = Ok (df, c) ->
  exists j, r_json r = Ok j /\ transform_df utcoffset j = Ok df.
Proof.
  unfold read_page. intros H.
  destruct (r_json r) as [j|e]; simpl in H; [|discriminate].
  destruct (transform_df utcoffset j) as [df'|e] eqn:Et; simpl in H; [|discriminate].
  destruct (getitem j "data") as [data|e]; simpl in H; [|discriminate].
  destruct (getitem data "after") as [a|e]; simpl in H; [|discriminate].
  destruct (header r _) as [h1|e]; simpl in H; [|discriminate].
  destruct (header r _) as [h2|e]; simpl in H; [|discriminate].
  inversion H; subst. eauto.
Qed.

Lemma page_frame_shape (df : DataFrame) :
  page_frame utcoffset df ->
  index df = seq 0 (len df) /\
  Forall (fun r => dict_keys r = columns df) (rows df) /\
  mem "created_utc" (columns df) = true /\
  mem "timestamp" (columns df) = true /\
  Forall (stamped utcoffset) (rows df).
Proof.
  intros (r & c & H). destruct (read_page_inv r df c H) as (j & _ & Ht).
  now apply transform_df_shape with j.
Qed.

(** Concatenating frames of pages. *)
Lemma pd_concat_page_frames (dfs : list DataFrame) :
  dfs <> [] -> Forall (page_frame utcoffset) dfs ->
  exists table,
    pd_concat dfs = Ok table /\
    len table = list_sum (map len dfs) /\
    index table = flat_map (fun df => seq 0 (len df)) dfs /\
    Forall (fun r => dict_keys r = columns table) (rows table) /\
    mem "created_utc" (columns table) = true /\
    mem "timestamp" (columns table) = true /\
    Forall (stamped utcoffset) (rows table).
Proof.
  intros Hne Hall.
  destruct (pd_concat_rows dfs Hne) as (table & Ht & Hlen & Hrows).
  exists table. split; [exact Ht|]. split; [exact Hlen|].
  assert (Hcols : columns table
                  = fold_left (fun a df => union_keys a (columns df)) dfs []
                  /\ index table = flat_map index dfs).
  { destruct dfs; [congruence|]. inversion Ht. auto. }
  destruct Hcols as [Hcols Hidx].
  assert (Hmem : forall k, (forall df, page_frame utcoffset df -> mem k (columns df) = true) ->
                           mem k (columns table) = true).
  { intros k Hk. rewrite Hcols. apply mem_concat_columns. right.
    destruct dfs as [|df0 dfs']; [congruence|]. exists df0. split; [now left|].
    apply Hk. now inversion Hall. }
  assert (Hc : mem "created_utc" (columns table) = true)
    by (apply Hmem; intros df Hdf; apply (page_frame_shape df Hdf)).
  assert (Hs : mem "timestamp" (columns table) = true)
    by (apply Hmem; intros df Hdf; apply (page_frame_shape df Hdf)).
  split; [|split; [|split; [exact Hc | split; [exact Hs|]]]].
  - rewrite Hidx. clear -Hall. induction Hall as [|df dfs Hdf _ IH]; simpl; auto.
    rewrite IH. f_equal. apply (page_frame_shape df Hdf).
  - rewrite Hrows. apply Forall_flat_map. apply Forall_forall. intros df _.
    apply Forall_map. apply Forall_forall. intros r _.
    unfold reindex. apply dict_keys_layout.
  - rewrite Hrows. apply Forall_flat_map.
    eapply Forall_impl; [|exact Hall]. intros df Hdf.
    apply Forall_map.
    destruct (page_frame_shape df Hdf) as (_ & _ & _ & _ & Hst).
    eapply Forall_impl; [|exact Hst]. intros r (c & t & H1 & H2 & H3).
    exists c, t. repeat split; auto; now apply dict_get_reindex.
Qed.

End Frames.

(** ** Runs of the fetcher against any server *)

Lemma NoDup_app_common {A : Type} (l1 l2 : list A) (x : A) :
  In x l1 -> In x l2 -> ~ NoDup (l1 ++ l2).
Proof.
  induction l1 as [|a l1 IH]; simpl; intros H1 H2 Hnd; [contradiction|].
  inversion Hnd; subst. destruct H1 as [->|H1].
  - apply H3. apply in_or_app. now right.
  - now apply IH.
Qed.

Section Runs.

Variable utcoffset : Z -> Z.
Variable S : Type.
Variable serve : S -> request -> response * S.
Variable self : Reddit.

(** The frames a run of the loop returns are the frames it was
    entered with, then frames of pages; there is at least one when
    the loop is entered with a truthy cursor. *)
Lemma util_get_loop_frames (fuel : nat) :
  forall (url : string) (after : pyval) (result : list DataFrame)
         (params : dict pyval) (w : world S) dfs p' w',
    util_get_loop utcoffset S serve self fuel url after result params w
    = (Return dfs, p', w') ->
    Forall (page_frame utcoffset) result ->
    Forall (page_frame utcoffset) dfs /\
    (result <> [] \/ truthy after = true -> dfs <> []).
Proof.
  induction fuel as [|n IH]; intros url after result params w dfs p' w' H Hres;
    simpl in H; destruct (truthy after) eqn:Et; try discriminate.
  - inversion H; subst. split; auto. intros [?|?]; congruence.
  - destruct (requests_get S serve _ w) as [r w1].
    destruct (read_page utcoffset r) as [[df c]|e] eqn:Er; [|discriminate].
    apply IH in H.
    + destruct H as [H1 H2]. split; auto. intros _. apply H2. left.
      destruct result; discriminate.
    + apply Forall_app. split; auto. constructor; auto. now exists r, c.
  - inversion H; subst. split; auto. intros [?|?]; congruence.
Qed.

Lemma util_get_frames (fuel : nat) (url : string) (params : dict pyval)
      (w : world S) table p' w' :
  util_get utcoffset S serve self fuel url params w = (Return table, p', w') ->
  exists dfs, dfs <> [] /\ Forall (page_frame utcoffset) dfs /\ pd_concat dfs = Ok table.
Proof.
  unfold util_get. intros H.
  destruct (util_get_loop utcoffset S serve self fuel (url_base ++ url) (PBool true) [] params w)
    as [[o1 p1] w1] eqn:El.
  destruct o1 as [dfs|e|]; try discriminate.
  destruct (util_get_loop_frames _ _ _ _ _ _ _ _ _ El (Forall_nil _)) as [HF Hne].
  exists dfs. split; [apply Hne; now right|]. split; auto.
  destruct (pd_concat dfs); simpl in H; now inversion H.
Qed.

(** An exception out of a run is the exception of reading some
    response of the server. *)
Lemma util_get_loop_raise (fuel : nat) :
  forall (url : string) (after : pyval) (result : list DataFrame)
         (params : dict pyval) (w : world S) e p' w',
    util_get_loop utcoffset S serve self fuel url after result params w
    = (Raise e, p', w') ->
    exists s req, read_page utcoffset (fst (serve s req)) = Err e.
Proof.
  induction fuel as [|n IH]; intros url after result params w e p' w' H;
    simpl in H; destruct (truthy after) eqn:Et; try discriminate.
  unfold requests_get in H.
  destruct (serve (srv w) _) as [r s'] eqn:Es.
  destruct (read_page utcoffset r) as [[df c]|e'] eqn:Er.
  - now apply IH in H.
  - inversion H; subst. do 2 eexists. rewrite Es. exact Er.
Qed.

(** More precisely, it is the exception of reading the response to
    the last request of the run. *)
Lemma util_get_loop_raise_last (fuel : nat) :
  forall (url : string) (after : pyval) (result : list DataFrame)
         (params : dict pyval) (w : world S) e p' w',
    util_get_loop utcoffset S serve self fuel url after result params w
    = (Raise e, p', w') ->
    exists (w0 : world S) (c : pyval) (r : response),
      requests_get S serve (page_request self url params c) w0 = (r, w') /\
      read_page utcoffset r = Err e.
Proof.
  induction fuel as [|n IH]; intros url after result params w e p' w' H;
    simpl in H; destruct (truthy after) eqn:Et; try discriminate.
  destruct (requests_get S serve _ w) as [r w1] eqn:Eg.
  destruct (read_page utcoffset r) as [[df c]|e'] eqn:Er.
  - apply IH in H. destruct H as (w0 & c0 & r0 & Hg & Hr).
    rewrite page_request_set in Hg. eauto.
  - inversion H; subst. exists w, after, r. split; [exact Eg | exact Er].
Qed.

Lemma util_get_raise_last (fuel : nat) (url : string) (params : dict pyval)
      (w : world S) e p' w' :
  util_get utcoffset S serve self fuel url params w = (Raise e, p', w') ->
  exists (w0 : world S) (c : pyval) (r : response),
    requests_get S serve (page_request self (url_base ++ url) params c) w0 = (r, w') /\
    read_page utcoffset r = Err e.
Proof.
  unfold util_get. intros H.
  destruct (util_get_loop utcoffset S serve self fuel (url_base ++ url) (PBool true) [] params w)
    as [[o1 p1] w1] eqn:El.
  destruct o1 as [dfs|e1|]; try discriminate.
  - destruct (util_get_loop_frames _ _ _ _ _ _ _ _ _ El (Forall_nil _)) as [_ Hne].
    destruct (pd_concat_rows dfs) as (t & Ht & _); [apply Hne; now right|].
    rewrite Ht in H. discriminate.
  - inversion H; subst. eapply util_get_loop_raise_last; eauto.
Qed.

Lemma util_get_raise (fuel : nat) (url : string) (params : dict pyval)
      (w : world S) e p' w' :
  util_get utcoffset S serve self fuel url params w = (Raise e, p', w') ->
  exists s req, read_page utcoffset (fst (serve s req)) = Err e.
Proof.
  unfold util_get. intros H.
  destruct (util_get_loop utcoffset S serve self fuel (url_base ++ url) (PBool true) [] params w)
    as [[o1 p1] w1] eqn:El.
  destruct o1 as [dfs|e1|]; try discriminate.
  - destruct (util_get_loop_frames _ _ _ _ _ _ _ _ _ El (Forall_nil _)) as [_ Hne].
    destruct (pd_concat_rows dfs) as (t & Ht & _); [apply Hne; now right|].
    rewrite Ht in H. discriminate.
  - inversion H; subst. eapply util_get_loop_raise; eauto.
Qed.

(** X3.  Every table [util_get] returns, whatever the server, is
    rectangular (each row has the table's columns, in order), has a
    label per row, has the columns [created_utc] and [timestamp], and
    in every row [timestamp] is the conversion of that row's
    [created_utc]. *)
Theorem util_get_table_shape (fuel : nat) (url : string) (params : dict pyval)
        (w : world S) table p' w' :
  util_get utcoffset S serve self fuel url params w = (Return table, p', w') ->
  Forall (fun r => dict_keys r = columns table) (rows table) /\
  List.length (index table) = len table /\
  mem "created_utc" (columns table) = true /\
  mem "timestamp" (columns table) = true /\
  Forall (stamped utcoffset) (rows table).
Proof.
  intros H. apply util_get_frames in H. destruct H as (dfs & Hne & HF & Ht).
  destruct (pd_concat_page_frames utcoffset dfs Hne HF)
    as (t & Ht' & Hlen & Hidx & Hrect & Hc & Hs & Hst).
  assert (t = table) by congruence. subst t.
  repeat split; auto.
  rewrite Hidx, Hlen. clear. induction dfs as [|df dfs IH]; simpl; auto.
  now rewrite length_app, length_seq, IH.
Qed.

Lemma util_get_loop_endless :
  (forall s req, exists df c,
      read_page utcoffset (fst (serve s req)) = Ok (df, c) /\ truthy c = true) ->
  forall (fuel : nat) (url : string) (after : pyval) (result : list DataFrame)
         (params : dict pyval) (w : world S),
    truthy after = true ->
    exists p' w',
      util_get_loop utcoffset S serve self fuel url after result params w
      = (OutOfFuel, p', w') /\
      List.length (log w') = (List.length (log w) + fuel)%nat.
Proof.
  intros Hsrv. induction fuel as [|n IH]; intros url after result params w Ht; simpl;
    rewrite Ht.
  - do 2 eexists. split; [reflexivity|]. lia.
  - unfold requests_get.
    destruct (Hsrv (srv w) {| req_url := url; req_headers := headers self;
                              req_params := dict_set params "after" after |})
      as (df & c & Hr & Hc).
    destruct (serve (srv w) _) as [r s']. simpl in Hr. rewrite Hr.
    destruct (IH url c (result ++ [df])%list (dict_set params "after" after)
                 {| srv := s'; log := (log w ++ [{| req_url := url; req_headers := headers self;
                                                    req_params := dict_set params "after" after |}])%list |}
                 Hc) as (p' & w' & Hrun & Hlen).
    exists p', w'. split; [exact Hrun|].
    rewrite Hlen. simpl. rewrite length_app. simpl. lia.
Qed.

(** X5.  Against a server whose every answer is a page with a truthy
    cursor, [util_get] never returns: whatever number of turns it is
    allowed, it uses them all, one request each, and is still
    looping. *)
Theorem util_get_never_ends :
  (forall s req, exists df c,
      read_page utcoffset (fst (serve s req)) = Ok (df, c) /\ truthy c = true) ->
  forall (fuel : nat) (url : string) (params : dict pyval) (w : world S),
  exists p' w',
    util_get utcoffset S serve self fuel url params w = (OutOfFuel, p', w') /\
    List.length (log w') = (List.length (log w) + fuel)%nat.
Proof.
  intros Hsrv fuel url params w. unfold util_get.
  destruct (util_get_loop_endless Hsrv fuel (url_base ++ url) (PBool true) [] params w eq_refl)
    as (p' & w' & Hrun & Hlen).
  rewrite Hrun. eauto.
Qed.

End Runs.

(** ** Pages the fetcher refuses *)

Section Refused.

Variable utcoffset : Z -> Z.
Variable self : Reddit.

(** X2.  A listing with no children, wherever it comes in the
    pagination, ends [util_get] with [KeyError] on [created_utc]: the
    frame of no records has no such column.  The pages before it are
    lost and nothing more is requested. *)
Theorem util_get_empty_listing
        (pre : list response) (pcs : list (DataFrame * pyval))
        (final : response) (j d : pyval) (rest : list response)
        (fuel : nat) (url : string) (params : dict pyval) :
  Forall2 (turns utcoffset) pre pcs ->
  r_json final = Ok j ->
  getitem j "data" = Ok d ->
  getitem d "children" = Ok (PList []) ->
  (List.length pre < fuel)%nat ->
  util_get utcoffset (list response) scripted self fuel url params
           (fresh (pre ++ final :: rest)%list)
  = (Raise (KeyError "created_utc"),
     dict_set params "after" (last (map snd pcs) (PBool true)),
     {| srv := rest;
        log := map (page_request self (url_base ++ url) params)
                   (PBool true :: map snd pcs) |}).
Proof.
  intros Hpre Hj Hd Hc Hfuel.
  assert (Hr : read_page utcoffset final = Err (KeyError "created_utc")).
  { unfold read_page. rewrite Hj. simpl.
    unfold transform_df, payloads. rewrite Hd. simpl. rewrite Hc. reflexivity. }
  unfold fresh.
  rewrite (util_get_scripted utcoffset self pre pcs final rest fuel url params [] Hpre)
    by (auto; intros ? ? E; rewrite Hr in E; discriminate).
  now rewrite Hr.
Qed.

(** X6.  A page that normalizes and carries a cursor is still refused
    when either rate-limit header is missing: the look-up made for
    the progress line raises [KeyError] and no table is returned. *)
Theorem util_get_needs_rate_headers
        (pre : list response) (pcs : list (DataFrame * pyval))
        (final : response) (j : pyval) (df : DataFrame) (c : pyval)
        (rest : list response) (fuel : nat) (url : string) (params : dict pyval) :
  Forall2 (turns utcoffset) pre pcs ->
  r_json final = Ok j ->
  transform_df utcoffset j = Ok df ->
  cursor_of final = Ok c ->
  dict_get (resp_headers final) "x-ratelimit-remaining" = None \/
  dict_get (resp_headers final) "x-ratelimit-reset" = None ->
  (List.length pre < fuel)%nat ->
  exists name,
    (name = "x-ratelimit-remaining" \/ name = "x-ratelimit-reset") /\
    dict_get (resp_headers final) name = None /\
    util_get utcoffset (list response) scripted self fuel url params
             (fresh (pre ++ final :: rest)%list)
    = (Raise (KeyError name),
       dict_set params "after" (last (map snd pcs) (PBool true)),
       {| srv := rest;
          log := map (page_request self (url_base ++ url) params)
                     (PBool true :: map snd pcs) |}).
Proof.
  intros Hpre Hj Ht Hcur Hmiss Hfuel.
  assert (Hr : exists name,
             (name = "x-ratelimit-remaining" \/ name = "x-ratelimit-reset") /\
             dict_get (resp_headers final) name = None /\
             read_page utcoffset final = Err (KeyError name)).
  { unfold cursor_of in Hcur. rewrite Hj in Hcur. simpl in Hcur.
    destruct (getitem j "data") as [data|e] eqn:Ed; simpl in Hcur; [|discriminate].
    unfold read_page. rewrite Hj. simpl. rewrite Ht. simpl. rewrite Ed. simpl.
    rewrite Hcur. simpl. unfold header.
    destruct (dict_get (resp_headers final) "x-ratelimit-remaining") as [v|] eqn:E1; simpl.
    - destruct Hmiss as [?|E2]; [discriminate|]. rewrite E2.
      exists "x-ratelimit-reset". auto.
    - exists "x-ratelimit-remaining". auto. }
  destruct Hr as (name & Hname & Hnone & Hr).
  exists name. split; [exact Hname|]. split; [exact Hnone|].
  unfold fresh.
  rewrite (util_get_scripted utcoffset self pre pcs final rest fuel url params [] Hpre)
    by (auto; intros ? ? E; rewrite Hr in E; discriminate).
  now rewrite Hr.
Qed.

(** X7.  The table of a paginated fetch keeps the row labels of its
    pages: they run from 0 on every page, so as soon as two pages
    are fetched the labels of the table repeat. *)
Theorem util_get_row_labels
        (pre : list response) (pcs : list (DataFrame * pyval))
        (final : response) (dfl : DataFrame) (cl : pyval) (rest : list response)
        (fuel : nat) (url : string) (params : dict pyval) :
  Forall2 (turns utcoffset) pre pcs ->
  read_page utcoffset final = Ok (dfl, cl) ->
  truthy cl = false ->
  (List.length pre < fuel)%nat ->
  exists table p' w',
    util_get utcoffset (list response) scripted self fuel url params
             (fresh (pre ++ final :: rest)%list) = (Return table, p', w') /\
    index table = flat_map (fun r => seq 0 (page_count r)) (pre ++ [final])%list /\
    (pre <> [] -> ~ NoDup (index table)).
Proof.
  intros Hpre Hfinal Hcl Hfuel. unfold fresh.
  rewrite (util_get_scripted utcoffset self pre pcs final rest fuel url params [] Hpre)
    by (auto; intros ? ? E; rewrite Hfinal in E; now inversion E; subst).
  rewrite Hfinal.
  assert (HF : Forall (page_frame utcoffset) (map fst pcs ++ [dfl])%list).
  { apply Forall_app. split.
    - clear -Hpre. induction Hpre as [|r [df c] pre pcs [Hr _] _ IH]; simpl; constructor; auto.
      now exists r, c.
    - constructor; auto. now exists final, cl. }
  assert (Hne' : (map fst pcs ++ [dfl])%list <> [])
    by (destruct (map fst pcs); discriminate).
  destruct (pd_concat_page_frames utcoffset _ Hne' HF) as (table & Ht & _ & Hidx & _).
  rewrite Ht. exists table. do 2 eexists. split; [reflexivity|].
  assert (Hlabels : index table
                    = flat_map (fun r => seq 0 (page_count r)) (pre ++ [final])%list).
  { rewrite Hidx, !flat_map_app. simpl. rewrite !app_nil_r.
    rewrite (read_page_count utcoffset final dfl cl Hfinal). f_equal.
    clear -Hpre. induction Hpre as [|r [df c] pre pcs [Hr _] _ IH]; simpl; auto.
    now rewrite IH, (read_page_count utcoffset r df c Hr). }
  split; [exact Hlabels|].
  intros Hne. rewrite Hlabels.
  assert (Hpos : forall r df c, read_page utcoffset r = Ok (df, c) ->
                                In 0%nat (seq 0 (page_count r))).
  { intros r df c Hr. rewrite <- (read_page_count utcoffset r df c Hr).
    destruct (read_page_inv utcoffset r df c Hr) as (j & _ & Htr).
    pose proof (transform_df_nonempty utcoffset j df Htr) as Hl.
    destruct (len df); [lia|]. simpl. now left. }
  destruct Hpre as [|r [df c] pre pcs [Hr _] _]; [congruence|].
  simpl. apply NoDup_app_common with 0%nat.
  - eapply Hpos; eauto.
  - apply in_flat_map. exists final. split.
    + apply in_or_app. right. now left.
    + eapply Hpos; eauto.
Qed.

End Refused.

(** ** Runs of the aggregators against any server *)

Lemma list_sum_removelast (fetched : list DataFrame) :
  Forall (fun d => (900 <= len d)%nat) (removelast fetched) ->
  (900 * (List.length fetched - 1) <= list_sum (map len fetched))%nat.
Proof.
  induction fetched as [|d fetched IH]; simpl; intros H; [lia|].
  destruct fetched as [|d' fetched]; [simpl; lia|].
  inversion H; subst. specialize (IH H3). simpl in *. lia.
Qed.

(** Visits that all returned a table are their windows paired with
    their tables. *)
Lemma returned_visits (vs : list (string * outcome DataFrame)) :
  Forall (fun v => exists d, snd v = Return d) vs ->
  combine (map fst vs) (map Return (tables_of vs)) = vs /\
  List.length vs = List.length (tables_of vs).
Proof.
  induction 1 as [|[top o] vs (d & Hd) _ [IH1 IH2]]; simpl; auto.
  simpl in Hd. subst o. simpl. fold (tables_of vs). rewrite IH1, IH2. auto.
Qed.

Section Aggregation.

Variable utcoffset : Z -> Z.
Variable S : Type.
Variable serve : S -> request -> response * S.
Variable self : Reddit.

Lemma extends_refl (P : request -> Prop) (w : world S) : extends S P w w.
Proof. exists []. split; [now rewrite app_nil_r | constructor]. Qed.

Lemma extends_trans (P Q R : request -> Prop) (w1 w2 w3 : world S) :
  (forall req, P req -> R req) -> (forall req, Q req -> R req) ->
  extends S P w1 w2 -> extends S Q w2 w3 -> extends S R w1 w3.
Proof.
  intros HP HQ (n1 & H1 & F1) (n2 & H2 & F2). exists (n1 ++ n2)%list. split.
  - now rewrite H2, H1, app_assoc.
  - apply Forall_app. split.
    + eapply Forall_impl; [exact HP | exact F1].
    + eapply Forall_impl; [exact HQ | exact F2].
Qed.

Lemma fetch_requests (fuel : nat) (url : string) (params : dict pyval)
      (w : world S) o w' :
  fetch utcoffset S serve self fuel url params w = (o, w') ->
  extends S (fun req => exists c, req = page_request self (url_base ++ url) params c) w w'.
Proof.
  intros H. apply fetch_log in H. destruct H as (cs & Hl & _).
  eexists. split; [exact Hl|]. apply Forall_map. apply Forall_forall. eauto.
Qed.

Lemma fetch_util_get (fuel : nat) (url : string) (params : dict pyval)
      (w : world S) o w' :
  fetch utcoffset S serve self fuel url params w = (o, w') ->
  exists p', util_get utcoffset S serve self fuel url params w = (o, p', w').
Proof.
  unfold fetch. destruct (util_get utcoffset S serve self fuel url params w) as [[o1 p1] w1].
  intros H. inversion H; subst. eauto.
Qed.

(** The tables the window loop returns. *)
Lemma top_loop_tables (tops : list string) :
  forall (fuel : nat) (url : string) (acc : list DataFrame) (w : world S) dfs w',
    top_loop utcoffset S serve self fuel url tops acc w = (Return dfs, w') ->
    exists fetched,
      dfs = (acc ++ fetched)%list /\
      (List.length fetched <= List.length tops)%nat /\
      (tops <> [] -> fetched <> []) /\
      Forall (fun d => (900 <= len d)%nat) (removelast fetched) /\
      Forall (fun d => exists top w0 p w1,
                  In top tops /\
                  util_get utcoffset S serve self fuel url (top_params top) w0
                  = (Return d, p, w1)) fetched.
Proof.
  induction tops as [|top tops IH]; intros fuel url acc w dfs w' H; simpl in H.
  - inversion H; subst. exists []. rewrite app_nil_r. repeat split; auto; constructor.
  - destruct (fetch utcoffset S serve self fuel url (top_params top) w) as [o1 w1] eqn:Ef.
    destruct o1 as [df|e|]; try discriminate.
    destruct (fetch_util_get _ _ _ _ _ _ Ef) as [p Hu].
    destruct (len df <? 900)%nat eqn:Elen.
    + inversion H; subst. exists [df]. simpl. repeat split; auto.
      * lia.
      * discriminate.
      * constructor; auto. exists top, w, p, w'. auto.
    + apply IH in H. destruct H as (fetched & Hd & Hlen & _ & Hfull & Horig).
      exists (df :: fetched). rewrite Hd, <- app_assoc. simpl. repeat split; auto.
      * lia.
      * discriminate.
      * destruct fetched; constructor; auto. apply Nat.ltb_ge in Elen. exact Elen.
      * constructor.
        -- exists top, w, p, w1. auto.
        -- eapply Forall_impl; [|exact Horig].
           intros d (t & w0 & p0 & w2 & Hin & Hrun). exists t, w0, p0, w2. auto.
Qed.

(** X8.  A table [subreddit_top] returns is the concatenation of the
    tables of the windows it went through, at least one and at most
    those from the starting window on, each returned by [util_get]
    for one of these windows; nothing is removed, so every window
    but the last contributes at least 900 rows; and the rows are
    labelled afresh from 0.  The windows gone through are a prefix
    of those from the starting window on, and the tables are the
    ones their fetches returned in this very run, each fetch begun
    in the world the one before it left. *)
Theorem subreddit_top_table_size
        (fuel : nat) (name sort upto : string) (w : world S) table w' :
  subreddit_top utcoffset S serve self fuel name sort upto w = (Return table, w') ->
  exists slicer fetched,
    list_index upto top_list = Some slicer /\
    fetched <> [] /\
    (List.length fetched <= List.length top_list - slicer)%nat /\
    Forall (fun d => exists top w0 p w1,
                In top (skipn slicer top_list) /\
                util_get utcoffset S serve self fuel ("/r/" ++ name ++ "/" ++ sort)
                         (top_params top) w0 = (Return d, p, w1)) fetched /\
    len table = list_sum (map len fetched) /\
    (900 * (List.length fetched - 1) <= len table)%nat /\
    index table = seq 0 (len table) /\
    Forall (fun d => (900 <= len d)%nat) (removelast fetched) /\
    rows table = flat_map (fun df => map (reindex (columns table)) (rows df)) fetched /\
    exists tops rest,
      skipn slicer top_list = (tops ++ rest)%list /\
      List.length tops = List.length fetched /\
      visits utcoffset S serve self fuel ("/r/" ++ name ++ "/" ++ sort) w
             (combine tops (map Return fetched)) w'.
Proof.
  unfold subreddit_top. intros H.
  destruct (list_index upto top_list) as [slicer|] eqn:Ei; [|discriminate].
  destruct (top_loop utcoffset S serve self fuel _ (skipn slicer top_list) [] w)
    as [o1 w1] eqn:El.
  destruct o1 as [dfs|e|]; try discriminate.
  assert (Hs : exists finer, skipn slicer top_list = upto :: finer).
  { destruct (list_index_top_list _ _ Ei)
      as [[-> ->]|[[-> ->]|[[-> ->]|[[-> ->]|[[-> ->]|[-> ->]]]]]];
      eexists; reflexivity. }
  destruct Hs as (finer & Hs).
  pose proof El as Ev. rewrite Hs in Ev.
  destruct (top_loop_visits utcoffset S serve self _ _ _ _ _ _ _ _ Ev)
    as (init & lastv & rest & Ht & Hv & Hfull & _ & Ho).
  destruct lastv as [tl [dfl|e|]]; simpl in Ho; try discriminate.
  inversion Ho as [Hdfs]. clear Ho.
  apply top_loop_tables in El.
  destruct El as (fetched & Hd & Hlen & Hne & Hbig & Horig). simpl in Hd. subst dfs.
  assert (Hfetched : fetched <> []) by (apply Hne; rewrite Hs; discriminate).
  destruct (pd_concat_rows fetched Hfetched) as (t & Htab & Hsum & Hrows).
  rewrite Htab in H. simpl in H. injection H as <- <-.
  exists slicer, fetched. rewrite length_skipn in Hlen.
  change (len (reset_index t)) with (len t).
  split; [reflexivity|]. split; [exact Hfetched|]. split; [exact Hlen|].
  split; [exact Horig|]. split; [exact Hsum|].
  split; [rewrite Hsum; now apply list_sum_removelast|].
  split; [reflexivity|]. split; [exact Hbig|]. split; [exact Hrows|].
  assert (Hall : Forall (fun v => exists d, snd v = Return d) (init ++ [(tl, Return dfl)])%list).
  { apply Forall_app. split.
    - eapply Forall_impl; [|exact Hfull]. intros [t0 [d| |]] Hf; simpl in Hf;
        try discriminate. simpl. eauto.
    - constructor; [simpl; eauto | constructor]. }
  destruct (returned_visits _ Hall) as [Hc Hl].
  assert (Htabs : tables_of (init ++ [(tl, Return dfl)])%list = fetched).
  { unfold tables_of. rewrite flat_map_app. simpl. exact (eq_sym Hdfs). }
  rewrite Htabs in Hc, Hl.
  exists (map fst (init ++ [(tl, Return dfl)])%list), rest.
  split; [|split].
  - rewrite Hs, Ht, map_app. simpl. now rewrite <- app_assoc.
  - now rewrite length_map.
  - rewrite Hc. exact Hv.
Qed.

Lemma top_loop_raise (tops : list string) :
  forall (fuel : nat) (url : string) (acc : list DataFrame) (w : world S) e w',
    top_loop utcoffset S serve self fuel url tops acc w = (Raise e, w') ->
    exists s req, read_page utcoffset (fst (serve s req)) = Err e.
Proof.
  induction tops as [|top tops IH]; intros fuel url acc w e w' H; simpl in H;
    [discriminate|].
  destruct (fetch utcoffset S serve self fuel url (top_params top) w) as [o1 w1] eqn:Ef.
  destruct (fetch_util_get _ _ _ _ _ _ Ef) as [p Hu].
  destruct o1 as [df|e1|]; try discriminate.
  - destruct (len df <? 900)%nat; [discriminate|]. now apply IH in H.
  - inversion H; subst. eapply util_get_raise; eauto.
Qed.

Lemma subreddit_top_raise (fuel : nat) (name sort upto : string) (w : world S) e w' :
  subreddit_top utcoffset S serve self fuel name sort upto w = (Raise e, w') ->
  list_index upto top_list = None \/
  exists s req, read_page utcoffset (fst (serve s req)) = Err e.
Proof.
  unfold subreddit_top. intros H.
  destruct (list_index upto top_list) as [slicer|] eqn:Ei; [|now left]. right.
  destruct (top_loop utcoffset S serve self fuel _ (skipn slicer top_list) [] w)
    as [o1 w1] eqn:El.
  destruct o1 as [dfs|e1|]; try discriminate.
  - apply top_loop_tables in El. destruct El as (fetched & Hd & _ & Hne & _).
    simpl in Hd. subst dfs.
    destruct (pd_concat_rows fetched) as (t & Ht & _).
    { apply Hne. destruct (list_index_top_list _ _ Ei)
        as [[_ ->]|[[_ ->]|[[_ ->]|[[_ ->]|[[_ ->]|[_ ->]]]]]]; discriminate. }
    rewrite Ht in H. discriminate.
  - inversion H; subst. eapply top_loop_raise; eauto.
Qed.

Lemma collect_length {A : Type} (f : A -> world S -> outcome DataFrame * world S)
      (l : list A) :
  forall (w : world S) dfs w',
    collect S f l w = (Return dfs, w') -> List.length dfs = List.length l.
Proof.
  induction l as [|a l IH]; intros w dfs w' H; simpl in H.
  - now inversion H.
  - destruct (f a w) as [[df|e|] w1]; try discriminate.
    destruct (collect S f l w1) as [[dfs'|e|] w2] eqn:Ec; try discriminate.
    inversion H; subst. simpl. f_equal. eapply IH; eauto.
Qed.

Lemma collect_raise {A : Type} (f : A -> world S -> outcome DataFrame * world S)
      (l : list A) :
  forall (w : world S) e w',
    collect S f l w = (Raise e, w') ->
    exists a w0 w1, In a l /\ f a w0 = (Raise e, w1).
Proof.
  induction l as [|a l IH]; intros w e w' H; simpl in H; [discriminate|].
  destruct (f a w) as [[df|e1|] w1] eqn:Ef; try discriminate.
  - destruct (collect S f l w1) as [[dfs'|e2|] w2] eqn:Ec; try discriminate.
    inversion H; subst.
    destruct (IH _ _ _ Ec) as (a' & w0 & w3 & Hin & Hf).
    exists a', w0, w3. split; [now right | exact Hf].
  - inversion H; subst. exists a, w, w'. split; [now left | exact Ef].
Qed.

(** An exception raised at one element of a comprehension is the
    outcome of the comprehension. *)
Lemma collect_raise_at {A : Type} (f : A -> world S -> outcome DataFrame * world S)
      (done : list A) (a : A) (left : list A) :
  forall (w : world S) dfs w0 e w1,
    collect S f done w = (Return dfs, w0) ->
    f a w0 = (Raise e, w1) ->
    collect S f (done ++ a :: left) w = (Raise e, w1).
Proof.
  induction done as [|a0 done IH]; intros w dfs w0 e w1 Hd Ha; simpl in Hd |- *.
  - inversion Hd; subst. now rewrite Ha.
  - destruct (f a0 w) as [[df|e0|] w2]; try discriminate.
    destruct (collect S f done w2) as [[dfs'|e0|] w3] eqn:Ec; try discriminate.
    inversion Hd; subst. now rewrite (IH _ _ _ _ _ Ec Ha).
Qed.

(** X9.  [aggregate] raises nothing of its own: an exception out of
    it is the exception raised in reading some response of the
    server, so against a server whose every answer can be read it
    does not raise. *)
Theorem aggregate_raises_read_errors (fuel : nat) (name : string) (w : world S) e w' :
  aggregate utcoffset S serve self fuel name w = (Raise e, w') ->
  exists s req, read_page utcoffset (fst (serve s req)) = Err e.
Proof.
  unfold aggregate. intros H.
  destruct (collect S _ ["rising"; "new"; "hot"] w) as [[l1|e1|] w1] eqn:E1;
    try discriminate.
  - destruct (collect S _ ["top"; "controversial"] w1) as [[l2|e2|] w2] eqn:E2;
      try discriminate.
    + apply collect_length in E1.
      destruct (pd_concat_rows (l1 ++ l2)%list) as (t & Ht & _).
      { destruct l1; [discriminate | discriminate]. }
      rewrite Ht in H. discriminate.
    + inversion H; subst.
      destruct (collect_raise _ _ _ _ _ E2) as (sort & w0 & w3 & _ & Hf).
      apply subreddit_top_raise in Hf. destruct Hf as [Hf|Hf]; [discriminate | exact Hf].
  - inversion H; subst.
    destruct (collect_raise _ _ _ _ _ E1) as (sort & w0 & w3 & _ & Hf).
    unfold subreddit in Hf. apply fetch_util_get in Hf. destruct Hf as [p Hf].
    eapply util_get_raise; eauto.
Qed.

End Aggregation.

(** ** Status codes and failures *)

(** C2, as amended.  No status code is ever looked at: answering
    with other status codes changes neither what [util_get] returns,
    nor the mapping and the world it leaves, nor anything in
    [subreddit_top] and [aggregate].  A fetch fails when a response
    cannot be read, and only then: the exception of the read is the
    outcome of [util_get], whatever pages came before; and an
    exception out of [util_get] is the one raised in reading the
    response to its last request.  The exception goes unchanged
    through the window loop, [subreddit_top] and [aggregate], which
    give no table then; [aggregate] raises nothing else, and
    [subreddit_top] nothing else but for a starting window it does
    not know. *)
Theorem fetch_ignores_status
        (utcoffset : Z -> Z) (self : Reddit)
        (pre : list response) (pcs : list (DataFrame * pyval))
        (bad : response) (e : exn) (rest : list response)
        (fuel : nat) (url : string) (params : dict pyval) :
  Forall2 (turns utcoffset) pre pcs ->
  read_page utcoffset bad = Err e ->
  (List.length pre < fuel)%nat ->
  (forall (S : Type) (serve : S -> request -> response * S) (f : response -> Z)
          (n : nat) (u name sort upto : string) (p : dict pyval) (w : world S),
     util_get utcoffset S (restatus f serve) self n u p w
     = util_get utcoffset S serve self n u p w /\
     subreddit_top utcoffset S (restatus f serve) self n name sort upto w
     = subreddit_top utcoffset S serve self n name sort upto w /\
     aggregate utcoffset S (restatus f serve) self n name w
     = aggregate utcoffset S serve self n name w) /\
  util_get utcoffset (list response) scripted self fuel url params
           (fresh (pre ++ bad :: rest)%list)
  = (Raise e,
     dict_set params "after" (last (map snd pcs) (PBool true)),
     {| srv := rest;
        log := map (page_request self (url_base ++ url) params)
                   (PBool true :: map snd pcs) |}) /\
  (forall (S : Type) (serve : S -> request -> response * S)
          (n : nat) (u top : string) (finer : list string) (acc : list DataFrame)
          (w w1 : world S) (e' : exn),
     fetch utcoffset S serve self n u (top_params top) w = (Raise e', w1) ->
     top_loop utcoffset S serve self n u (top :: finer) acc w = (Raise e', w1)) /\
  (forall (S : Type) (serve : S -> request -> response * S)
          (n : nat) (name sort upto : string) (slicer : nat) (w w1 : world S) (e' : exn),
     list_index upto top_list = Some slicer ->
     top_loop utcoffset S serve self n ("/r/" ++ name ++ "/" ++ sort)
              (skipn slicer top_list) [] w = (Raise e', w1) ->
     subreddit_top utcoffset S serve self n name sort upto w = (Raise e', w1)) /\
  (forall (S : Type) (serve : S -> request -> response * S)
          (n : nat) (u : string) (p : dict pyval) (w w1 : world S) (p' : dict pyval)
          (e' : exn),
     util_get utcoffset S serve self n u p w = (Raise e', p', w1) ->
     exists (w0 : world S) (c : pyval) (r : response),
       requests_get S serve (page_request self (url_base ++ u) p c) w0 = (r, w1) /\
       read_page utcoffset r = Err e') /\
  (forall (S : Type) (serve : S -> request -> response * S)
          (n : nat) (name sort upto : string) (w w1 : world S) (e' : exn),
     (subreddit_top utcoffset S serve self n name sort upto w = (Raise e', w1) ->
      list_index upto top_list = None \/
      exists s req, read_page utcoffset (fst (serve s req)) = Err e') /\
     (aggregate utcoffset S serve self n name w = (Raise e', w1) ->
      exists s req, read_page utcoffset (fst (serve s req)) = Err e')) /\
  (forall (S : Type) (serve : S -> request -> response * S)
          (n : nat) (name sort : string) (done left : list string)
          (dfs : list DataFrame) (w w0 w1 : world S) (e' : exn),
     ["rising"; "new"; "hot"] = (done ++ sort :: left)%list ->
     collect S (fun sort => subreddit utcoffset S serve self n name sort) done w
     = (Return dfs, w0) ->
     subreddit utcoffset S serve self n name sort w0 = (Raise e', w1) ->
     aggregate utcoffset S serve self n name w = (Raise e', w1)) /\
  (forall (S : Type) (serve : S -> request -> response * S)
          (n : nat) (name sort : string) (done left : list string)
          (l1 dfs : list DataFrame) (w w0 w1 w2 : world S) (e' : exn),
     collect S (fun sort => subreddit utcoffset S serve self n name sort)
             ["rising"; "new"; "hot"] w = (Return l1, w0) ->
     ["top"; "controversial"] = (done ++ sort :: left)%list ->
     collect S (fun sort => subreddit_top utcoffset S serve self n name sort "month") done w0
     = (Return dfs, w1) ->
     subreddit_top utcoffset S serve self n name sort "month" w1 = (Raise e', w2) ->
     aggregate utcoffset S serve self n name w = (Raise e', w2)).
Proof.
  intros Hpre Hbad Hfuel.
  split; [|split; [|split; [|split; [|split; [|split; [|split]]]]]].
  - intros S serve f n u name sort upto p w.
    now rewrite util_get_restatus, subreddit_top_restatus, aggregate_restatus.
  - unfold fresh.
    rewrite (util_get_scripted utcoffset self pre pcs bad rest fuel url params [] Hpre)
      by (auto; intros ? ? E; rewrite Hbad in E; discriminate).
    now rewrite Hbad.
  - intros S serve n u top finer acc w w1 e' H. simpl. now rewrite H.
  - intros S serve n name sort upto slicer w w1 e' Hi H.
    unfold subreddit_top. now rewrite Hi, H.
  - intros S serve n u p w w1 p' e' H. eapply util_get_raise_last; eauto.
  - intros S serve n name sort upto w w1 e'. split; intros H.
    + eapply subreddit_top_raise; eauto.
    + unfold aggregate in H.
      destruct (collect S _ ["rising"; "new"; "hot"] w) as [[l1|e1|] w2] eqn:E1;
        try discriminate.
      * destruct (collect S _ ["top"; "controversial"] w2) as [[l2|e2|] w3] eqn:E2;
          try discriminate.
        -- apply collect_length in E1.
           destruct (pd_concat_rows (l1 ++ l2)%list) as (t & Ht & _).
           { destruct l1; [discriminate | discriminate]. }
           rewrite Ht in H. discriminate.
        -- inversion H; subst.
           destruct (collect_raise _ _ _ _ _ _ E2) as (sort' & w4 & w5 & _ & Hf).
           apply subreddit_top_raise in Hf.
           destruct Hf as [Hf|Hf]; [discriminate | exact Hf].
      * inversion H; subst.
        destruct (collect_raise _ _ _ _ _ _ E1) as (sort' & w4 & w5 & _ & Hf).
        unfold subreddit in Hf. apply fetch_util_get in Hf. destruct Hf as [p Hf].
        eapply util_get_raise; eauto.
  - intros S serve n name sort done left dfs w w0 w1 e' Hl Hd Hs.
    unfold aggregate. rewrite Hl.
    now rewrite (collect_raise_at S _ done sort left w dfs w0 e' w1 Hd Hs).
  - intros S serve n name sort done left l1 dfs w w0 w1 w2 e' H1 Hl Hd Hs.
    unfold aggregate. rewrite H1, Hl.
    now rewrite (collect_raise_at S _ done sort left w0 dfs w1 e' w2 Hd Hs).
Qed.

(** Witness of C2: a page, then an error answer with a JSON body. *)
Lemma fetch_ignores_status_witness :
  util_get utc (list response) scripted client 5 "/r/test/new" new_params
           (fresh (three_pages_head ++ forbidden 403 :: [])%list)
  = (Raise (KeyError "data"),
     dict_set new_params "after" (PStr "c2"),
     {| srv := [];
        log := map (page_request client (url_base ++ "/r/test/new") new_params)
                   [PBool true; PStr "c1"; PStr "c2"] |}).
Proof.
  apply (fetch_ignores_status utc client three_pages_head (map page_of three_pages_head)
           (forbidden 403) (KeyError "data") [] 5 "/r/test/new" new_params).
  - exact three_pages_turn.
  - reflexivity.
  - simpl. lia.
Defined.

(** C2 as first stated fails: a listing answered with status 500 is
    taken as a page and a table comes back; an error answer is
    refused for its body alone, with the same exception whatever the
    status. *)
Lemma fetch_ignores_status_counterexample :
  (status_code listing_500 = 500 /\ ok listing_500 = false /\
   exists table p' w',
     util_get utc (list response) scripted client 5 "/r/test/new" new_params
              (fresh [listing_500]) = (Return table, p', w') /\
     len table = 1%nat) /\
  (ok (forbidden 403) = false /\
   fst (fst (util_get utc (list response) scripted client 5 "/r/test/new" new_params
                      (fresh [forbidden 403]))) = Raise (KeyError "data") /\
   fst (fst (util_get utc (list response) scripted client 5 "/r/test/new" new_params
                      (fresh [forbidden 200]))) = Raise (KeyError "data")).
Proof.
  split.
  - split; [reflexivity | split; [reflexivity|]].
    do 3 eexists. split; vm_compute; reflexivity.
  - repeat split; vm_compute; reflexivity.
Qed.


(** ** What the endpoint strategies request *)

Lemma set_column_map (c : string) (g : dict cell -> cell) (rs : list (dict cell)) :
  set_column c rs (map g rs) = map (fun r => dict_set r c (g r)) rs.
Proof.
  induction rs as [|r rs IH]; simpl; auto. now rewrite IH.
Qed.

Section Strategies.

Variable utcoffset : Z -> Z.
Variable S : Type.
Variable serve : S -> request -> response * S.
Variable self : Reddit.

Lemma top_loop_requests (tops : list string) :
  forall (fuel : nat) (url : string) (acc : list DataFrame) (w : world S) o w',
    top_loop utcoffset S serve self fuel url tops acc w = (o, w') ->
    extends S (fun req => exists top c,
                   In top tops /\
                   req = page_request self (url_base ++ url) (top_params top) c) w w'.
Proof.
  induction tops as [|top tops IH]; intros fuel url acc w o w' H; simpl in H.
  - inversion H; subst. apply extends_refl.
  - destruct (fetch utcoffset S serve self fuel url (top_params top) w) as [o1 w1] eqn:Ef.
    apply fetch_requests in Ef.
    assert (Hfirst : extends S (fun req => exists top' c,
                                    In top' (top :: tops) /\
                                    req = page_request self (url_base ++ url)
                                                       (top_params top') c) w w1).
    { destruct Ef as (new & Hl & HF). exists new. split; auto.
      eapply Forall_impl; [|exact HF]. intros req [c ->]. exists top, c.
      split; [now left | reflexivity]. }
    destruct o1 as [df|e|]; try (inversion H; subst; exact Hfirst).
    destruct (len df <? 900)%nat; [inversion H; subst; exact Hfirst|].
    apply IH in H.
    eapply extends_trans; [| |exact Hfirst|exact H]; auto.
    intros req (top' & c & Hin & ->). exists top', c. split; [now right | reflexivity].
Qed.

Lemma subreddit_top_requests (fuel : nat) (name sort upto : string) (w : world S) o w' :
  subreddit_top utcoffset S serve self fuel name sort upto w = (o, w') ->
  extends S (fun req => exists slicer top c,
                 list_index upto top_list = Some slicer /\
                 In top (skipn slicer top_list) /\
                 req = page_request self (url_base ++ "/r/" ++ name ++ "/" ++ sort)
                                    (top_params top) c) w w'.
Proof.
  unfold subreddit_top. intros H.
  destruct (list_index upto top_list) as [slicer|] eqn:Ei.
  - destruct (top_loop utcoffset S serve self fuel _ (skipn slicer top_list) [] w)
      as [o1 w1] eqn:El.
    apply top_loop_requests in El.
    assert (w' = w1) by (destruct o1; now inversion H). subst w1.
    destruct El as (new & Hl & HF). exists new. split; auto.
    eapply Forall_impl; [|exact HF]. intros req (top & c & Hin & ->).
    exists slicer, top, c. auto.
  - inversion H; subst. apply extends_refl.
Qed.

Lemma collect_requests {A : Type} (f : A -> world S -> outcome DataFrame * world S)
      (P : A -> request -> Prop) (l : list A) :
  (forall a w o w', f a w = (o, w') -> extends S (P a) w w') ->
  forall (w : world S) o w',
    collect S f l w = (o, w') ->
    extends S (fun req => exists a, In a l /\ P a req) w w'.
Proof.
  intros Hf. induction l as [|a l IH]; intros w o w' H; simpl in H.
  - inversion H; subst. apply extends_refl.
  - destruct (f a w) as [o1 w1] eqn:Ef. apply Hf in Ef.
    assert (Hfirst : extends S (fun req => exists a', In a' (a :: l) /\ P a' req) w w1).
    { destruct Ef as (new & Hl & HF). exists new. split; auto.
      eapply Forall_impl; [|exact HF]. intros req Hreq. exists a. split; [now left | auto]. }
    destruct o1 as [df|e|]; try (inversion H; subst; exact Hfirst).
    destruct (collect S f l w1) as [o2 w2] eqn:Ec.
    apply IH in Ec.
    assert (w' = w2) by (destruct o2; now inversion H). subst w2.
    eapply extends_trans; [| |exact Hfirst|exact Ec]; auto.
    intros req (a' & Hin & Hp). exists a'. split; [now right | auto].
Qed.

(** X10.  Every request [aggregate] issues carries the client's
    headers and goes to the listing of the named subreddit under one
    of five sorts: rising, new and hot without a window parameter,
    top and controversial with a window from month to hour, never
    all or year. *)
Theorem aggregate_requests (fuel : nat) (name : string) (w : world S) o w' :
  aggregate utcoffset S serve self fuel name w = (o, w') ->
  extends S
    (fun req =>
       req_headers req = headers self /\
       ((exists sort, In sort ["rising"; "new"; "hot"] /\
                      req_url req = url_base ++ "/r/" ++ name ++ "/" ++ sort /\
                      window_sent req = None) \/
        (exists sort top, In sort ["top"; "controversial"] /\
                          In top ["month"; "week"; "day"; "hour"] /\
                          req_url req = url_base ++ "/r/" ++ name ++ "/" ++ sort /\
                          window_sent req = Some (PStr top))))
    w w'.
Proof.
  unfold aggregate. intros H.
  destruct (collect S _ ["rising"; "new"; "hot"] w) as [o1 w1] eqn:E1.
  apply (collect_requests _
           (fun sort req => exists c,
                req = page_request self (url_base ++ "/r/" ++ name ++ "/" ++ sort)
                                   [("limit", PInt limit); ("show", PStr "all");
                                    ("after", PNone)] c)) in E1;
    [|intros sort w0 o0 w0' Hrun; unfold subreddit in Hrun;
      now apply fetch_requests in Hrun].
  assert (Hfirst : extends S
    (fun req =>
       req_headers req = headers self /\
       ((exists sort, In sort ["rising"; "new"; "hot"] /\
                      req_url req = url_base ++ "/r/" ++ name ++ "/" ++ sort /\
                      window_sent req = None) \/
        (exists sort top, In sort ["top"; "controversial"] /\
                          In top ["month"; "week"; "day"; "hour"] /\
                          req_url req = url_base ++ "/r/" ++ name ++ "/" ++ sort /\
                          window_sent req = Some (PStr top)))) w w1).
  { destruct E1 as (new & Hl & HF). exists new. split; auto.
    eapply Forall_impl; [|exact HF]. intros req (sort & Hin & c & ->).
    split; [reflexivity|]. left. exists sort. auto. }
  destruct o1 as [l1|e|]; try (inversion H; subst; exact Hfirst).
  destruct (collect S _ ["top"; "controversial"] w1) as [o2 w2] eqn:E2.
  apply (collect_requests _
           (fun sort req => exists slicer top c,
                list_index "month" top_list = Some slicer /\
                In top (skipn slicer top_list) /\
                req = page_request self (url_base ++ "/r/" ++ name ++ "/" ++ sort)
                                   (top_params top) c)) in E2;
    [|intros sort w0 o0 w0' Hrun; now apply subreddit_top_requests in Hrun].
  assert (w' = w2) by (destruct o2; now inversion H). subst w2.
  eapply extends_trans; [| |exact Hfirst|exact E2]; auto.
  intros req (sort & Hin & slicer & top & c & Hi & Htop & ->).
  inversion Hi; subst slicer.
  split; [reflexivity|]. right. exists sort, top. auto.
Qed.

(** X11.  Every request of a [search] carries the query, the sort,
    the window, the page size and the misspelt [restric_sr=False].
    The search is scoped exactly when a non-empty subreddit name is
    given: then every request goes to that subreddit's search and
    carries [restrict_sr=True] and the type ["link "]; otherwise every
    request goes to the site-wide search and carries neither. *)
Theorem search_requests (fuel : nat) (query : string) (subreddit : option string)
        (sort top : string) (w : world S) o w' :
  search utcoffset S serve self fuel query subreddit sort top w = (o, w') ->
  let scoped := match subreddit with
                | Some name => negb (String.eqb name "")
                | None => false
                end in
  extends S
    (fun req =>
       req_url req = url_base ++ match subreddit with
                                 | Some name => if scoped then "/r/" ++ name ++ "/search"
                                                else "/search"
                                 | None => "/search"
                                 end /\
       dict_get (req_params req) "q" = Some (PStr query) /\
       dict_get (req_params req) "sort" = Some (PStr sort) /\
       dict_get (req_params req) "t" = Some (PStr top) /\
       dict_get (req_params req) "limit" = Some (PInt 100) /\
       dict_get (req_params req) "restric_sr" = Some (PBool false) /\
       dict_get (req_params req) "restrict_sr"
       = (if scoped then Some (PBool true) else None) /\
       dict_get (req_params req) "type"
       = (if scoped then Some (PStr "link ") else None))
    w w'.
Proof.
  intros H. cbv zeta. unfold search in H.
  destruct subreddit as [name|]; [destruct (negb (String.eqb name "")) eqn:En|];
    apply fetch_requests in H; destruct H as (new & Hl & HF);
    exists new; (split; [exact Hl|]);
    (eapply Forall_impl; [|exact HF]); intros req [c ->];
    repeat split; reflexivity.
Qed.

Lemma fromtimestamp_time (c t : cell) :
  fromtimestamp utcoffset c = Ok t -> exists d, t = CTime d.
Proof.
  unfold fromtimestamp. intros H.
  destruct c as [[ | b | z | s | l | d] | | t' | f]; try discriminate.
  - destruct (local_of_epoch utcoffset _); simpl in H; inversion H; eauto.
  - destruct (local_of_epoch utcoffset _); simpl in H; inversion H; eauto.
  - destruct (local_of_epoch utcoffset _); simpl in H; inversion H; eauto.
Qed.

Lemma convert_stamped (rs : list (dict cell)) :
  Forall (stamped utcoffset) rs ->
  series_apply (fromtimestamp utcoffset)
               (map (fun r => cell_of (fun x => x) r "created_utc") rs)
  = Ok (map (fun r => cell_of (fun x => x) r "timestamp") rs).
Proof.
  unfold series_apply. induction 1 as [|r rs (c & t & Hc & Ht & Hf) _ IH]; auto.
  cbn [map mapM].
  replace (cell_of (fun x => x) r "created_utc") with c
    by (unfold cell_of; now rewrite Hc).
  replace (cell_of (fun x => x) r "timestamp") with t
    by (unfold cell_of; now rewrite Ht).
  rewrite Hf. cbn [rbind]. rewrite IH. reflexivity.
Qed.

(** X4.  [user_profile] (default flags) raises only what reading a
    response raises: converting [created_utc] a second time, on the
    whole table, never fails.  In the table it returns every row
    holds the same local time under [created_utc] and under
    [timestamp]. *)
Theorem user_profile_created_utc (fuel : nat) (username : string) (w : world S) o w' :
  user_profile utcoffset S serve self fuel username w = (o, w') ->
  (forall e, o = Raise e ->
             exists s req, read_page utcoffset (fst (serve s req)) = Err e) /\
  (forall df, o = Return df ->
     Forall (fun r => exists d, dict_get r "created_utc" = Some (CTime d) /\
                                dict_get r "timestamp" = Some (CTime d)) (rows df)).
Proof.
  unfold user_profile. intros H.
  destruct (fetch utcoffset S serve self fuel _ _ w) as [o1 w1] eqn:Ef.
  apply fetch_util_get in Ef. destruct Ef as [p Hu].
  destruct o1 as [table|e1|].
  - apply util_get_frames in Hu. destruct Hu as (dfs & Hne & HF & Ht).
    destruct (pd_concat_page_frames utcoffset dfs Hne HF)
      as (t & Ht' & _ & _ & _ & Hc & _ & Hst).
    assert (t = table) by congruence. subst t.
    unfold df_getitem in H. rewrite Hc in H. simpl in H.
    rewrite (convert_stamped _ Hst) in H. simpl in H.
    inversion H; subst. split; [discriminate|].
    intros df E. inversion E; subst. simpl.
    rewrite set_column_map. apply Forall_map.
    eapply Forall_impl; [|exact Hst]. intros r (c & t & _ & Hts & Hf).
    destruct (fromtimestamp_time c t Hf) as [d ->]. exists d.
    unfold cell_of. rewrite Hts. split.
    + apply dict_get_set_same.
    + now rewrite dict_get_set_other by discriminate.
  - inversion H; subst. split; [|discriminate].
    intros e E. inversion E; subst. eapply util_get_raise; eauto.
  - inversion H; subst. split; discriminate.
Qed.

End Strategies.

(** ** The access token *)

Lemma minutes_left_spec (d : Z) :
  minutes_left d = (d / 60000000) mod 1440 /\ 0 <= minutes_left d <= 1439.
Proof.
  assert (H : minutes_left d = (d / 60000000) mod 1440).
  { unfold minutes_left, timedelta_seconds.
    rewrite Z.div_div by lia.
    change 86400000000 with (60000000 * 1440).
    change (1000000 * 60) with 60000000.
    rewrite Z.rem_mul_r by lia.
    rewrite (Z.mul_comm 60000000), Z.div_add by lia.
    rewrite Z.div_small by (apply Z.mod_pos_bound; lia). lia. }
  split; [exact H|]. rewrite H.
  pose proof (Z.mod_pos_bound (d / 60000000) 1440). lia.
Qed.

(** X12.  However often [check_expiration] is called and whatever the
    clock reads, each call answers [True] exactly when an expiry time
    is set and the reading is not past it (at the expiry instant the
    token still counts as valid); the expiry time is never changed;
    and the [expired] flag is never cleared: it ends up set if it was
    set or if some call found the reading past the expiry time.
    The [show] flags play no part. *)
Theorem check_all_results (self : Token) (calls : list (bool * Z)) :
  fst (check_all self calls)
  = map (fun c => match expire_time self with
                  | Some expire => negb (expire <? snd c)
                  | None => false
                  end) calls /\
  expire_time (snd (check_all self calls)) = expire_time self /\
  expired (snd (check_all self calls))
  = (expired self ||
     match expire_time self with
     | Some expire => existsb (fun c => expire <? snd c) calls
     | None => false
     end)%bool.
Proof.
  revert self. induction calls as [|[show now] calls IH]; intros self.
  - simpl. repeat split; auto.
    destruct (expire_time self); now rewrite orb_false_r.
  - cbn [check_all]. unfold check_expiration.
    destruct (expire_time self) as [expire|] eqn:Ee.
    + destruct (expire <? now) eqn:El.
      * specialize (IH {| expired := true; expire_time := Some expire |}).
        destruct (check_all _ calls) as [bs self'']. simpl in *.
        destruct IH as (H1 & H2 & H3). rewrite H1, H2, H3, El.
        repeat split; auto. now rewrite orb_true_r.
      * specialize (IH self).
        destruct (check_all self calls) as [bs self'']. simpl in *.
        destruct IH as (H1 & H2 & H3). rewrite H1, H2, H3, Ee, El.
        repeat split; auto.
    + specialize (IH self).
      destruct (check_all self calls) as [bs self'']. simpl in *.
      destruct IH as (H1 & H2 & H3). rewrite H1, H2, H3, Ee.
      repeat split; auto.
Qed.

(** X13.  The minutes a token announces are the whole minutes left
    counted within the day: between 0 and 1439 whatever the expiry
    time and the clock, right when less than a day is left, a
    multiple of a day short beyond that, and still a number from 0
    up when the expiry time is already past. *)
Theorem token_minutes_shown (expire now : Z) :
  let m := ((expire - now) / 60000000) mod 1440 in
  snd (Token_init expire now)
  = "Token valid for " ++ decimal m ++ " min and expires at " ++ strftime_HM expire /\
  (forall self, expire_time self = Some expire -> now <= expire ->
     check_expiration self true now
     = (true, self, ["Token valid for " ++ decimal m ++ " min"])) /\
  0 <= m <= 1439 /\
  (0 <= expire - now < 86400000000 -> m = (expire - now) / 60000000).
Proof.
  intros m. destruct (minutes_left_spec (expire - now)) as [Hm Hb]. fold m in Hm.
  split; [|split; [|split]].
  - unfold Token_init. simpl. now rewrite Hm.
  - intros self He Hle. unfold check_expiration. rewrite He.
    destruct (Z.ltb_spec expire now); [lia|]. now rewrite Hm.
  - now rewrite <- Hm.
  - intros Hd. unfold m. apply Z.mod_small. split.
    + apply Z.div_pos; lia.
    + apply Z.div_lt_upper_bound; lia.
Qed.

(** ** Authorization *)

Section Authorized.

Variable py_repr : pyval -> string.

(** X14.  When one of the four environment variables is unset or
    empty, [authorize] raises [RedditException] without posting
    anything; the client is as it was and holds no token. *)
Theorem authorize_needs_environment
        (env : dict string) (post : post_request -> response) (now1 now2 : Z)
        (self : Reddit) (name : string) :
  In name ["REDDIT_CLIENT_ID"; "REDDIT_CLIENT_SECRET";
           "REDDIT_USERNAME"; "REDDIT_PASSWORD"] ->
  env_truthy (dict_get env name) = false ->
  exists msg,
    authorize py_repr env post now1 now2 self
    = (Some (RedditException msg), self, None, []).
Proof.
  intros Hin Hname. unfold authorize.
  assert (Hall : forallb env_truthy
                   [dict_get env "REDDIT_CLIENT_ID"; dict_get env "REDDIT_CLIENT_SECRET";
                    dict_get env "REDDIT_USERNAME"; dict_get env "REDDIT_PASSWORD"] = false).
  { simpl in Hin. simpl.
    destruct Hin as [<-|[<-|[<-|[<-|[]]]]]; rewrite Hname;
      repeat (rewrite ?andb_false_r, ?andb_false_l); reflexivity. }
  rewrite Hall. simpl. eauto.
Qed.

(** X15.  [authorize] returns normally only on one path: the four
    variables are set, exactly one request is posted (password grant,
    the user's name and password as data, the client's id and secret
    as credentials, the client's headers), the answer has a success
    status and a JSON object whose [access_token] is not null.  The
    client then holds the header [Authorization: bearer <token>], its
    other headers as before, and a fresh token expiring one hour after
    the first reading of the clock. *)
Theorem authorize_success
        (env : dict string) (post : post_request -> response) (now1 now2 : Z)
        (self self' : Reddit) (token : option Token) (posted : list post_request) :
  authorize py_repr env post now1 now2 self = (None, self', token, posted) ->
  exists id secret user pass d v,
    dict_get env "REDDIT_CLIENT_ID" = Some id /\ id <> "" /\
    dict_get env "REDDIT_CLIENT_SECRET" = Some secret /\ secret <> "" /\
    dict_get env "REDDIT_USERNAME" = Some user /\ user <> "" /\
    dict_get env "REDDIT_PASSWORD" = Some pass /\ pass <> "" /\
    posted = [{| post_url := "https://www.reddit.com/api/v1/access_token";
                 post_auth := (id, secret);
                 post_data := [("grant_type", "password"); ("username", user);
                               ("password", pass)];
                 post_headers := headers self |}] /\
    (forall req, In req posted ->
       ok (post req) = true /\ body (post req) = Some (PDict d)) /\
    dict_get d "access_token" = Some v /\ v <> PNone /\
    headers self' = dict_set (headers self) "Authorization" ("bearer " ++ py_str py_repr v) /\
    (forall k, k <> "Authorization" ->
               dict_get (headers self') k = dict_get (headers self) k) /\
    token = Some {| expired := false; expire_time := Some (now1 + 3600000000) |}.
Proof.
  unfold authorize. intros H.
  destruct (dict_get env "REDDIT_CLIENT_ID") as [id|] eqn:E1; [|discriminate].
  destruct (dict_get env "REDDIT_CLIENT_SECRET") as [secret|] eqn:E2;
    [|simpl in H; rewrite ?andb_false_r in H; discriminate].
  destruct (dict_get env "REDDIT_USERNAME") as [user|] eqn:E3;
    [|simpl in H; rewrite ?andb_false_r in H; discriminate].
  destruct (dict_get env "REDDIT_PASSWORD") as [pass|] eqn:E4;
    [|simpl in H; rewrite ?andb_false_r in H; discriminate].
  cbn [forallb env_truthy or_empty] in H.
  destruct (String.eqb_spec id ""); [discriminate|].
  destruct (String.eqb_spec secret "");
    [simpl in H; rewrite ?andb_false_r in H; discriminate|].
  destruct (String.eqb_spec user "");
    [simpl in H; rewrite ?andb_false_r in H; discriminate|].
  destruct (String.eqb_spec pass "");
    [simpl in H; rewrite ?andb_false_r in H; discriminate|].
  cbn [negb andb] in H.
  set (req := {| post_url := _; post_auth := _; post_data := _; post_headers := _ |}) in *.
  destruct (ok (post req)) eqn:Eok; [|discriminate]. cbn [negb] in H.
  unfold r_json in H.
  destruct (body (post req)) as [j|] eqn:Eb; [|discriminate].
  destruct (truthy j) eqn:Et.
  - destruct j as [ | b | z | s | l | d]; try discriminate.
    cbn [py_get] in H.
    destruct (dict_get d "access_token") as [v|] eqn:Ev; [|discriminate].
    destruct (max_instant <? now1 + 3600000000);
      [destruct v; discriminate|].
    assert (Hv : v <> PNone) by (intros ->; discriminate).
    assert (Hs : self' = {| headers := dict_set (headers self) "Authorization"
                                                ("bearer " ++ py_str py_repr v) |}
                 /\ token = Some {| expired := false;
                                    expire_time := Some (now1 + 3600000000) |}
                 /\ posted = [req]).
    { destruct v; try congruence; inversion H; auto. }
    destruct Hs as (-> & -> & ->).
    exists id, secret, user, pass, d, v. repeat split; auto.
    + destruct H0 as [<-|[]]. exact Eok.
    + destruct H0 as [<-|[]]. exact Eb.
    + intros k Hk. simpl. now apply dict_get_set_other.
  - discriminate.
Qed.

(** X16.  A call of [authorize] that raises sets no token and posts at
    most one request; unless what it raises is the overflow of the
    expiry time, it leaves the client's headers as they were. *)
Theorem authorize_failure
        (env : dict string) (post : post_request -> response) (now1 now2 : Z)
        (self self' : Reddit) (e : auth_exn) (token : option Token)
        (posted : list post_request) :
  authorize py_repr env post now1 now2 self = (Some e, self', token, posted) ->
  token = None /\
  (List.length posted <= 1)%nat /\
  (e <> OverflowError -> self' = self) /\
  (e = OverflowError -> max_instant < now1 + 3600000000).
Proof.
  unfold authorize. intros H.
  destruct (negb (forallb env_truthy _)).
  { inversion H; subst. repeat split; auto. discriminate. }
  set (req := {| post_url := _; post_auth := _; post_data := _; post_headers := _ |}) in *.
  destruct (negb (ok (post req))).
  { inversion H; subst. repeat split; auto. discriminate. }
  destruct (r_json (post req)) as [j|e0].
  2:{ inversion H; subst. repeat split; auto. discriminate. }
  destruct (if truthy j then py_get j "access_token" else inr PNone) as [e1|v] eqn:Ev.
  { inversion H; subst. repeat split; auto.
    intros ->. destruct (truthy j); [|discriminate].
    destruct j; simpl in Ev; discriminate. }
  destruct (Z.ltb_spec max_instant (now1 + 3600000000)).
  - destruct v; inversion H; subst; repeat split; auto; try discriminate;
      intros; congruence.
  - destruct v; inversion H; subst; repeat split; auto; discriminate.
Qed.

(** X17.  After [authorize] has returned normally, every request
    [util_get] issues with the client carries the bearer header of
    the token granted and, under every other name, the header the
    client had before. *)
Theorem authorized_requests
        (utcoffset : Z -> Z) (S : Type) (serve : S -> request -> response * S)
        (env : dict string) (post : post_request -> response) (now1 now2 : Z)
        (self self' : Reddit) (token : option Token) (posted : list post_request)
        (fuel : nat) (url : string) (params : dict pyval) (w : world S) o p' w' :
  authorize py_repr env post now1 now2 self = (None, self', token, posted) ->
  util_get utcoffset S serve self' fuel url params w = (o, p', w') ->
  exists v,
    (forall req d, In req posted -> body (post req) = Some (PDict d) ->
                   dict_get d "access_token" = Some v) /\
    extends S (fun req =>
                 dict_get (req_headers req) "Authorization"
                 = Some ("bearer " ++ py_str py_repr v) /\
                 forall k, k <> "Authorization" ->
                           dict_get (req_headers req) k = dict_get (headers self) k)
            w w'.
Proof.
  intros Ha Hu. unfold authorize in Ha.
  destruct (negb (forallb env_truthy _)); [discriminate|].
  set (rq := {| post_url := _; post_auth := _; post_data := _; post_headers := _ |}) in *.
  destruct (negb (ok (post rq))); [discriminate|].
  unfold r_json in Ha.
  destruct (body (post rq)) as [j|] eqn:Eb; [|discriminate].
  destruct (truthy j); [|discriminate].
  destruct j as [ | b | z | s | l | d]; try discriminate. cbn [py_get] in Ha.
  destruct (dict_get d "access_token") as [v|] eqn:Ev; [|discriminate].
  destruct (max_instant <? now1 + 3600000000); [destruct v; discriminate|].
  assert (Hs : self' = {| headers := dict_set (headers self) "Authorization"
                                              ("bearer " ++ py_str py_repr v) |}
               /\ posted = [rq]).
  { destruct v; try discriminate; inversion Ha; auto. }
  destruct Hs as (-> & ->).
  exists v. split.
  - intros req d' [<-|[]] Hb. rewrite Eb in Hb. inversion Hb; subst. exact Ev.
  - apply util_get_log in Hu. destruct Hu as (cs & Hl & _).
    eexists. split; [exact Hl|]. apply Forall_map. apply Forall_forall.
    intros c _. simpl. split.
    + apply dict_get_set_same.
    + intros k Hk. now apply dict_get_set_other.
Qed.

End Authorized.

(** ** The further statements at work *)

(** Witness of X1. *)
Lemma transform_df_accepts_only_witness :
  exists recs,
    payloads (listing (map PDict two_posts) PNone) = Ok (map PDict recs) /\
    recs <> [] /\
    len (frame_of (listing (map PDict two_posts) PNone)) = List.length recs.
Proof.
  destruct (transform_df_accepts_only utc (listing (map PDict two_posts) PNone)
              (frame_of (listing (map PDict two_posts) PNone)))
    as (recs & H1 & H2 & H3 & _).
  - vm_compute. reflexivity.
  - exists recs. auto.
Defined.

(** Witness of X2: an empty listing as third page. *)
Lemma util_get_empty_listing_witness :
  util_get utc (list response) scripted client 5 "/r/test/new" new_params
           (fresh (three_pages_head ++ empty_page :: [three_pages_last])%list)
  = (Raise (KeyError "created_utc"),
     dict_set new_params "after" (PStr "c2"),
     {| srv := [three_pages_last];
        log := map (page_request client (url_base ++ "/r/test/new") new_params)
                   [PBool true; PStr "c1"; PStr "c2"] |}).
Proof.
  apply (util_get_empty_listing utc client three_pages_head (map page_of three_pages_head)
           empty_page (listing [] PNone)
           (PDict [("children", PList []); ("after", PNone)])
           [three_pages_last] 5 "/r/test/new" new_params).
  - exact three_pages_turn.
  - reflexivity.
  - reflexivity.
  - reflexivity.
  - simpl. lia.
Defined.

(** Witness of X3: the table of the three-page script. *)
Lemma util_get_table_shape_witness :
  List.length (index (table_of (fst (fst three_pages_run))))
  = len (table_of (fst (fst three_pages_run))) /\
  mem "timestamp" (columns (table_of (fst (fst three_pages_run)))) = true.
Proof.
  destruct (util_get_table_shape utc (list response) scripted client 5 "/r/test/new"
              new_params (fresh (three_pages_head ++ [three_pages_last])%list)
              (table_of (fst (fst three_pages_run))) (snd (fst three_pages_run))
              (snd three_pages_run))
    as (_ & H2 & _ & H4 & _).
  - vm_compute. reflexivity.
  - split; [exact H2 | exact H4].
Defined.

(** Witness of X4: a profile of three pages. *)
Lemma user_profile_created_utc_witness :
  Forall (fun r => exists d, dict_get r "created_utc" = Some (CTime d) /\
                             dict_get r "timestamp" = Some (CTime d))
         (rows (table_of (fst profile_run))).
Proof.
  destruct (user_profile_created_utc utc (list response) scripted client 5 "someone"
              (fresh (three_pages_head ++ [three_pages_last])%list)
              (fst profile_run) (snd profile_run)) as [_ H].
  - vm_compute. reflexivity.
  - apply H. vm_compute. reflexivity.
Defined.

Example profile_run_returns :
  len (table_of (fst profile_run)) = 6%nat /\
  cell_at (table_of (fst profile_run)) 0 "created_utc"
  = Some (CTime {| year := 2023; month := 11; day := 14;
                   hour := 22; minute := 13; second := 20 |}).
Proof. vm_compute. split; reflexivity. Qed.

(** Witness of X5: a server that always names a next page. *)
Lemma util_get_never_ends_witness :
  exists p' w',
    util_get utc unit (constant_server endless_page) client 7 "/r/test/new" new_params
             {| srv := tt; log := [] |} = (OutOfFuel, p', w') /\
    List.length (log w') = (0 + 7)%nat.
Proof.
  apply (util_get_never_ends utc unit (constant_server endless_page) client).
  intros s req. exists (fst (page_of endless_page)), (snd (page_of endless_page)).
  split; vm_compute; reflexivity.
Defined.

(** Witness of X6: a last page without rate-limit headers. *)
Lemma util_get_needs_rate_headers_witness :
  exists name,
    (name = "x-ratelimit-remaining" \/ name = "x-ratelimit-reset") /\
    dict_get (resp_headers headerless_page) name = None /\
    util_get utc (list response) scripted client 5 "/r/test/new" new_params
             (fresh (three_pages_head ++ headerless_page :: [])%list)
    = (Raise (KeyError name),
       dict_set new_params "after" (last (map snd (map page_of three_pages_head)) (PBool true)),
       {| srv := [];
          log := map (page_request client (url_base ++ "/r/test/new") new_params)
                     (PBool true :: map snd (map page_of three_pages_head)) |}).
Proof.
  apply (util_get_needs_rate_headers utc client three_pages_head
           (map page_of three_pages_head) headerless_page
           (listing (posts 2) PNone) (frame_of (listing (posts 2) PNone)) PNone
           [] 5 "/r/test/new" new_params).
  - exact three_pages_turn.
  - reflexivity.
  - vm_compute. reflexivity.
  - reflexivity.
  - left. reflexivity.
  - simpl. lia.
Defined.

(** Witness of X7: the two-page scenario. *)
Lemma util_get_row_labels_witness :
  exists table p' w',
    util_get utc (list response) scripted client 5 "/r/test/new" new_params
             (fresh (two_pages_head ++ two_pages_last :: [])%list) = (Return table, p', w') /\
    index table = (seq 0 100 ++ seq 0 40)%list.
Proof.
  destruct (util_get_row_labels utc client two_pages_head (map page_of two_pages_head)
              two_pages_last (fst (page_of two_pages_last)) (snd (page_of two_pages_last))
              [] 5 "/r/test/new" new_params)
    as (table & p' & w' & Hrun & Hidx & _).
  - exact two_pages_turn.
  - vm_compute. reflexivity.
  - reflexivity.
  - simpl. lia.
  - exists table, p', w'. split; [exact Hrun|].
    rewrite Hidx. vm_compute. reflexivity.
Defined.

(** Witness of X8: a full month, then a short week. *)
Lemma subreddit_top_table_size_witness :
  exists slicer fetched,
    list_index "month" top_list = Some slicer /\
    fetched <> [] /\
    len (table_of (fst full_month_run)) = list_sum (map len fetched) /\
    (900 * (List.length fetched - 1) <= len (table_of (fst full_month_run)))%nat /\
    Forall (fun d => (900 <= len d)%nat) (removelast fetched) /\
    rows (table_of (fst full_month_run))
    = flat_map (fun df => map (reindex (columns (table_of (fst full_month_run)))) (rows df))
               fetched /\
    exists tops rest,
      skipn slicer top_list = (tops ++ rest)%list /\
      visits utc (list response) scripted client 5 "/r/test/top" (fresh full_month)
             (combine tops (map Return fetched)) (snd full_month_run).
Proof.
  destruct (subreddit_top_table_size utc (list response) scripted client 5
              "test" "top" "month" (fresh full_month)
              (table_of (fst full_month_run)) (snd full_month_run))
    as (slicer & fetched & H1 & H2 & _ & _ & H5 & H6 & _ & H8 & H9
        & tops & rest & H10 & _ & H11).
  - vm_compute. reflexivity.
  - exists slicer, fetched. repeat split; auto. exists tops, rest. auto.
Defined.

(** Witness of X9: the first answer is an error body. *)
Lemma aggregate_raises_read_errors_witness :
  exists s req, read_page utc (fst (scripted s req)) = Err (KeyError "data").
Proof.
  apply (aggregate_raises_read_errors utc (list response) scripted client 5 "test"
           (fresh [forbidden 403]) (KeyError "data") (snd refused_aggregate)).
  vm_compute. reflexivity.
Defined.

(** Witness of X10. *)
Lemma aggregate_requests_witness :
  exists new,
    log (snd short_aggregate) = (log (fresh short_month) ++ new)%list /\
    Forall (fun req => req_headers req = headers client) new.
Proof.
  destruct (aggregate_requests utc (list response) scripted client 5 "test"
              (fresh short_month) (fst short_aggregate) (snd short_aggregate))
    as (new & Hl & HF).
  - vm_compute. reflexivity.
  - exists new. split; [exact Hl|].
    eapply Forall_impl; [|exact HF]. intros req [H _]. exact H.
Defined.

Example short_aggregate_urls :
  map req_url (log (snd short_aggregate))
  = ["https://oauth.reddit.com/r/test/rising"; "https://oauth.reddit.com/r/test/new";
     "https://oauth.reddit.com/r/test/hot"].
Proof. vm_compute. reflexivity. Qed.

(** Witness of X11: a search scoped to a subreddit. *)
Lemma search_requests_witness :
  exists new,
    log (snd scoped_search) = (log (fresh (three_pages_head ++ [three_pages_last])%list)
                               ++ new)%list /\
    Forall (fun req => req_url req = url_base ++ "/r/pics/search" /\
                       dict_get (req_params req) "restrict_sr" = Some (PBool true)) new.
Proof.
  destruct (search_requests utc (list response) scripted client 5 "cats" (Some "pics")
              "comments" "month" (fresh (three_pages_head ++ [three_pages_last])%list)
              (fst scoped_search) (snd scoped_search))
    as (new & Hl & HF).
  - vm_compute. reflexivity.
  - exists new. split; [exact Hl|].
    eapply Forall_impl; [|exact HF]. intros req (H1 & _ & _ & _ & _ & _ & H7 & _).
    split; [exact H1 | exact H7].
Defined.

(** X12 and X13 on a token expiring at noon. *)
Example checks_around_noon :
  check_all {| expired := false; expire_time := Some noon |}
            [(true, noon - 1); (false, noon); (true, noon + 1); (true, noon - 5)]
  = ([true; true; false; true], {| expired := true; expire_time := Some noon |}).
Proof. reflexivity. Qed.

Example expired_token_announced :
  snd (Token_init noon (noon + 1000000))
  = "Token valid for 1439 min and expires at 12:00".
Proof. reflexivity. Qed.

(** Witness of X14: the client id is set but empty. *)
Lemma authorize_needs_environment_witness :
  exists msg,
    authorize no_repr (dict_set full_env "REDDIT_CLIENT_ID" "") granting noon noon client
    = (Some (RedditException msg), client, None, []).
Proof.
  apply (authorize_needs_environment no_repr (dict_set full_env "REDDIT_CLIENT_ID" "")
           granting noon noon client "REDDIT_CLIENT_ID").
  - simpl. auto.
  - reflexivity.
Defined.

(** Witness of X15. *)
Lemma authorize_success_witness :
  exists v,
    headers authorized_client
    = dict_set (headers client) "Authorization" ("bearer " ++ py_str no_repr v) /\
    snd (fst granted_run)
    = Some {| expired := false; expire_time := Some (noon + 3600000000) |}.
Proof.
  destruct (authorize_success no_repr full_env granting noon (noon + 3) client
              authorized_client (snd (fst granted_run)) (snd granted_run))
    as (id & secret & user & pass & d & v & H).
  - vm_compute. reflexivity.
  - exists v. destruct H as (_ & _ & _ & _ & _ & _ & _ & _ & _ & _ & _ & _ & H1 & _ & H2).
    split; [exact H1 | exact H2].
Defined.

Example granted_headers :
  headers authorized_client
  = [("User-Agent", "Python script:Trends v0.2 by u/molivo10");
     ("Authorization", "bearer abc")].
Proof. reflexivity. Qed.

(** Witness of X16: the endpoint answers 401. *)
Lemma authorize_failure_witness :
  snd (fst refused_run) = None /\
  (List.length (snd refused_run) <= 1)%nat /\
  (PlainException "Could not get token" <> OverflowError ->
   snd (fst (fst refused_run)) = client).
Proof.
  destruct (authorize_failure no_repr full_env refusing noon (noon + 3) client
              (snd (fst (fst refused_run))) (PlainException "Could not get token")
              (snd (fst refused_run)) (snd refused_run))
    as (H1 & H2 & H3 & _).
  - vm_compute. reflexivity.
  - auto.
Defined.

(** Witness of X17: the three-page fetch with the authorized client. *)
Lemma authorized_requests_witness :
  exists v new,
    log (snd authorized_fetch) = new /\
    Forall (fun req => dict_get (req_headers req) "Authorization"
                       = Some ("bearer " ++ py_str no_repr v)) new.
Proof.
  destruct (authorized_requests no_repr utc (list response) scripted full_env granting
              noon (noon + 3) client authorized_client (snd (fst granted_run))
              (snd granted_run) 5 "/r/test/new" new_params
              (fresh (three_pages_head ++ [three_pages_last])%list)
              (fst (fst authorized_fetch)) (snd (fst authorized_fetch))
              (snd authorized_fetch))
    as (v & _ & new & Hl & HF).
  - vm_compute. reflexivity.
  - vm_compute. reflexivity.
  - exists v, new. split; [exact Hl|].
    eapply Forall_impl; [|exact HF]. intros req [H _]. exact H.
Defined.

(** ** The allowance of turns *)

Section Allowance.

Variable utcoffset : Z -> Z.
Variable S : Type.
Variable serve : S -> request -> response * S.
Variable self : Reddit.

(** A run of the loop that ends within its allowance ends the same
    way under any larger one: the outcomes stated above are outcomes
    of the loop itself, not of the bound put on it. *)
Lemma util_get_loop_more_fuel (n : nat) :
  forall (m : nat) (url : string) (after : pyval) (result : list DataFrame)
         (params : dict pyval) (w : world S) o p' w',
    util_get_loop utcoffset S serve self n url after result params w = (o, p', w') ->
    o <> OutOfFuel -> (n <= m)%nat ->
    util_get_loop utcoffset S serve self m url after result params w = (o, p', w').
Proof.
  induction n as [|n IH]; intros m url after result params w o p' w' H Ho Hm.
  - simpl in H. destruct (truthy after) eqn:Et.
    + inversion H; subst. congruence.
    + now rewrite util_get_loop_stop.
  - destruct m as [|m]; [lia|]. simpl in *.
    destruct (truthy after); auto.
    destruct (requests_get S serve _ w) as [r w1].
    destruct (read_page utcoffset r) as [[df c]|e]; auto.
    apply IH; auto. lia.
Qed.

Lemma util_get_more_fuel (n m : nat) (url : string) (params : dict pyval)
      (w : world S) o p' w' :
  util_get utcoffset S serve self n url params w = (o, p', w') ->
  o <> OutOfFuel -> (n <= m)%nat ->
  util_get utcoffset S serve self m url params w = (o, p', w').
Proof.
  unfold util_get. intros H Ho Hm.
  destruct (util_get_loop utcoffset S serve self n (url_base ++ url) (PBool true) [] params w)
    as [[o1 p1] w1] eqn:El.
  assert (Ho1 : o1 <> OutOfFuel) by (intros ->; inversion H; congruence).
  rewrite (util_get_loop_more_fuel n m _ _ _ _ _ _ _ _ El Ho1 Hm). exact H.
Qed.

End Allowance.
